(** * PDL_IMS: approvals, depreciation, stock, locations, soft delete

    A shallow embedding of the business rules of the inventory/ERP
    back end (Django models, signal receivers and admin actions of the apps
    [core], [approvals], [assets] and [procurement]) together with the
    properties stated about them.

    Conventions of the embedding.
    - A database table is a finite map from primary key to row, or a list of
      rows when the code only appends to it or reads it.
    - A method that touches the database is a function of the database that
      returns a result (a value or a raised exception) and the database as it
      is when the method returns or raises.
    - [timezone.now()] and [uuid.uuid4()] are inputs of the functions that
      call them; a call reads the clock once.
    - A foreign key holds the primary key of the row it refers to; only
      the NOT NULL and primary-key constraints of the tables are checked.
    - A model instance is one that was loaded from its table, saved before,
      or returned by [objects.create]: its [save()] is an UPDATE of the row
      with its primary key.
    - UUIDs are modelled by their canonical text, so that f-strings over
      them stay computable.
    - Points in time are integers: the microseconds since
      0001-01-01 00:00 UTC, which a [datetime] holds up to the last
      microsecond of the year 9999; calendar dates are year/month/day
      records with Python's [toordinal]. *)

From Stdlib Require Import ZArith Lia Bool.
From stdpp Require Import base option list sorting strings gmap.

Local Open Scope Z_scope.

(** ** Python's [decimal.Decimal] under the default context *)

(** A finite decimal is a signed coefficient and an exponent; the default
    context rounds every arithmetic result to 28 significant digits with
    ROUND_HALF_EVEN.  Signed zeros, NaN and infinities do not occur in the
    code under study and are not represented. *)
Module Decimal.

Record t : Type := mk { coef : Z; expo : Z }.

Definition prec : Z := 28.

Definition zero : t := mk 0 0.

(** [Decimal(str(n))] for an integer [n]. *)
Definition of_int (n : Z) : t := mk n 0.

(** [len(str(n))] for a non-negative integer. *)
Fixpoint ndigits_aux (fuel : nat) (n : Z) : Z :=
  match fuel with
  | O => 1
  | S f => if n <? 10 then 1 else 1 + ndigits_aux f (n / 10)
  end.

Definition ndigits (c : Z) : Z :=
  let n := Z.abs c in ndigits_aux (Z.to_nat (Z.log2 n)) n.

Definition round_half_even (q r half : Z) : Z :=
  if (half <? r) || ((r =? half) && Z.odd q) then q + 1 else q.

(** [Decimal._fix]: round the coefficient to the context precision. *)
Definition fix_ (d : t) : t :=
  let a := Z.abs (coef d) in
  if a <? 10 ^ prec then d
  else
    let k := ndigits a - prec in
    let q := a / 10 ^ k in
    let r := a mod 10 ^ k in
    let q' := round_half_even q r (5 * 10 ^ (k - 1)) in
    if q' =? 10 ^ prec
    then mk (Z.sgn (coef d) * 10 ^ (prec - 1)) (expo d + k + 1)
    else mk (Z.sgn (coef d) * q') (expo d + k).

(** Both coefficients at the smaller of the two exponents. *)
Definition align (a b : t) : Z * Z * Z :=
  let e := Z.min (expo a) (expo b) in
  (coef a * 10 ^ (expo a - e), coef b * 10 ^ (expo b - e), e).

Definition add (a b : t) : t :=
  let '(x, y, e) := align a b in fix_ (mk (x + y) e).

Definition sub (a b : t) : t :=
  let '(x, y, e) := align a b in fix_ (mk (x - y) e).

Definition mul (a b : t) : t :=
  fix_ (mk (coef a * coef b) (expo a + expo b)).

Fixpoint strip_zeros (fuel : nat) (c e : Z) : Z * Z :=
  match fuel with
  | O => (c, e)
  | S f => if c mod 10 =? 0 then strip_zeros f (c / 10) (e + 1) else (c, e)
  end.

(** [a / b]; [None] stands for the DivisionByZero (or InvalidOperation)
    signal that the default context turns into an exception. *)
Definition div (a b : t) : option t :=
  if coef b =? 0 then None
  else if coef a =? 0 then Some (fix_ (mk 0 (expo a - expo b)))
  else
    let shift := ndigits (coef b) - ndigits (coef a) + prec + 1 in
    let e := expo a - expo b - shift in
    let x := Z.abs (coef a) in
    let y := Z.abs (coef b) in
    let '(n, m) := if 0 <=? shift then (x * 10 ^ shift, y)
                   else (x, y * 10 ^ (- shift)) in
    let q := n / m in
    let r := n mod m in
    let sg := Z.sgn (coef a) * Z.sgn (coef b) in
    if r =? 0
    then let '(q', e') := strip_zeros (Z.to_nat (expo a - expo b - e)) q e in
         Some (fix_ (mk (sg * q') e'))
    else Some (fix_ (mk (sg * (if q mod 5 =? 0 then q + 1 else q)) e)).

(** Comparisons are exact. *)
Definition ltb (a b : t) : bool :=
  let '(x, y, _) := align a b in x <? y.


(** Truth value: a Decimal is falsy exactly when it is zero. *)
Definition truthy (a : t) : bool := negb (coef a =? 0).

(** [int(a)]: truncation toward zero. *)
Definition to_int (a : t) : Z :=
  if 0 <=? expo a then coef a * 10 ^ expo a
  else Z.quot (coef a) (10 ^ (- expo a)).

(** The builtins [min(a, b)] and [max(a, b)]: the first argument wins ties. *)
Definition pymin (a b : t) : t := if ltb b a then b else a.
Definition pymax (a b : t) : t := if ltb a b then b else a.

(** The builtin [sum]: starts from the integer 0 and adds from the left. *)
Definition pysum (l : list t) : t := fold_left add l zero.

End Decimal.

(** ** [datetime.date] *)
Module Date.

Record t : Type := mk { year : Z; month : Z; day : Z }.

Definition is_leap (y : Z) : bool :=
  (y mod 4 =? 0) && (negb (y mod 100 =? 0) || (y mod 400 =? 0)).

Definition days_before_year (y : Z) : Z :=
  let y1 := y - 1 in y1 * 365 + y1 / 4 - y1 / 100 + y1 / 400.

Definition days_before_month_table : list Z :=
  [-1; 0; 31; 59; 90; 120; 151; 181; 212; 243; 273; 304; 334].

Definition days_before_month (y m : Z) : Z :=
  nth (Z.to_nat m) days_before_month_table 0
  + (if (2 <? m) && is_leap y then 1 else 0).

Definition toordinal (d : t) : Z :=
  days_before_year (year d) + days_before_month (year d) (month d) + day d.

(** [(a - b).days] *)
Definition days_between (a b : t) : Z := toordinal a - toordinal b.

End Date.

(** ** Exceptions, results and database-passing computations *)

Definition UUID : Type := string.
Definition Time : Type := Z.

Inductive exn : Type :=
| ValidationError (msg : string)
| IntegrityError      (* a NOT NULL or primary-key constraint refused a row *)
| DatabaseError       (* save(update_fields=...) matched no row *)
| ObjectDoesNotExist  (* a foreign key was followed to a missing row *)
| DivisionByZero
| OverflowError.      (* a timedelta or datetime out of its range *)

Inductive result (A : Type) : Type :=
| Ok (a : A)
| Raise (e : exn).
Arguments Ok {A} a.
Arguments Raise {A} e.

(** A computation over a database [S]: the database is returned as it is
    when the computation returns or raises. *)
Definition M (S A : Type) : Type := S -> result A * S.

#[global] Instance M_ret {S} : MRet (M S) := fun A a s => (Ok a, s).

#[global] Instance M_bind {S} : MBind (M S) := fun A B f m s =>
  match m s with
  | (Ok a, s') => f a s'
  | (Raise e, s') => (Raise e, s')
  end.

Definition raise {S A} (e : exn) : M S A := fun s => (Raise e, s).

(** [try: body except Exception: pass] *)
Definition try_except_pass {S A} (body : M S A) : M S unit := fun s =>
  match body s with
  | (_, s') => (Ok tt, s')
  end.

(** [datetime.max], and [datetime.__add__]: the sum is refused when it
    leaves the years 1 to 9999. *)
Definition datetime_max : Time := 315537897599999999.

Definition datetime_add (t : Time) (delta : Z) : result Time :=
  let r := t + delta in
  if (0 <=? r) && (r <=? datetime_max) then Ok r else Raise OverflowError.

(** [timedelta(hours=h)] in microseconds; a timedelta holds at most
    999999999 days either way. *)
Definition timedelta_hours (h : Z) : result Z :=
  let us := h * 3600000000 in
  if Z.abs (us / 86400000000) <=? 999999999 then Ok us
  else Raise OverflowError.

(** f-string rendering of a nullable text attribute. *)
Definition str_opt (o : option string) : string :=
  match o with
  | Some s => s
  | None => "None"
  end.

(** ** core/models.py: the abstract base model *)
Module Core.

Section BaseModel.

(** [F] stands for the columns a concrete model adds to the base ones. *)
Context {F : Type}.

Record BaseModel : Type := mkBase {
  id : UUID;
  created_at : Time;
  updated_at : Time;
  created_by : option UUID;
  updated_by : option UUID;
  deleted_at : option Time;
  deleted_by : option UUID;
  fields : F
}.

Definition set_deleted (da : option Time) (dby : option UUID)
    (m : BaseModel) : BaseModel :=
  mkBase (id m) (created_at m) (updated_at m) (created_by m) (updated_by m)
         da dby (fields m).

Definition set_fields (f : F) (m : BaseModel) : BaseModel :=
  mkBase (id m) (created_at m) (updated_at m) (created_by m) (updated_by m)
         (deleted_at m) (deleted_by m) f.

(** The table of the concrete model. *)
#[local] Abbreviation Table := (gmap UUID BaseModel).

(** What the concrete model's [save()] does before it delegates to the
    inherited [save] with the same arguments: every override in the
    repository only recomputes columns of its own on the instance (document
    numbers, totals, depreciation), and [Location.save] may raise from
    [full_clean()].  A model that does not override [save] has
    [fun _ m => Ok (fields m)]. *)
Variable save_override : Table -> BaseModel -> result F.

(** [Model.save(update_fields=['deleted_at', 'deleted_by'])]: an UPDATE of
    these two columns of the row with the instance's primary key; Django
    raises DatabaseError when no row is affected. *)
Definition update_deleted_columns (self : BaseModel) : M Table unit :=
  fun db =>
    match db !! id self with
    | None => (Raise DatabaseError, db)
    | Some row =>
        (Ok tt,
         <[id self := set_deleted (deleted_at self) (deleted_by self) row]> db)
    end.

(** [self.save(update_fields=['deleted_at', 'deleted_by'])], dispatched to
    the concrete model. *)
Definition save_deleted (self : BaseModel) : M Table BaseModel :=
  fun db =>
    match save_override db self with
    | Raise e => (Raise e, db)
    | Ok f =>
        let self' := set_fields f self in
        match update_deleted_columns self' db with
        | (Ok _, db') => (Ok self', db')
        | (Raise e, db') => (Raise e, db')
        end
    end.

Definition soft_delete (now : Time) (user_id : option UUID)
    (self : BaseModel) : M Table BaseModel :=
  let self := set_deleted (Some now) user_id self in
  save_deleted self.

Definition restore (self : BaseModel) : M Table BaseModel :=
  let self := set_deleted None None self in
  save_deleted self.

Definition is_deleted (self : BaseModel) : bool :=
  match deleted_at self with
  | Some _ => true
  | None => false
  end.

End BaseModel.

Arguments BaseModel : clear implicits.

Abbreviation Table F := (gmap UUID (BaseModel F)).

End Core.

(** ** procurement/models.py *)
Module Procurement.

(** *** Purchase requests (the columns of [PurchaseRequest]) *)
Record PurchaseRequestFields : Type := mkPurchaseRequestFields {
  pr_number : string;
  requester : UUID;
  department : option UUID;
  factory : UUID;
  request_type : string;
  request_date : Date.t;
  required_by_date : option Date.t;
  priority : string;
  status : string;
  justification : option string;
  total_estimated_value : option Decimal.t;
  currency : option UUID;
  approved_by : option UUID;
  approved_at : option Time;
  rejection_reason : option string
}.

Definition PurchaseRequest : Type := Core.BaseModel PurchaseRequestFields.

(** *** Stock batches *)
Record StockBatch : Type := mkStockBatch {
  sb_id : UUID;
  sb_item : UUID;
  batch_no : string;
  lot_no : option string;
  sb_location : UUID;
  grn_line : option UUID;
  manufacture_date : option Date.t;
  expiry_date : option Date.t;
  qty_received : Decimal.t;
  qty_on_hand : Decimal.t;
  qty_allocated : Decimal.t;
  qty_available : option Decimal.t;
  sb_uom : UUID;
  sb_unit_cost : Decimal.t;
  sb_total_value : Decimal.t;
  sb_status : string;
  sb_created_at : Time;
  sb_updated_at : Time
}.

(** [StockBatch.save]: the derived columns, recomputed on the instance
    before the row is written. *)
Definition StockBatch_save_derived (self : StockBatch) : StockBatch :=
  mkStockBatch (sb_id self) (sb_item self) (batch_no self) (lot_no self)
    (sb_location self) (grn_line self) (manufacture_date self)
    (expiry_date self) (qty_received self) (qty_on_hand self)
    (qty_allocated self)
    (Some (Decimal.sub (qty_on_hand self) (qty_allocated self)))
    (sb_uom self) (sb_unit_cost self)
    (Decimal.mul (qty_on_hand self) (sb_unit_cost self))
    (sb_status self) (sb_created_at self) (sb_updated_at self).

(** The dict returned by [get_item_valuation]. *)
Record Valuation : Type := mkValuation {
  v_quantity : Decimal.t;
  v_value : Decimal.t;
  v_avg_cost : Decimal.t
}.

Definition created_at_le (a b : StockBatch) : Prop :=
  sb_created_at a <= sb_created_at b.

#[global] Instance created_at_le_dec : RelDecision created_at_le.
Proof. intros a b. unfold created_at_le. apply _. Defined.

(** The rows selected by the two [filter] calls. *)
Definition valuation_batches (item : UUID) (location : option UUID)
    (stock_batches : list StockBatch) : list StockBatch :=
  let batches :=
    filter (fun b => sb_item b = item
                     /\ Decimal.ltb Decimal.zero (qty_on_hand b) = true
                     /\ sb_status b = "ACTIVE") stock_batches in
  match location with
  | Some loc => filter (fun b => sb_location b = loc) batches
  | None => batches
  end.

(** The arithmetic after the query. *)
Definition valuation_of (batches : list StockBatch) : result Valuation :=
  let total_qty := Decimal.pysum (map qty_on_hand batches) in
  let total_value := Decimal.pysum (map sb_total_value batches) in
  if Decimal.ltb Decimal.zero total_qty
  then match Decimal.div total_value total_qty with
       | Some avg_cost => Ok (mkValuation total_qty total_value avg_cost)
       | None => Raise DivisionByZero
       end
  else Ok (mkValuation total_qty total_value Decimal.zero).

Definition get_item_valuation (item : UUID) (location : option UUID)
    (stock_batches : list StockBatch) : result Valuation :=
  let batches := valuation_batches item location stock_batches in
  let batches := merge_sort created_at_le batches in  (* FIFO *)
  valuation_of batches.

(** *** Stock movements *)
Record StockMovement : Type := mkStockMovement {
  sm_id : UUID;
  item : UUID;
  from_location : option UUID;
  to_location : option UUID;
  movement_type : string;
  reference_type : option string;
  reference_id : option UUID;
  reference_number : option string;
  batch : option UUID;
  serial_no : option string;
  quantity : Decimal.t;
  uom : UUID;
  unit_cost : option Decimal.t;
  total_value : option Decimal.t;
  fiscal_year : option Z;
  fiscal_month : option Z;
  transaction_date : Date.t;
  transaction_time : Time;
  created_by : UUID;
  sm_approved_by : option UUID;
  sm_approved_at : option Time;
  reason_code : option string;
  remarks : option string;
  is_reversed : bool;
  reversed_by : option UUID;
  reversed_at : option Time;
  created_at : Time
}.

Abbreviation Movements := (gmap UUID StockMovement).

Definition set_total_value (v : option Decimal.t) (m : StockMovement)
    : StockMovement :=
  mkStockMovement (sm_id m) (item m) (from_location m) (to_location m)
    (movement_type m) (reference_type m) (reference_id m)
    (reference_number m) (batch m) (serial_no m) (quantity m) (uom m)
    (unit_cost m) v (fiscal_year m) (fiscal_month m) (transaction_date m)
    (transaction_time m) (created_by m) (sm_approved_by m) (sm_approved_at m)
    (reason_code m) (remarks m) (is_reversed m) (reversed_by m)
    (reversed_at m) (created_at m).

Definition set_fiscal (y mo : option Z) (m : StockMovement) : StockMovement :=
  mkStockMovement (sm_id m) (item m) (from_location m) (to_location m)
    (movement_type m) (reference_type m) (reference_id m)
    (reference_number m) (batch m) (serial_no m) (quantity m) (uom m)
    (unit_cost m) (total_value m) y mo (transaction_date m)
    (transaction_time m) (created_by m) (sm_approved_by m) (sm_approved_at m)
    (reason_code m) (remarks m) (is_reversed m) (reversed_by m)
    (reversed_at m) (created_at m).

Definition set_reversal (flag : bool) (by_user : option UUID)
    (at_time : option Time) (m : StockMovement) : StockMovement :=
  mkStockMovement (sm_id m) (item m) (from_location m) (to_location m)
    (movement_type m) (reference_type m) (reference_id m)
    (reference_number m) (batch m) (serial_no m) (quantity m) (uom m)
    (unit_cost m) (total_value m) (fiscal_year m) (fiscal_month m)
    (transaction_date m) (transaction_time m) (created_by m)
    (sm_approved_by m) (sm_approved_at m) (reason_code m) (remarks m)
    flag by_user at_time (created_at m).

(** The body of [StockMovement.save] before the inherited save: total value
    and fiscal period, recomputed on the instance. *)
Definition StockMovement_save_derived (self : StockMovement) : StockMovement :=
  let self :=
    match unit_cost self with
    | Some c =>
        if Decimal.truthy c && Decimal.truthy (quantity self)
        then set_total_value (Some (Decimal.mul c (quantity self))) self
        else self
    | None => self
    end in
  set_fiscal (Some (Date.year (transaction_date self)))
             (Some (Date.month (transaction_date self))) self.

(** The keyword arguments [reverse_movement] passes to
    [StockMovement.objects.create]. *)
Record MovementKwargs : Type := mkMovementKwargs {
  kw_item : UUID;
  kw_from_location : option UUID;
  kw_to_location : option UUID;
  kw_movement_type : string;
  kw_reference_type : option string;
  kw_reference_id : option UUID;
  kw_reference_number : option string;
  kw_batch : option UUID;
  kw_serial_no : option string;
  kw_quantity : Decimal.t;
  kw_uom : UUID;
  kw_unit_cost : option Decimal.t;
  kw_transaction_date : Date.t;
  kw_created_by : UUID;
  kw_reason_code : option string;
  kw_remarks : option string
}.

(** [StockMovement.objects.create]: a fresh instance with the
    column defaults, [save(force_insert=True)] on it.  The primary key is the
    [uuid4()] drawn for the instance; an INSERT under a key already present
    is refused. *)
Definition StockMovement_objects_create (now : Time) (new_id : UUID)
    (kw : MovementKwargs) : M Movements StockMovement :=
  fun db =>
    let obj :=
      mkStockMovement new_id (kw_item kw) (kw_from_location kw)
        (kw_to_location kw) (kw_movement_type kw) (kw_reference_type kw)
        (kw_reference_id kw) (kw_reference_number kw) (kw_batch kw)
        (kw_serial_no kw) (kw_quantity kw) (kw_uom kw) (kw_unit_cost kw)
        None None None (kw_transaction_date kw) now (kw_created_by kw)
        None None (kw_reason_code kw) (kw_remarks kw) false None None now in
    let obj := StockMovement_save_derived obj in
    match db !! new_id with
    | Some _ => (Raise IntegrityError, db)
    | None => (Ok obj, <[new_id := obj]> db)
    end.

(** [self.save(update_fields=['is_reversed', 'reversed_by', 'reversed_at'])]:
    the override recomputes the derived attributes on the instance, the
    UPDATE writes the three named columns only. *)
Definition StockMovement_save_reversal (self : StockMovement)
    : M Movements StockMovement :=
  fun db =>
    let self := StockMovement_save_derived self in
    match db !! sm_id self with
    | None => (Raise DatabaseError, db)
    | Some row =>
        (Ok self,
         <[sm_id self := set_reversal (is_reversed self) (reversed_by self)
                                      (reversed_at self) row]> db)
    end.

(** [StockMovement.reverse_movement]; returns the reverse movement and the
    instance as the method leaves it. *)
Definition reverse_movement (now : Time) (new_id : UUID)
    (self : StockMovement) (user : UUID)
    : M Movements (StockMovement * StockMovement) :=
  if is_reversed self
  then raise (ValidationError "This movement has already been reversed.")
  else
    reverse ← StockMovement_objects_create now new_id
      (mkMovementKwargs
         (item self)
         (to_location self)     (* swap locations *)
         (from_location self)
         (movement_type self)
         (Some ("REVERSAL_" +:+ str_opt (reference_type self)))
         (Some (sm_id self))
         (Some ("REV-" +:+ str_opt (reference_number self)))
         (batch self)
         (serial_no self)
         (quantity self)
         (uom self)
         (unit_cost self)
         (transaction_date self)
         user
         (Some "REVERSAL")
         (Some ("Reversal of movement " +:+ sm_id self)));
    let self := set_reversal true (Some user) (Some now) self in
    self ← StockMovement_save_reversal self;
    mret (reverse, self).

End Procurement.

(** ** approvals/models.py and approvals/signals.py *)
Module Approvals.

(** *** Rows *)

(** users/models.py: what the approval code reads of a user. *)
Record User : Type := mkUser {
  user_id : UUID;
  username : string;
  user_is_active : bool
}.

Record UserRole : Type := mkUserRole {
  ur_user : UUID;
  ur_role : UUID
}.

Record WorkflowFields : Type := mkWorkflowFields {
  workflow_name : string;
  wf_entity_type : string;
  wf_description : option string;
  wf_factory : option UUID;
  wf_is_active : bool;
  is_default : bool;
  min_value : option Decimal.t;
  max_value : option Decimal.t
}.

Definition ApprovalWorkflow : Type := Core.BaseModel WorkflowFields.

Record StepFields : Type := mkStepFields {
  step_workflow : UUID;
  step_sequence : Z;
  step_name : string;
  approver_role : option UUID;
  approver_user : option UUID;
  is_parallel : bool;
  parallel_group : option Z;
  is_mandatory : bool;
  can_delegate : bool;
  timeout_hours : option Z;
  escalation_role : option UUID
}.

Definition ApprovalWorkflowStep : Type := Core.BaseModel StepFields.

Definition step_seq (s : ApprovalWorkflowStep) : Z :=
  step_sequence (Core.fields s).

Record Approval : Type := mkApproval {
  ap_id : UUID;
  entity_type : string;
  entity_id : UUID;
  entity_number : option string;
  workflow : option UUID;
  current_step_sequence : option Z;
  requested_by : UUID;
  requested_at : Time;
  status : string;
  completed_at : option Time;
  remarks : option string;
  metadata : option Decimal.t;   (* the 'value' entry of the JSON object *)
  ap_created_at : Time;
  ap_updated_at : Time
}.

Record ApprovalHistory : Type := mkApprovalHistory {
  h_id : UUID;
  h_approval : UUID;
  h_step_sequence : Z;                 (* NOT NULL *)
  h_approver_role : option UUID;
  h_approver_user : UUID;              (* NOT NULL *)
  h_action : string;
  action_date : Time;
  delegated_to_user : option UUID;
  h_comments : option string;
  ip_address : option string;
  h_created_at : Time
}.

Record DB : Type := mkDB {
  workflows : list ApprovalWorkflow;
  steps : list ApprovalWorkflowStep;
  users : list User;
  user_roles : list UserRole;
  roles : gmap UUID string;            (* role_name by primary key *)
  approvals : gmap UUID Approval;
  history : list ApprovalHistory
}.

Definition with_approvals (a : gmap UUID Approval) (db : DB) : DB :=
  mkDB (workflows db) (steps db) (users db) (user_roles db) (roles db) a
       (history db).

Definition with_history (h : list ApprovalHistory) (db : DB) : DB :=
  mkDB (workflows db) (steps db) (users db) (user_roles db) (roles db)
       (approvals db) h.

Definition set_current_step_sequence (c : option Z) (a : Approval) : Approval :=
  mkApproval (ap_id a) (entity_type a) (entity_id a) (entity_number a)
    (workflow a) c (requested_by a) (requested_at a) (status a)
    (completed_at a) (remarks a) (metadata a) (ap_created_at a)
    (ap_updated_at a).

Definition set_status (s : string) (a : Approval) : Approval :=
  mkApproval (ap_id a) (entity_type a) (entity_id a) (entity_number a)
    (workflow a) (current_step_sequence a) (requested_by a) (requested_at a)
    s (completed_at a) (remarks a) (metadata a) (ap_created_at a)
    (ap_updated_at a).

Definition set_completed_at (t : option Time) (a : Approval) : Approval :=
  mkApproval (ap_id a) (entity_type a) (entity_id a) (entity_number a)
    (workflow a) (current_step_sequence a) (requested_by a) (requested_at a)
    (status a) t (remarks a) (metadata a) (ap_created_at a)
    (ap_updated_at a).

(** The automatic timestamps: [auto_now] on every save, [auto_now_add] on
    the INSERT only. *)
Definition set_auto_timestamps (adding : bool) (now : Time) (a : Approval)
    : Approval :=
  mkApproval (ap_id a) (entity_type a) (entity_id a) (entity_number a)
    (workflow a) (current_step_sequence a) (requested_by a)
    (if adding then now else requested_at a)
    (status a) (completed_at a) (remarks a) (metadata a)
    (if adding then now else ap_created_at a)
    now.

(** *** ApprovalWorkflow *)

Definition step_seq_le (a b : ApprovalWorkflowStep) : Prop :=
  step_seq a <= step_seq b.

#[global] Instance step_seq_le_dec : RelDecision step_seq_le.
Proof. intros a b. unfold step_seq_le. apply _. Defined.

(** [self.steps.filter(deleted_at__isnull=True).order_by('step_sequence')] *)
Definition get_steps (w : UUID) (db : DB) : list ApprovalWorkflowStep :=
  merge_sort step_seq_le
    (filter (fun s => step_workflow (Core.fields s) = w
                      /\ Core.deleted_at s = None) (steps db)).

Definition applies_to_value (w : ApprovalWorkflow) (value : Decimal.t) : bool :=
  if match min_value (Core.fields w) with
     | Some m => Decimal.truthy m && Decimal.ltb value m
     | None => false
     end
  then false
  else if match max_value (Core.fields w) with
          | Some m => Decimal.truthy m && Decimal.ltb m value
          | None => false
          end
  then false
  else true.

(** *** ApprovalWorkflowStep *)

(** [get_approvers]: the queryset, as the list of its users. *)
Definition get_approvers (step : ApprovalWorkflowStep) (db : DB) : list User :=
  match approver_user (Core.fields step) with
  | Some u =>
      filter (fun x => user_id x = u /\ user_is_active x = true) (users db)
  | None =>
      match approver_role (Core.fields step) with
      | Some r =>
          filter (fun x =>
                    Exists (fun ur => ur_user ur = user_id x /\ ur_role ur = r)
                           (user_roles db)
                    /\ user_is_active x = true) (users db)
      | None => []
      end
  end.

(** [user in queryset]: membership is equality of primary keys. *)
Definition user_in (user : UUID) (qs : list User) : bool :=
  bool_decide (user ∈ map user_id qs).

(** *** Approval *)

(** [get_current_step].  The related manager is not filtered on
    [deleted_at]; [unique_together] on (workflow, step_sequence) leaves at
    most one candidate, the model takes the first in table order. *)
Definition get_current_step (self : Approval) (db : DB)
    : option ApprovalWorkflowStep :=
  match workflow self, current_step_sequence self with
  | Some w, Some c =>
      if c =? 0 then None
      else head (filter (fun s => step_workflow (Core.fields s) = w
                                  /\ step_seq s = c) (steps db))
  | _, _ => None
  end.

Definition get_pending_approvers (self : Approval) (db : DB) : list User :=
  match get_current_step self db with
  | None => []
  | Some current_step => get_approvers current_step db
  end.

(** [Approval.save()]: UPDATE of the row with this primary key, INSERT when
    there is none. *)
Definition Approval_save (now : Time) (self : Approval) : M DB Approval :=
  fun db =>
    let adding := bool_decide (approvals db !! ap_id self = None) in
    let self := set_auto_timestamps adding now self in
    (Ok self, with_approvals (<[ap_id self := self]> (approvals db)) db).

Definition advance_to_next_step (now : Time) (self : Approval)
    : M DB (bool * Approval) :=
  match workflow self with
  | None => mret (false, self)
  | Some w =>
      fun db =>
        let steps := get_steps w db in
        match current_step_sequence self with
        | None =>
            (* start at first step *)
            match head steps with
            | Some first_step =>
                let self := set_current_step_sequence
                              (Some (step_seq first_step)) self in
                let self := set_status "IN_PROGRESS" self in
                (self ← Approval_save now self; mret (true, self)) db
            | None => (Ok (false, self), db)
            end
        | Some current =>
            (* find next step *)
            match head (filter (fun s => current < step_seq s) steps) with
            | Some next_step =>
                let self := set_current_step_sequence
                              (Some (step_seq next_step)) self in
                (self ← Approval_save now self; mret (true, self)) db
            | None =>
                (* no more steps: approval complete *)
                let self := set_status "APPROVED" self in
                let self := set_completed_at (Some now) self in
                (self ← Approval_save now self; mret (false, self)) db
            end
        end
  end.

(** *** ApprovalHistory *)

(** The keyword arguments of [ApprovalHistory.objects.create]; an argument
    that is not passed, or is None, is [None] here. *)
Record HistoryKwargs : Type := mkHistoryKwargs {
  kw_approval : UUID;
  kw_step_sequence : option Z;
  kw_approver_role : option UUID;
  kw_approver_user : option UUID;
  kw_action : string;
  kw_comments : option string;
  kw_ip_address : option string
}.

(** [ApprovalHistory.objects.create]: the INSERT is refused when a column
    declared without [null=True] ([step_sequence], [approver_user]) is NULL,
    or when the primary key is taken. *)
Definition ApprovalHistory_objects_create (now : Time) (new_id : UUID)
    (kw : HistoryKwargs) : M DB ApprovalHistory :=
  fun db =>
    match kw_step_sequence kw, kw_approver_user kw with
    | Some seq, Some user =>
        if bool_decide (new_id ∈ map h_id (history db))
        then (Raise IntegrityError, db)
        else
          let row := mkApprovalHistory new_id (kw_approval kw) seq
                       (kw_approver_role kw) user (kw_action kw) now None
                       (kw_comments kw) (kw_ip_address kw) now in
          (Ok row, with_history (history db ++ [row]) db)
    | _, _ => (Raise IntegrityError, db)
    end.

Definition reject (now : Time) (new_id : UUID) (self : Approval)
    (user : UUID) (comments : option string) : M DB Approval :=
  let self := set_status "REJECTED" self in
  let self := set_completed_at (Some now) self in
  self ← Approval_save now self;
  (* create history entry *)
  _ ← ApprovalHistory_objects_create now new_id
        (mkHistoryKwargs (ap_id self) (current_step_sequence self) None
                         (Some user) "REJECTED" comments None);
  mret self.


Definition action_date_ge (a b : ApprovalHistory) : Prop :=
  action_date b <= action_date a.

#[global] Instance action_date_ge_dec : RelDecision action_date_ge.
Proof. intros a b. unfold action_date_ge. apply _. Defined.

(** [self.history.filter(step_sequence=self.current_step_sequence)
         .order_by('-action_date')] *)
Definition step_history (self : Approval) (db : DB) : list ApprovalHistory :=
  merge_sort action_date_ge
    (filter (fun h => h_approval h = ap_id self
                      /\ Some (h_step_sequence h) = current_step_sequence self)
            (history db)).

Definition check_timeout (now : Time) (self : Approval) (db : DB)
    : result bool :=
  match get_current_step self db with
  | None => Ok false
  | Some current_step =>
      match timeout_hours (Core.fields current_step) with
      | None => Ok false
      | Some hours =>
          if hours =? 0 then Ok false
          else
            (* get last action time *)
            let last_action := head (step_history self db) in
            let reference_time :=
              match last_action with
              | Some a => action_date a
              | None => requested_at self
              end in
            match timedelta_hours hours with
            | Raise e => Raise e
            | Ok delta =>
                match datetime_add reference_time delta with
                | Raise e => Raise e
                | Ok timeout_time => Ok (timeout_time <? now)
                end
            end
      end
  end.

(** The keyword arguments [escalate] passes to the history table. *)
Definition escalate_kwargs (self : Approval) (role_name : string)
    : HistoryKwargs :=
  mkHistoryKwargs (ap_id self) (current_step_sequence self) None None
    "ESCALATED"
    (Some ("Escalated to " +:+ role_name +:+ " due to timeout")) None.

Definition escalate (now : Time) (new_id : UUID) (self : Approval)
    : M DB (bool * Approval) :=
  fun db =>
    match get_current_step self db with
    | None => (Ok (false, self), db)
    | Some current_step =>
        match escalation_role (Core.fields current_step) with
        | None => (Ok (false, self), db)
        | Some role =>
            (* the foreign key is followed to the Role row *)
            match roles db !! role with
            | None => (Raise ObjectDoesNotExist, db)
            | Some role_name =>
                let self := set_status "ESCALATED" self in
                (self ← Approval_save now self;
                 (* create history entry *)
                 _ ← ApprovalHistory_objects_create now new_id
                       (escalate_kwargs self role_name);
                 mret (true, self)) db
            end
        end
    end.

(** *** Helper functions *)

Definition workflow_name_le (a b : ApprovalWorkflow) : Prop :=
  String.leb (workflow_name (Core.fields a)) (workflow_name (Core.fields b))
  = true.

#[global] Instance workflow_name_le_dec : RelDecision workflow_name_le.
Proof. intros a b. unfold workflow_name_le. apply _. Defined.

(** [Approval.objects.create]: [requested_by] is declared without
    [null=True]; the primary key is the [uuid4()] drawn for the instance. *)
Definition Approval_objects_create (now : Time) (new_id : UUID)
    (entity_type : string) (entity_id : UUID) (entity_number : option string)
    (workflow : UUID) (requested_by : option UUID) (remarks : option string)
    (metadata : option Decimal.t) (status : string) : M DB Approval :=
  fun db =>
    match requested_by with
    | None => (Raise IntegrityError, db)
    | Some requester =>
        match approvals db !! new_id with
        | Some _ => (Raise IntegrityError, db)
        | None =>
            let obj := mkApproval new_id entity_type entity_id entity_number
                         (Some workflow) None requester now status None
                         remarks metadata now now in
            (Ok obj, with_approvals (<[new_id := obj]> (approvals db)) db)
        end
    end.

Definition value_truthy (value : option Decimal.t) : bool :=
  match value with
  | Some v => Decimal.truthy v
  | None => false
  end.

Definition create_approval (now : Time) (new_id : UUID)
    (entity_type : string) (entity_id : UUID) (entity_number : option string)
    (requested_by : option UUID) (value : option Decimal.t)
    (remarks : option string) : M DB Approval :=
  fun db =>
    (* find applicable workflow; the queryset comes in the Meta ordering *)
    let workflows :=
      merge_sort workflow_name_le
        (filter (fun w => wf_entity_type (Core.fields w) = entity_type
                          /\ wf_is_active (Core.fields w) = true
                          /\ Core.deleted_at w = None) (workflows db)) in
    (* filter by value if provided *)
    let workflows :=
      match value with
      | Some v =>
          if Decimal.truthy v
          then filter (fun w => applies_to_value w v = true) workflows
          else workflows
      | None => workflows
      end in
    (* get default workflow or first match *)
    let workflow :=
      match List.find (fun w => is_default (Core.fields w)) workflows with
      | Some w => Some w
      | None => head workflows
      end in
    match workflow with
    | None =>
        (Raise (ValidationError ("No active workflow found for "
                                 +:+ entity_type)), db)
    | Some w =>
        (approval ← Approval_objects_create now new_id entity_type entity_id
                      entity_number (Core.id w) requested_by remarks
                      (if value_truthy value then value else None) "PENDING";
         (* advance to first step *)
         '(_, approval) ← advance_to_next_step now approval;
         mret approval) db
    end.

Definition approve_step (now : Time) (new_id : UUID) (approval : Approval)
    (user : UUID) (comments : option string) (ip_address : option string)
    : M DB (bool * Approval) :=
  fun db =>
    match get_current_step approval db with
    | None => (Raise (ValidationError "No current step to approve"), db)
    | Some current_step =>
        (* check if user can approve this step *)
        if negb (user_in user (get_approvers current_step db))
        then (Raise (ValidationError
                       "User is not authorized to approve this step"), db)
        else
          ((* create history entry *)
           _ ← ApprovalHistory_objects_create now new_id
                 (mkHistoryKwargs (ap_id approval)
                    (current_step_sequence approval)
                    (approver_role (Core.fields current_step))
                    (Some user) "APPROVED" comments ip_address);
           (* advance to next step *)
           '(advanced, approval) ← advance_to_next_step now approval;
           let workflow_complete := negb advanced in
           mret (workflow_complete, approval)) db
    end.

(** *** approvals/signals.py *)

(** The [post_save] receiver for [PurchaseRequest]. *)
Definition auto_create_pr_approval (now : Time) (new_id : UUID)
    (instance : Procurement.PurchaseRequest) : M DB unit :=
  fun db =>
    if decide (Procurement.status (Core.fields instance) = "SUBMITTED")
    then
      (* check if approval already exists *)
      if bool_decide
           (Exists (fun a => entity_type a = "PR"
                             /\ entity_id a = Core.id instance)
                   (map snd (map_to_list (approvals db))))
      then (Ok tt, db)
      else
        try_except_pass
          (create_approval now new_id "PR" (Core.id instance)
             (Some (Procurement.pr_number (Core.fields instance)))
             (Some (Procurement.requester (Core.fields instance)))
             (Procurement.total_estimated_value (Core.fields instance))
             (Procurement.justification (Core.fields instance))) db
    else (Ok tt, db).

End Approvals.

(** ** assets/models.py *)
Module Assets.

(** The columns of [Asset] that depreciation reads and writes. *)
Record Asset : Type := mkAsset {
  asset_tag : string;
  serial_no : string;
  purchase_date : option Date.t;
  purchase_price : option Decimal.t;
  depreciation_method : string;
  useful_life_years : option Z;
  salvage_value : option Decimal.t;
  current_book_value : option Decimal.t;
  accumulated_depreciation : Decimal.t
}.

Definition set_accumulated_depreciation (d : Decimal.t) (a : Asset) : Asset :=
  mkAsset (asset_tag a) (serial_no a) (purchase_date a) (purchase_price a)
    (depreciation_method a) (useful_life_years a) (salvage_value a)
    (current_book_value a) d.

Definition set_current_book_value (v : option Decimal.t) (a : Asset) : Asset :=
  mkAsset (asset_tag a) (serial_no a) (purchase_date a) (purchase_price a)
    (depreciation_method a) (useful_life_years a) (salvage_value a)
    v (accumulated_depreciation a).

(** [Decimal('365.25')].  Of the other conversions in the method,
    [Decimal(str(n))] of an integer is [Decimal.of_int n] and
    [Decimal(str(x))] of a Decimal [x] is [x] itself. *)
Definition days_per_year : Decimal.t := Decimal.mk 36525 (-2).

Definition lift_div (q : option Decimal.t) : result Decimal.t :=
  match q with
  | Some d => Ok d
  | None => Raise DivisionByZero
  end.

(** [_calculate_years_since_purchase]; [today] is [timezone.now().date()]. *)
Definition _calculate_years_since_purchase (today : Date.t) (self : Asset)
    : result Decimal.t :=
  match purchase_date self with
  | None => Ok Decimal.zero
  | Some d =>
      lift_div (Decimal.div (Decimal.of_int (Date.days_between today d))
                            days_per_year)
  end.

(** A [for _ in range(n)] loop whose body may [break]. *)
Inductive loop_step (A : Type) : Type :=
| Continue (a : A)
| Break (a : A).
Arguments Continue {A} a.
Arguments Break {A} a.

Fixpoint for_range {A : Type} (n : nat) (body : A -> loop_step A) (a : A) : A :=
  match n with
  | O => a
  | S k =>
      match body a with
      | Continue a' => for_range k body a'
      | Break a' => a'
      end
  end.

(** The body of the declining-balance loop, on [remaining_value]. *)
Definition declining_body (rate salvage remaining_value : Decimal.t)
    : loop_step Decimal.t :=
  let depreciation := Decimal.mul remaining_value rate in
  let remaining_value := Decimal.sub remaining_value depreciation in
  if Decimal.ltb remaining_value salvage
  then Break salvage
  else Continue remaining_value.

(** [self.salvage_value or Decimal('0')] *)
Definition salvage_or_zero (self : Asset) : Decimal.t :=
  match salvage_value self with
  | Some s => if Decimal.truthy s then s else Decimal.zero
  | None => Decimal.zero
  end.

Definition calculate_depreciation (today : Date.t) (self : Asset)
    : result Asset :=
  match purchase_date self, purchase_price self, useful_life_years self with
  | Some _, Some cost, Some life =>
      if negb (Decimal.truthy cost) || (life =? 0) then Ok self
      else
        let salvage := salvage_or_zero self in
        match _calculate_years_since_purchase today self with
        | Raise e => Raise e
        | Ok years_passed =>
            let accumulated : result Decimal.t :=
              if decide (depreciation_method self = "STRAIGHT_LINE") then
                match lift_div (Decimal.div (Decimal.sub cost salvage)
                                            (Decimal.of_int life)) with
                | Raise e => Raise e
                | Ok annual_depreciation =>
                    Ok (Decimal.pymin
                          (Decimal.mul annual_depreciation years_passed)
                          (Decimal.sub cost salvage))
                end
              else if decide (depreciation_method self = "DECLINING_BALANCE")
              then
                match lift_div (Decimal.div (Decimal.of_int 2)
                                            (Decimal.of_int life)) with
                | Raise e => Raise e
                | Ok rate =>
                    let remaining_value :=
                      for_range (Z.to_nat (Decimal.to_int years_passed))
                                (declining_body rate salvage) cost in
                    Ok (Decimal.sub cost remaining_value)
                end
              else Ok (accumulated_depreciation self) in
            match accumulated with
            | Raise e => Raise e
            | Ok acc =>
                let self := set_accumulated_depreciation acc self in
                Ok (set_current_book_value
                      (Some (Decimal.pymax (Decimal.sub cost acc) salvage))
                      self)
            end
        end
  | _, _, _ => Ok self
  end.

End Assets.

(** ** Specification vocabulary *)
Module Spec.
Import Approvals.

(** The sequence numbers of the non-deleted steps of workflow [w]. *)
Definition live_sequences (w : UUID) (db : DB) : list Z :=
  map step_seq
      (filter (fun s => step_workflow (Core.fields s) = w
                        /\ Core.deleted_at s = None) (steps db)).

Definition smallest (s : Z) (l : list Z) : Prop :=
  s ∈ l /\ forall t, t ∈ l -> s <= t.

(** What [Approval.save()] leaves behind: the instance with its automatic
    timestamps, and the database holding it under its primary key. *)
Definition saved (now : Time) (self : Approval) (db : DB) : Approval * DB :=
  let a := set_auto_timestamps
             (bool_decide (approvals db !! ap_id self = None)) now self in
  (a, with_approvals (<[ap_id self := a]> (approvals db)) db).

(** The outcome "returned [b] after saving [self]". *)
Definition returns_saved (now : Time) (b : bool) (self : Approval) (db : DB)
    : result (bool * Approval) * DB :=
  (Ok (b, fst (saved now self db)), snd (saved now self db)).

(** The columns that [advance_to_next_step] never assigns. *)
Definition same_request (a b : Approval) : Prop :=
  ap_id a = ap_id b /\ entity_type a = entity_type b
  /\ entity_id a = entity_id b /\ entity_number a = entity_number b
  /\ workflow a = workflow b /\ requested_by a = requested_by b
  /\ remarks a = remarks b /\ metadata a = metadata b.

(** [advance_to_next_step] returned [b] after saving the approval as [a']:
    the row of the approval is [a'], with [updated_at] at the time of the
    save and, for a row that existed, the [requested_at] and [created_at] it
    had; every other row and table is as before. *)
Definition advanced (now : Time) (self : Approval) (db : DB) (b : bool)
    (a' : Approval) (db' : DB) : Prop :=
  advance_to_next_step now self db = (Ok (b, a'), db')
  /\ same_request a' self
  /\ ap_updated_at a' = now
  /\ (approvals db !! ap_id self <> None ->
      requested_at a' = requested_at self
      /\ ap_created_at a' = ap_created_at self)
  /\ approvals db' !! ap_id self = Some a'
  /\ (forall k, k <> ap_id self -> approvals db' !! k = approvals db !! k)
  /\ workflows db' = workflows db /\ steps db' = steps db
  /\ users db' = users db /\ user_roles db' = user_roles db
  /\ roles db' = roles db /\ history db' = history db.

(** The audit entries of [self] written at its current step. *)
Definition step_entries (self : Approval) (db : DB) : list ApprovalHistory :=
  filter (fun h => h_approval h = ap_id self
                   /\ Some (h_step_sequence h) = current_step_sequence self)
         (history db).

(** [t] is the reference time of the timeout: the action date of the most
    recent entry at the current step, or [requested_at] without one. *)
Definition reference_time (self : Approval) (db : DB) (t : Time) : Prop :=
  (step_entries self db = [] /\ t = requested_at self)
  \/ (exists e, e ∈ step_entries self db /\ action_date e = t
                /\ forall e', e' ∈ step_entries self db -> action_date e' <= t).








(** Membership in the approver set as stated: the specific approver_user
    when set, otherwise the active users holding approver_role. *)
Definition stated_approver (user : UUID) (step : ApprovalWorkflowStep)
    (db : DB) : Prop :=
  match approver_user (Core.fields step) with
  | Some u => user = u
  | None =>
      match approver_role (Core.fields step) with
      | Some r =>
          exists x, x ∈ users db /\ user_id x = user
                    /\ user_is_active x = true
                    /\ exists ur, ur ∈ user_roles db
                                  /\ ur_user ur = user_id x
                                  /\ ur_role ur = r
      | None => False
      end
  end.

(** The Approval rows that reference purchase request [pr]. *)
Definition pr_approvals (pr : UUID) (db : DB) : list Approval :=
  filter (fun a => entity_type a = "PR" /\ entity_id a = pr)
         (map snd (map_to_list (approvals db))).

(** A run of [post_save] signals for purchase requests: each save comes
    with the clock reading, the uuid an Approval would get, and the instance
    as saved. *)
Definition pr_saves (events : list (Time * UUID * Procurement.PurchaseRequest))
    (db : DB) : DB :=
  fold_left (fun db ev =>
               snd (auto_create_pr_approval (fst (fst ev)) (snd (fst ev))
                                            (snd ev) db))
            events db.

Definition same_entity (a b : Approval) : Prop :=
  ap_id a = ap_id b /\ entity_type a = entity_type b
  /\ entity_id a = entity_id b.

(** What a call may have done to the Approval table: nothing, or put one
    row for the entity under a key that was free. *)
Definition put_one (et : string) (eid new_id : UUID) (db db' : DB) : Prop :=
  db' = db
  \/ (approvals db !! new_id = None
      /\ exists o, entity_type o = et /\ entity_id o = eid
                   /\ db' = with_approvals (<[new_id := o]> (approvals db)) db).

End Spec.

(** ** Specification vocabulary: soft delete *)
Module SoftDelete.
Import Core.

(** Two instances agree on every base column but the soft-delete pair. *)
Definition same_base_columns {F : Type} (a b : BaseModel F) : Prop :=
  id a = id b /\ created_at a = created_at b /\ updated_at a = updated_at b
  /\ created_by a = created_by b /\ updated_by a = updated_by b.

(** Two rows agree on every column but the soft-delete pair. *)
Definition same_but_deleted {F : Type} (a b : BaseModel F) : Prop :=
  same_base_columns a b /\ fields a = fields b.

(** A model that does not override [save]. *)
Definition no_override {F : Type} (_ : Table F) (m : BaseModel F) : result F :=
  Ok (fields m).

End SoftDelete.

(** ** Specification vocabulary: stock movements *)
Module Reversal.
Import Procurement.

(** Two rows agree on every column but the three reversal columns. *)
Definition same_but_reversal (a b : StockMovement) : Prop :=
  sm_id a = sm_id b /\ item a = item b
  /\ from_location a = from_location b /\ to_location a = to_location b
  /\ movement_type a = movement_type b
  /\ reference_type a = reference_type b
  /\ reference_id a = reference_id b
  /\ reference_number a = reference_number b
  /\ batch a = batch b /\ serial_no a = serial_no b
  /\ quantity a = quantity b /\ uom a = uom b
  /\ unit_cost a = unit_cost b /\ total_value a = total_value b
  /\ fiscal_year a = fiscal_year b /\ fiscal_month a = fiscal_month b
  /\ transaction_date a = transaction_date b
  /\ transaction_time a = transaction_time b
  /\ created_by a = created_by b
  /\ sm_approved_by a = sm_approved_by b
  /\ sm_approved_at a = sm_approved_at b
  /\ reason_code a = reason_code b /\ remarks a = remarks b
  /\ created_at a = created_at b.

(** [r] mirrors [m]: locations swapped, the movement itself the same. *)
Definition mirrors (r m : StockMovement) : Prop :=
  from_location r = to_location m /\ to_location r = from_location m
  /\ item r = item m /\ movement_type r = movement_type m
  /\ quantity r = quantity m /\ uom r = uom m
  /\ unit_cost r = unit_cost m /\ batch r = batch m
  /\ serial_no r = serial_no m.

End Reversal.

(** ** Specification vocabulary: depreciation and valuation *)
Module Valuation.
Import Assets Procurement.



(** The columns that [calculate_depreciation] never assigns. *)
Definition same_purchase (a b : Asset) : Prop :=
  asset_tag a = asset_tag b /\ Assets.serial_no a = Assets.serial_no b
  /\ purchase_date a = purchase_date b /\ purchase_price a = purchase_price b
  /\ depreciation_method a = depreciation_method b
  /\ useful_life_years a = useful_life_years b
  /\ salvage_value a = salvage_value b.

(** [calculate_depreciation] returns, and leaves [acc] as the accumulated
    depreciation and [book] as the current book value of the asset. *)
Definition depreciated (today : Date.t) (self : Asset)
    (acc book : Decimal.t) : Prop :=
  exists a',
    calculate_depreciation today self = Ok a'
    /\ accumulated_depreciation a' = acc
    /\ current_book_value a' = Some book
    /\ same_purchase a' self.



(** One year of declining balance: the remaining value less [rate] times
    itself, that is, the remaining value times (1 - rate). *)
Definition year_step (rate remaining : Decimal.t) : Decimal.t :=
  Decimal.sub remaining (Decimal.mul remaining rate).





(** A stored quantity or amount: [places] decimal places and at most 15
    digits, as [DecimalField(max_digits=15, decimal_places=places)] reads it
    back from the database. *)
Definition stored_decimal (places : Z) (d : Decimal.t) : Prop :=
  Decimal.expo d = - places /\ Z.abs (Decimal.coef d) < 10 ^ 15.

Definition stored_batch (b : StockBatch) : Prop :=
  stored_decimal 3 (qty_on_hand b) /\ stored_decimal 2 (sb_total_value b).

(** The exact sum of stored decimals with [places] decimal places. *)
Definition exact_sum (places : Z) (l : list Decimal.t) : Decimal.t :=
  match l with
  | [] => Decimal.zero
  | _ => Decimal.mk (foldr Z.add 0 (map Decimal.coef l)) (- places)
  end.

End Valuation.

(** ** Sample data *)
Module Examples.
Import Approvals.

Definition wf1 : UUID := "wf-1".

Definition workflow1 : ApprovalWorkflow :=
  Core.mkBase wf1 0 0 None None None None
    (mkWorkflowFields "Standard PR Approval" "PR" None None true true
                      None None).

Definition mk_step (id : UUID) (seq : Z) (role user : option UUID)
    (timeout : option Z) (escalation : option UUID) (deleted : option Time)
    : ApprovalWorkflowStep :=
  Core.mkBase id 0 0 None None deleted None
    (mkStepFields wf1 seq "Approval" role user false None true true
                  timeout escalation).

(** Step 1: any manager, 24 hours, escalates to the directors.
    Step 2: Bob in person, 48 hours.
    Step 3: soft-deleted. *)
Definition step1 : ApprovalWorkflowStep :=
  mk_step "step-1" 1 (Some "role-manager") None (Some 24)
          (Some "role-director") None.
Definition step2 : ApprovalWorkflowStep :=
  mk_step "step-2" 2 None (Some "u-bob") (Some 48) None None.
Definition step3 : ApprovalWorkflowStep :=
  mk_step "step-3" 3 (Some "role-manager") None None None (Some 50).

Definition mk_approval (id : UUID) (current : option Z) (st : string)
    : Approval :=
  mkApproval id "PR" "pr-1" (Some "PR-2025-0001") (Some wf1) current
             "u-carol" 0 st None None None 0 0.

Definition approval_new : Approval := mk_approval "ap-1" None "PENDING".
Definition approval_at_1 : Approval := mk_approval "ap-1" (Some 1) "IN_PROGRESS".
Definition approval_at_2 : Approval := mk_approval "ap-1" (Some 2) "IN_PROGRESS".

Definition db_with (a : Approval) : DB :=
  mkDB [workflow1] [step3; step2; step1]
       [mkUser "u-alice" "alice" true; mkUser "u-bob" "bob" true;
        mkUser "u-carol" "carol" true]
       [mkUserRole "u-alice" "role-manager"]
       (<["role-manager" := "Manager"]> (<["role-director" := "Director"]> ∅))
       (<[ap_id a := a]> ∅)
       [].

Definition purchase_request (st : string) : Procurement.PurchaseRequest :=
  Core.mkBase "pr-1" 0 0 None None None None
    (Procurement.mkPurchaseRequestFields "PR-2025-0001" "u-carol" None "f-1"
       "EXTERNAL" (Date.mk 2025 3 1) None "NORMAL" st None
       (Some (Decimal.mk 1250000 (-2))) None None None None).


(** A database with the workflow and no approval yet. *)
Definition db_empty : DB :=
  mkDB [workflow1] [step3; step2; step1]
       [mkUser "u-alice" "alice" true; mkUser "u-bob" "bob" true;
        mkUser "u-carol" "carol" true]
       [mkUserRole "u-alice" "role-manager"]
       (<["role-manager" := "Manager"]> (<["role-director" := "Director"]> ∅))
       ∅ [].

(** 24 hours and one microsecond. *)
Definition a_day_later : Time := 86400000001.




(** Assets bought on 2020-01-01 with five years of useful life: for
    10000.00 with a salvage value of 1000.00, and received free of charge
    (price 0.00, no salvage value). *)
Definition mk_asset (price : Decimal.t) (salvage : option Decimal.t)
    (method : string) : Assets.Asset :=
  Assets.mkAsset "AST-2020-00001" "SN-0001" (Some (Date.mk 2020 1 1))
    (Some price) method (Some 5) salvage None Decimal.zero.

Definition asset_straight_line : Assets.Asset :=
  mk_asset (Decimal.mk 1000000 (-2)) (Some (Decimal.mk 100000 (-2)))
           "STRAIGHT_LINE".
Definition asset_declining : Assets.Asset :=
  mk_asset (Decimal.mk 1000000 (-2)) (Some (Decimal.mk 100000 (-2)))
           "DECLINING_BALANCE".

Definition today : Date.t := Date.mk 2023 1 1.

(** Three batches of one item, entered newest first. *)
Definition mk_batch (id : UUID) (loc : UUID) (qty value : Z) (st : string)
    (created : Time) : Procurement.StockBatch :=
  Procurement.mkStockBatch id "item-1" id None loc None None None
    (Decimal.mk qty (-3)) (Decimal.mk qty (-3)) (Decimal.mk 0 (-3)) None
    "uom-kg" (Decimal.mk 250 (-2)) (Decimal.mk value (-2)) st created created.

Definition batches : list Procurement.StockBatch :=
  [mk_batch "b-3" "loc-A" 1500 375 "ACTIVE" 30;
   mk_batch "b-2" "loc-B" 4000 1000 "ACTIVE" 20;
   mk_batch "b-1" "loc-A" 2500 625 "ACTIVE" 10;
   mk_batch "b-0" "loc-A" 9000 2250 "EXPIRED" 5].

(** A purchase receipt of 12.500 kg at 2.50, stored. *)
Definition movement : Procurement.StockMovement :=
  Procurement.mkStockMovement "m-1" "item-1" None (Some "loc-A")
    "PURCHASE_IN" (Some "GRN") (Some "grn-1") (Some "GRN-2025-0001")
    (Some "b-1") None (Decimal.mk 12500 (-3)) "uom-kg"
    (Some (Decimal.mk 250 (-2))) (Some (Decimal.mk 3125 (-2)))
    (Some 2025) (Some 3) (Date.mk 2025 3 1) 100 "u-alice" None None None
    None false None None 100.

Definition movements : gmap UUID Procurement.StockMovement :=
  <["m-1" := movement]> ∅.

(** A company row (its own columns reduced to the name). *)
Definition company : Core.BaseModel string :=
  Core.mkBase "c-1" 5 5 (Some "u-alice") None None None "PDL Group".

Definition companies : gmap UUID (Core.BaseModel string) :=
  <["c-1" := company]> ∅.

End Examples.

(** ** approvals/models.py: validation of workflows and steps *)
Module Workflows.
Import Approvals.

Definition ENTITY_TYPES : list (string * string) :=
  [("PR", "Purchase Request"); ("PO", "Purchase Order");
   ("GRN", "Goods Received Note"); ("ADJUSTMENT", "Inventory Adjustment");
   ("TRANSFER", "Stock Transfer"); ("ISSUE", "Stock Issue");
   ("ASSET_ASSIGNMENT", "Asset Assignment");
   ("MAINTENANCE", "Maintenance Request")].

(** [get_entity_type_display]: the label of the stored choice, the stored
    value itself when it is not one of the choices. *)
Definition get_entity_type_display (self : ApprovalWorkflow) : string :=
  let code := wf_entity_type (Core.fields self) in
  match List.find (fun p => String.eqb (fst p) code) ENTITY_TYPES with
  | Some p => snd p
  | None => code
  end.

(** [ApprovalWorkflow.clean] *)
Definition ApprovalWorkflow_clean (self : ApprovalWorkflow) (db : DB)
    : result unit :=
  (* validate min/max value *)
  if match min_value (Core.fields self), max_value (Core.fields self) with
     | Some mn, Some mx =>
         Decimal.truthy mn && Decimal.truthy mx && Decimal.ltb mx mn
     | _, _ => false
     end
  then Raise (ValidationError
                "Minimum value cannot be greater than maximum value.")
  else
    (* ensure only one default workflow per entity type *)
    if is_default (Core.fields self)
    then
      let existing_default :=
        filter (fun w =>
                  wf_entity_type (Core.fields w)
                  = wf_entity_type (Core.fields self)
                  /\ wf_factory (Core.fields w) = wf_factory (Core.fields self)
                  /\ is_default (Core.fields w) = true
                  /\ Core.id w <> Core.id self) (workflows db) in
      match existing_default with
      | _ :: _ =>
          Raise (ValidationError ("A default workflow already exists for "
                                  +:+ get_entity_type_display self))
      | [] => Ok tt
      end
    else Ok tt.

Definition with_workflows (l : list ApprovalWorkflow) (db : DB) : DB :=
  mkDB l (steps db) (users db) (user_roles db) (roles db) (approvals db)
       (history db).

(** The automatic timestamps of the base model. *)
Definition set_base_timestamps {F : Type} (adding : bool) (now : Time)
    (m : Core.BaseModel F) : Core.BaseModel F :=
  Core.mkBase (Core.id m) (if adding then now else Core.created_at m) now
    (Core.created_by m) (Core.updated_by m) (Core.deleted_at m)
    (Core.deleted_by m) (Core.fields m).

(** [save()] of a workflow (the model does not override it): UPDATE of the
    row with this primary key, INSERT when there is none. *)
Definition ApprovalWorkflow_save (now : Time) (self : ApprovalWorkflow)
    : M DB ApprovalWorkflow :=
  fun db =>
    let adding := bool_decide (Core.id self ∉ map Core.id (workflows db)) in
    let self := set_base_timestamps adding now self in
    (Ok self,
     with_workflows
       (if adding then workflows db ++ [self]
        else map (fun w => if decide (Core.id w = Core.id self) then self
                           else w) (workflows db)) db).

(** [ApprovalWorkflowStep.clean] *)
Definition ApprovalWorkflowStep_clean (self : ApprovalWorkflowStep)
    : result unit :=
  (* must have either role or user *)
  if negb (bool_decide (is_Some (approver_role (Core.fields self))))
     && negb (bool_decide (is_Some (approver_user (Core.fields self))))
  then Raise (ValidationError
                "Step must have either approver_role or approver_user.")
  else
    (* parallel group only valid if is_parallel *)
    if match parallel_group (Core.fields self) with
       | Some g => negb (g =? 0)
       | None => false
       end && negb (is_parallel (Core.fields self))
    then Raise (ValidationError
                  "Parallel group can only be set for parallel steps.")
    else Ok tt.

End Workflows.

(** ** Specification vocabulary: workflow selection and validation *)
Module Selection.
Import Approvals.

(** The value filter of [create_approval]: it is applied for a value that
    is neither None nor zero. *)
Definition fits (value : option Decimal.t) (w : ApprovalWorkflow) : Prop :=
  match value with
  | Some v => if Decimal.truthy v then applies_to_value w v = true else True
  | None => True
  end.

#[global] Instance fits_dec value w : Decision (fits value w).
Proof.
  unfold fits. destruct value as [v|]; [|apply _].
  destruct (Decimal.truthy v); apply _.
Defined.

(** The workflows [create_approval] chooses from. *)
Definition applicable (et : string) (value : option Decimal.t)
    (w : ApprovalWorkflow) : Prop :=
  wf_entity_type (Core.fields w) = et
  /\ wf_is_active (Core.fields w) = true
  /\ Core.deleted_at w = None
  /\ fits value w.

(** At most one default workflow for an entity type and a factory. *)
Definition one_default_per_scope (db : DB) : Prop :=
  forall w1 w2,
    w1 ∈ workflows db -> w2 ∈ workflows db ->
    is_default (Core.fields w1) = true ->
    is_default (Core.fields w2) = true ->
    wf_entity_type (Core.fields w1) = wf_entity_type (Core.fields w2) ->
    wf_factory (Core.fields w1) = wf_factory (Core.fields w2) ->
    Core.id w1 = Core.id w2.

(** [w] is the workflow [create_approval] settles on: an applicable one,
    a default one when an applicable default exists, and the first by name
    among the applicable workflows of its kind. *)
Definition chosen (et : string) (value : option Decimal.t) (db : DB)
    (w : ApprovalWorkflow) : Prop :=
  w ∈ workflows db /\ applicable et value w
  /\ forall c, c ∈ workflows db -> applicable et value c ->
       (is_default (Core.fields c) = true ->
        is_default (Core.fields w) = true)
       /\ (is_default (Core.fields c) = is_default (Core.fields w) ->
           workflow_name_le w c).

(** What [create_approval] does once the workflow is chosen. *)
Definition create_with (now : Time) (new_id : UUID) (entity_type : string)
    (entity_id : UUID) (entity_number : option string)
    (requested_by : option UUID) (value : option Decimal.t)
    (remarks : option string) (w : ApprovalWorkflow) : M DB Approval :=
  approval ← Approval_objects_create now new_id entity_type entity_id
               entity_number (Core.id w) requested_by remarks
               (if value_truthy value then value else None) "PENDING";
  '(_, approval) ← advance_to_next_step now approval;
  mret approval.

End Selection.

(** ** Sample data: workflows *)
Module WorkflowExamples.
Import Approvals Examples.

(** A second workflow for purchase requests, up to 50,000.00 and not the
    default, and the workflow table with both. *)
Definition workflow_small : ApprovalWorkflow :=
  Core.mkBase "wf-2" 0 0 None None None None
    (mkWorkflowFields "Low Value PR Approval" "PR" None None true false
                      None (Some (Decimal.mk 5000000 (-2)))).

Definition db_two_workflows : DB :=
  Workflows.with_workflows [workflow1; workflow_small] db_empty.

(** The approval of purchase request pr-1 for 12,500.00 as made at time
    1000, and as it is after its first step was approved at time 2000. *)
Definition approval_created : Approval :=
  mkApproval "ap-1" "PR" "pr-1" (Some "PR-2025-0001") (Some wf1) (Some 1)
             "u-carol" 1000 "IN_PROGRESS" None None
             (Some (Decimal.mk 1250000 (-2))) 1000 1000.

Definition approval_moved : Approval :=
  mkApproval "ap-1" "PR" "pr-1" (Some "PR-2025-0001") (Some wf1) (Some 2)
             "u-carol" 0 "IN_PROGRESS" None None None 0 2000.

(** A workflow table whose only step is numbered 0, and the approval made
    from it. *)
Definition db_zero_step : DB :=
  mkDB [workflow1] [mk_step "step-0" 0 (Some "role-manager") None None None None]
       (users db_empty) (user_roles db_empty) (roles db_empty) ∅ [].

Definition approval_at_0 : Approval :=
  mkApproval "ap-1" "PR" "pr-1" (Some "PR-2025-0001") (Some wf1) (Some 0)
             "u-carol" 1000 "IN_PROGRESS" None None
             (Some (Decimal.mk 1250000 (-2))) 1000 1000.

(** Step 2 with a timeout of 24 hours, after step 1. *)
Definition step2_timed : ApprovalWorkflowStep :=
  mk_step "step-2" 2 None (Some "u-bob") (Some 24) None None.

Definition db_timed (a : Approval) : DB :=
  mkDB [workflow1] [step2_timed; step1] (users db_empty)
       (user_roles db_empty) (roles db_empty) (<[ap_id a := a]> ∅) [].

End WorkflowExamples.

(** ** procurement/models.py: current stock from the movement ledger *)
Module Stock.
Import Procurement.

Definition IN_TYPES : list string :=
  ["PURCHASE_IN"; "ADJUSTMENT_IN"; "RETURN_IN"; "PRODUCTION_IN"; "TRANSFER"].

Definition OUT_TYPES : list string :=
  ["ISSUE_OUT"; "ADJUSTMENT_OUT"; "RETURN_OUT"; "SCRAP"; "PRODUCTION_OUT";
   "DAMAGE"; "THEFT"; "TRANSFER"].

(** What a [DecimalField] with [places] decimal places holds for the value
    [d], in units of 10^-places: Django quantizes the value on its way to the
    column (ROUND_HALF_EVEN). *)
Definition quantize (places : Z) (d : Decimal.t) : Z :=
  let s := Decimal.expo d + places in
  if 0 <=? s then Decimal.coef d * 10 ^ s
  else
    let a := Z.abs (Decimal.coef d) in
    let p := 10 ^ (- s) in
    Z.sgn (Decimal.coef d)
    * Decimal.round_half_even (a / p) (a mod p) (5 * 10 ^ (- s - 1)).

(** [aggregate(total=Sum('quantity'))['total']]: the database adds the
    column exactly; over no rows the sum is NULL. *)
Definition Sum_quantity (rows : list StockMovement) : option Decimal.t :=
  match rows with
  | [] => None
  | _ =>
      Some (Decimal.mk (foldr Z.add 0 (map (fun m => quantize 3 (quantity m))
                                           rows)) (-3))
  end.

(** [total or 0] *)
Definition or_zero (total : option Decimal.t) : Decimal.t :=
  match total with
  | Some d => if Decimal.truthy d then d else Decimal.zero
  | None => Decimal.zero
  end.

Definition get_current_stock (item : UUID) (location : option UUID)
    (db : Movements) : Decimal.t :=
  let movements :=
    filter (fun m => Procurement.item m = item /\ is_reversed m = false)
           (map snd (map_to_list db)) in
  let movements :=
    match location with
    | Some l =>
        filter (fun m => from_location m = Some l \/ to_location m = Some l)
               movements
    | None => movements
    end in
  (* IN movements (to_location matches) *)
  let in_qty :=
    or_zero (Sum_quantity
               (filter (fun m => to_location m = location
                                 /\ movement_type m ∈ IN_TYPES) movements)) in
  (* OUT movements (from_location matches) *)
  let out_qty :=
    or_zero (Sum_quantity
               (filter (fun m => from_location m = location
                                 /\ movement_type m ∈ OUT_TYPES) movements)) in
  Decimal.sub in_qty out_qty.

End Stock.

(** ** Specification vocabulary: the stock ledger *)
Module Ledger.
Import Procurement Stock.

(** The movements of [item] that count: those not flagged as reversed. *)
Definition counted (item : UUID) (db : Movements) : list StockMovement :=
  filter (fun m => Procurement.item m = item /\ is_reversed m = false)
         (map snd (map_to_list db)).

(** Thousandths received at, and sent from, [location]. *)
Definition in_total (item : UUID) (location : option UUID) (db : Movements)
    : Z :=
  foldr Z.add 0
    (map (fun m => quantize 3 (quantity m))
         (filter (fun m => to_location m = location
                           /\ movement_type m ∈ IN_TYPES) (counted item db))).

Definition out_total (item : UUID) (location : option UUID) (db : Movements)
    : Z :=
  foldr Z.add 0
    (map (fun m => quantize 3 (quantity m))
         (filter (fun m => from_location m = location
                           /\ movement_type m ∈ OUT_TYPES) (counted item db))).

(** The Decimal for a balance of [i] thousandths in and [o] out. *)
Definition balance (i o : Z) : Decimal.t :=
  if (i =? 0) && (o =? 0) then Decimal.zero else Decimal.mk (i - o) (-3).

(** The reverse movement of [m] is itself counted at [loc]: [m] is of an
    incoming type and left [loc], or of an outgoing type and arrived there. *)
Definition reverse_counts_at (loc : UUID) (m : StockMovement) : Prop :=
  (movement_type m ∈ IN_TYPES /\ from_location m = Some loc)
  \/ (movement_type m ∈ OUT_TYPES /\ to_location m = Some loc).

(** Sample data: a transfer of 5.000 kg from loc-A to loc-B after the
    purchase receipt of 12.500 kg at loc-A. *)
Definition transfer : StockMovement :=
  mkStockMovement "m-2" "item-1" (Some "loc-A") (Some "loc-B")
    "TRANSFER" None None None (Some "b-1") None (Decimal.mk 5000 (-3))
    "uom-kg" (Some (Decimal.mk 250 (-2))) (Some (Decimal.mk 1250 (-2)))
    (Some 2025) (Some 3) (Date.mk 2025 3 2) 200 "u-alice" None None None
    None false None None 200.

Definition ledger : Movements :=
  <["m-2" := transfer]> Examples.movements.

End Ledger.

(** ** core/models.py: the location hierarchy *)
Module Locations.

Record LocationFields : Type := mkLocationFields {
  loc_factory : UUID;
  parent_location : option UUID;
  location_code : string;
  loc_name : string;
  location_type : string;
  path : option string;
  capacity_qty : option Decimal.t;
  capacity_uom : option string;
  depth_level : Z;
  max_depth : Z;
  loc_is_active : bool
}.

Definition Location : Type := Core.BaseModel LocationFields.

Abbreviation LocationTable := (gmap UUID Location).

Definition set_depth_level (d : Z) (l : Location) : Location :=
  let f := Core.fields l in
  Core.set_fields
    (mkLocationFields (loc_factory f) (parent_location f) (location_code f)
       (loc_name f) (location_type f) (path f) (capacity_qty f)
       (capacity_uom f) d (max_depth f) (loc_is_active f)) l.

Definition set_path (p : option string) (l : Location) : Location :=
  let f := Core.fields l in
  Core.set_fields
    (mkLocationFields (loc_factory f) (parent_location f) (location_code f)
       (loc_name f) (location_type f) p (capacity_qty f)
       (capacity_uom f) (depth_level f) (max_depth f) (loc_is_active f)) l.

(** The attribute [parent_location] of an instance: None, or the row the
    foreign key refers to. *)
Definition get_parent_location (db : LocationTable) (l : Location)
    : result (option Location) :=
  match parent_location (Core.fields l) with
  | None => Ok None
  | Some k =>
      match db !! k with
      | Some row => Ok (Some row)
      | None => Raise ObjectDoesNotExist
      end
  end.

(** The loop of [_calculate_depth]; it runs while [depth < 10], and [fuel]
    counts the rounds that are left. *)
Fixpoint calculate_depth_loop (fuel : nat) (db : LocationTable)
    (current : option Location) (visited : gset UUID) (depth : Z)
    : result Z :=
  match current with
  | None => Ok depth
  | Some c =>
      if depth <? 10 then
        match fuel with
        | O => Ok depth
        | S fuel =>
            if bool_decide (Core.id c ∈ visited)
            then Raise (ValidationError
                   "Circular reference detected in location hierarchy.")
            else
              let visited := {[Core.id c]} ∪ visited in
              let depth := depth + 1 in
              match get_parent_location db c with
              | Raise e => Raise e
              | Ok current => calculate_depth_loop fuel db current visited depth
              end
        end
      else Ok depth
  end.

Definition _calculate_depth (self : Location) (db : LocationTable)
    : result Z :=
  match get_parent_location db self with
  | Raise e => Raise e
  | Ok None => Ok 0
  | Ok (Some parent) =>
      calculate_depth_loop 10 db (Some parent) {[Core.id self]} 0
  end.

Definition _generate_path (self : Location) (db : LocationTable)
    : result string :=
  match get_parent_location db self with
  | Raise e => Raise e
  | Ok None => Ok (location_code (Core.fields self))
  | Ok (Some parent) =>
      let parent_path :=
        match path (Core.fields parent) with
        | Some p => if String.eqb p "" then location_code (Core.fields parent)
                    else p
        | None => location_code (Core.fields parent)
        end in
      Ok (parent_path +:+ "/" +:+ location_code (Core.fields self))
  end.

(** [Location.clean]; returns the instance with depth_level and path set. *)
Definition clean (self : Location) (db : LocationTable) : result Location :=
  match get_parent_location db self with
  | Raise e => Raise e
  | Ok parent =>
      (* prevent self-referencing *)
      if match parent with
         | Some p => bool_decide (Core.id p = Core.id self)
         | None => false
         end
      then Raise (ValidationError "Location cannot be its own parent.")
      else
        (* calculate and validate depth *)
        match _calculate_depth self db with
        | Raise e => Raise e
        | Ok d =>
            let self := set_depth_level d self in
            if 5 <? depth_level (Core.fields self)
            then Raise (ValidationError
                          "Location hierarchy cannot exceed 5 levels.")
            else
              (* generate path *)
              match _generate_path self db with
              | Raise e => Raise e
              | Ok p => Ok (set_path (Some p) self)
              end
        end
  end.

(** [get_children] *)
Definition get_children (self : Location) (db : LocationTable)
    : list Location :=
  filter (fun l => parent_location (Core.fields l) = Some (Core.id self)
                   /\ loc_is_active (Core.fields l) = true
                   /\ Core.deleted_at l = None)
         (map snd (map_to_list db)).

(** The loop of [get_full_hierarchy] has no bound of its own: [None] is a
    run that is still going when [fuel] rounds are over. *)
Fixpoint full_hierarchy_loop (fuel : nat) (db : LocationTable)
    (current : option Location) (hierarchy : list Location)
    : option (result (list Location)) :=
  match current with
  | None => Some (Ok hierarchy)
  | Some c =>
      match fuel with
      | O => None
      | S fuel =>
          match get_parent_location db c with
          | Raise e => Some (Raise e)
          | Ok current => full_hierarchy_loop fuel db current (c :: hierarchy)
          end
      end
  end.

Definition get_full_hierarchy (fuel : nat) (self : Location)
    (db : LocationTable) : option (result (list Location)) :=
  match get_parent_location db self with
  | Raise e => Some (Raise e)
  | Ok current => full_hierarchy_loop fuel db current [self]
  end.

End Locations.

(** ** Specification vocabulary: the location hierarchy *)
Module Hierarchy.
Import Locations.

(** [linked db l ps]: [ps] are the locations met from [l] by following
    parent_location, nearest first. *)
Inductive linked (db : LocationTable) : Location -> list Location -> Prop :=
| linked_nil l : linked db l []
| linked_cons l k p ps :
    parent_location (Core.fields l) = Some k ->
    db !! k = Some p ->
    linked db p ps ->
    linked db l (p :: ps).

(** [ancestors db l ps]: [ps] are all the ancestors of [l], up to a
    location without a parent. *)
Definition ancestors (db : LocationTable) (l : Location)
    (ps : list Location) : Prop :=
  linked db l ps /\ parent_location (Core.fields (List.last ps l)) = None.

(** The codes from the root down to [l], joined by slashes. *)
Definition joined_codes (l : Location) (ps : list Location) : string :=
  String.concat "/" (map (fun x => location_code (Core.fields x))
                         (rev ps ++ [l])).

(** Sample data: warehouse WH1 with building B1, floor F2 and room RM05
    below one another; every stored path is up to date. *)
Definition mk_location (id : UUID) (parent : option UUID) (code : string)
    (type : string) (p : option string) (depth : Z) : Location :=
  Core.mkBase id 0 0 None None None None
    (mkLocationFields "f-1" parent code code type p None None depth 5 true).

Definition wh1 : Location :=
  mk_location "l-wh1" None "WH1" "WAREHOUSE" (Some "WH1") 0.
Definition b1 : Location :=
  mk_location "l-b1" (Some "l-wh1") "B1" "BUILDING" (Some "WH1/B1") 1.
Definition f2 : Location :=
  mk_location "l-f2" (Some "l-b1") "F2" "FLOOR" (Some "WH1/B1/F2") 2.
Definition rm05 : Location :=
  mk_location "l-rm05" (Some "l-f2") "RM05" "ROOM" None 0.

Definition site : LocationTable :=
  <["l-wh1" := wh1]> (<["l-b1" := b1]> (<["l-f2" := f2]> ∅)).

(** The warehouse as someone tries to move it below its own floor. *)
Definition wh1_moved : Location :=
  mk_location "l-wh1" (Some "l-f2") "WH1" "WAREHOUSE" (Some "WH1") 0.

(** A table in which two locations are each other's parent. *)
Definition loop_a : Location :=
  mk_location "l-a" (Some "l-b") "A" "ROOM" None 0.
Definition loop_b : Location :=
  mk_location "l-b" (Some "l-a") "B" "ROOM" None 0.
Definition looped : LocationTable :=
  <["l-a" := loop_a]> (<["l-b" := loop_b]> ∅).

End Hierarchy.

(** ** approvals/signals.py: the receivers for goods received notes and
    inventory adjustments; assets/signals.py: the pre-save receiver *)
Module Receivers.
Import Approvals.

(** procurement/models.py: what the receiver reads of a goods received
    note. *)
Record GoodsReceivedNote : Type := mkGoodsReceivedNote {
  grn_id : UUID;
  grn_number : string;
  received_by : UUID;
  grn_total_value : option Decimal.t;
  grn_status : string
}.

(** production/models.py: what the receiver reads of an inventory
    adjustment. *)
Record InventoryAdjustment : Type := mkInventoryAdjustment {
  adj_id : UUID;
  adjustment_number : string;
  adj_reason : string;
  performed_by : UUID;
  adj_status : string;
  total_value_impact : option Decimal.t
}.

(** The builtin [abs] on a Decimal: the sign is dropped and the result is
    rounded to the context precision. *)
Definition decimal_abs (d : Decimal.t) : Decimal.t :=
  Decimal.fix_ (Decimal.mk (Z.abs (Decimal.coef d)) (Decimal.expo d)).

(** [Approval.objects.filter(entity_type=..., entity_id=...).exists()] *)
Definition approval_exists (et : string) (eid : UUID) (db : DB) : bool :=
  bool_decide (Exists (fun a => entity_type a = et /\ entity_id a = eid)
                      (map snd (map_to_list (approvals db)))).

(** The [post_save] receiver for [GoodsReceivedNote]. *)
Definition auto_create_grn_approval (now : Time) (new_id : UUID)
    (instance : GoodsReceivedNote) : M DB unit :=
  fun db =>
    if decide (grn_status instance = "SUBMITTED")
    then
      (* check if approval already exists *)
      if approval_exists "GRN" (grn_id instance) db
      then (Ok tt, db)
      else
        try_except_pass
          (create_approval now new_id "GRN" (grn_id instance)
             (Some (grn_number instance)) (Some (received_by instance))
             (grn_total_value instance) None) db
    else (Ok tt, db).

(** The [post_save] receiver for [InventoryAdjustment]. *)
Definition auto_create_adjustment_approval (now : Time) (new_id : UUID)
    (instance : InventoryAdjustment) : M DB unit :=
  fun db =>
    if decide (adj_status instance = "SUBMITTED")
    then
      if approval_exists "ADJUSTMENT" (adj_id instance) db
      then (Ok tt, db)
      else
        try_except_pass
          (create_approval now new_id "ADJUSTMENT" (adj_id instance)
             (Some (adjustment_number instance))
             (Some (performed_by instance))
             (match total_value_impact instance with
              | Some v => if Decimal.truthy v then Some (decimal_abs v)
                          else None
              | None => None
              end)
             (Some (adj_reason instance))) db
    else (Ok tt, db).

(** assets/models.py: the columns of [Asset] that the pre-save receiver
    reads and writes. *)
Record Assignment : Type := mkAssignment {
  assigned_to_user : option UUID;
  assigned_to_department : option UUID;
  current_status : string
}.

(** The [pre_save] receiver for [Asset]; [departments] gives the department
    of each user row. *)
Definition validate_asset_assignment (departments : gmap UUID (option UUID))
    (instance : Assignment) : result Assignment :=
  let instance : result Assignment :=
    match assigned_to_user instance, assigned_to_department instance with
    | Some u, None =>
        (* auto-set department from user *)
        match departments !! u with
        | None => Raise ObjectDoesNotExist
        | Some (Some d) =>
            Ok (mkAssignment (assigned_to_user instance) (Some d)
                             (current_status instance))
        | Some None => Ok instance
        end
    | _, _ => Ok instance
    end in
  match instance with
  | Raise e => Raise e
  | Ok instance =>
      (* ensure status consistency *)
      if bool_decide (is_Some (assigned_to_user instance))
         && bool_decide (current_status instance = "IN_STOCK")
      then Ok (mkAssignment (assigned_to_user instance)
                            (assigned_to_department instance) "ASSIGNED")
      else if negb (bool_decide (is_Some (assigned_to_user instance)))
              && bool_decide (current_status instance = "ASSIGNED")
      then Ok (mkAssignment (assigned_to_user instance)
                            (assigned_to_department instance) "IN_STOCK")
      else Ok instance
  end.

End Receivers.

(** ** Specification vocabulary: signal-driven approvals *)
Module Signals.
Import Approvals Receivers.

(** The Approval rows for entity [eid] of type [et]. *)
Definition approvals_for (et : string) (eid : UUID) (db : DB)
    : list Approval :=
  filter (fun a => entity_type a = et /\ entity_id a = eid)
         (map snd (map_to_list (approvals db))).

(** A [post_save] signal: the instance as saved. *)
Inductive saved_instance : Type :=
| SavedPR (instance : Procurement.PurchaseRequest)
| SavedGRN (instance : GoodsReceivedNote)
| SavedAdjustment (instance : InventoryAdjustment).

(** The receiver that a signal reaches, with the clock reading and the
    uuid an Approval would get. *)
Definition receive (now : Time) (new_id : UUID) (s : saved_instance)
    : M DB unit :=
  match s with
  | SavedPR i => auto_create_pr_approval now new_id i
  | SavedGRN i => auto_create_grn_approval now new_id i
  | SavedAdjustment i => auto_create_adjustment_approval now new_id i
  end.

Definition run_signals (events : list (Time * UUID * saved_instance))
    (db : DB) : DB :=
  fold_left (fun db ev => snd (receive (fst (fst ev)) (snd (fst ev))
                                       (snd ev) db))
            events db.

(** The status consistency the pre-save receiver is there for. *)
Definition status_consistent (a : Assignment) : Prop :=
  (is_Some (assigned_to_user a) -> current_status a <> "IN_STOCK")
  /\ (assigned_to_user a = None -> current_status a <> "ASSIGNED").

(** Sample data: a goods received note and a stock count adjustment. *)
Definition grn1 (st : string) : GoodsReceivedNote :=
  mkGoodsReceivedNote "grn-1" "GRN-2025-0001" "u-alice"
    (Some (Decimal.mk 3125 (-2))) st.

Definition adjustment1 (st : string) : InventoryAdjustment :=
  mkInventoryAdjustment "adj-1" "ADJ-2025-0001" "Stock count" "u-alice" st
    (Some (Decimal.mk (-50000) (-2))).

Definition workflow_for (id : UUID) (name et : string) : ApprovalWorkflow :=
  Core.mkBase id 0 0 None None None None
    (mkWorkflowFields name et None None true true None None).

Definition db_all_workflows : DB :=
  Workflows.with_workflows
    [Examples.workflow1; workflow_for "wf-grn" "GRN Approval" "GRN";
     workflow_for "wf-adj" "Adjustment Approval" "ADJUSTMENT"]
    Examples.db_empty.

End Signals.

(** ** [datetime.date] arithmetic and dateutil's [relativedelta] *)
Module Calendar.

#[global] Instance date_eq_dec : EqDecision Date.t.
Proof. solve_decision. Defined.

(** [a < b] on dates: the order of (year, month, day). *)
Definition date_ltb (a b : Date.t) : bool :=
  (Date.year a <? Date.year b)
  || ((Date.year a =? Date.year b)
      && ((Date.month a <? Date.month b)
          || ((Date.month a =? Date.month b) && (Date.day a <? Date.day b)))).

Definition days_in_month_table : list Z :=
  [-1; 31; 28; 31; 30; 31; 30; 31; 31; 30; 31; 30; 31].

(** [calendar.monthrange(y, m)[1]] *)
Definition days_in_month (y m : Z) : Z :=
  nth (Z.to_nat m) days_in_month_table 0
  + (if (m =? 2) && Date.is_leap y then 1 else 0).

(** [date.fromordinal], after CPython's [_ord2ymd]. *)
Definition fromordinal (n : Z) : Date.t :=
  let n := n - 1 in
  let n400 := n / 146097 in
  let n := n mod 146097 in
  let year := n400 * 400 + 1 in
  let n100 := n / 36524 in
  let n := n mod 36524 in
  let n4 := n / 1461 in
  let n := n mod 1461 in
  let n1 := n / 365 in
  let n := n mod 365 in
  let year := year + n100 * 100 + n4 * 4 + n1 in
  if (n1 =? 4) || (n100 =? 4) then Date.mk (year - 1) 12 31
  else
    let leapyear := (n1 =? 3) && (negb (n4 =? 24) || (n100 =? 3)) in
    let month := Z.shiftr (n + 50) 5 in
    let preceding :=
      nth (Z.to_nat month) Date.days_before_month_table 0
      + (if (2 <? month) && leapyear then 1 else 0) in
    if n <? preceding
    then
      let month := month - 1 in
      let preceding :=
        preceding - (nth (Z.to_nat month) days_in_month_table 0
                     + (if (month =? 2) && leapyear then 1 else 0)) in
      Date.mk year month (n - preceding + 1)
    else Date.mk year month (n - preceding + 1).

(** [d + timedelta(days=k)] *)
Definition add_days (d : Date.t) (k : Z) : Date.t :=
  fromordinal (Date.toordinal d + k).

(** [d + relativedelta(years=years, months=months)] for [months] between
    -12 and 12: the year and month move, the day is cut to the length of
    the month reached.  (The zero timedelta that [relativedelta] adds at
    the end gives the date itself.) *)
Definition add_years_months (d : Date.t) (years months : Z) : Date.t :=
  let year := Date.year d + years in
  let month := Date.month d in
  let '(year, month) :=
    if months =? 0 then (year, month)
    else
      let month := month + months in
      if 12 <? month then (year + 1, month - 12)
      else if month <? 1 then (year - 1, month + 12)
      else (year, month) in
  let day := Z.min (days_in_month year month) (Date.day d) in
  Date.mk year month day.

(** [d.replace(day=1)] *)
Definition first_of_month (d : Date.t) : Date.t :=
  Date.mk (Date.year d) (Date.month d) 1.

End Calendar.

(** ** assets/models.py: the monthly depreciation schedule *)
Module Schedule.
Import Assets Calendar.

Record AssetDepreciationSchedule : Type := mkSchedule {
  ads_id : UUID;
  ads_asset : UUID;
  period_start_date : Date.t;
  period_end_date : Date.t;
  opening_book_value : Decimal.t;
  depreciation_amount : Decimal.t;
  closing_book_value : Decimal.t;
  is_posted : bool;
  posted_at : option Time;
  ads_created_at : Time
}.

(** The exceptions of this function: those of the other modules, the
    TypeError of comparing None with a Decimal, and the
    MultipleObjectsReturned of [get_or_create]. *)
Inductive raised : Type :=
| Exn (e : exn)
| TypeError
| MultipleObjectsReturned.

Inductive run (A : Type) : Type :=
| Returns (a : A)
| Raises (e : raised).
Arguments Returns {A} a.
Arguments Raises {A} e.

(** The [defaults] of [get_or_create]. *)
Record Defaults : Type := mkDefaults {
  df_period_end_date : Date.t;
  df_opening_book_value : Decimal.t;
  df_depreciation_amount : Decimal.t;
  df_closing_book_value : Decimal.t
}.

(** [AssetDepreciationSchedule.objects.get_or_create(asset=...,
    period_start_date=..., defaults=...)]: the row that matches, a new row
    when none does. *)
Definition get_or_create (now : Time) (new_id : UUID) (asset : UUID)
    (start : Date.t) (defaults : Defaults)
    (db : list AssetDepreciationSchedule)
    : run (AssetDepreciationSchedule * bool) * list AssetDepreciationSchedule :=
  match filter (fun r => ads_asset r = asset /\ period_start_date r = start)
               db with
  | [r] => (Returns (r, false), db)
  | [] =>
      if bool_decide (new_id ∈ map ads_id db)
      then (Raises (Exn IntegrityError), db)
      else
        let row := mkSchedule new_id asset start (df_period_end_date defaults)
                     (df_opening_book_value defaults)
                     (df_depreciation_amount defaults)
                     (df_closing_book_value defaults) false None now in
        (Returns (row, true), db ++ [row])
  | _ :: _ :: _ => (Raises MultipleObjectsReturned, db)
  end.

(** An asset instance: its primary key beside the columns that depreciation
    reads. *)
Record AssetInstance : Type := mkAssetInstance {
  pk : UUID;
  columns : Asset
}.

(** The monthly depreciation of one round of the loop. *)
Definition monthly_depreciation (asset : Asset) (price : Decimal.t) (life : Z)
    (salvage book_value : Decimal.t) : result Decimal.t :=
  let monthly : result Decimal.t :=
    if decide (depreciation_method asset = "STRAIGHT_LINE") then
      let total_depreciation := Decimal.sub price salvage in
      let months := life * 12 in
      lift_div (Decimal.div total_depreciation (Decimal.of_int months))
    else (* DECLINING_BALANCE *)
      match lift_div (Decimal.div (Decimal.of_int 2) (Decimal.of_int life)) with
      | Raise e => Raise e
      | Ok annual_rate =>
          match lift_div (Decimal.div annual_rate (Decimal.of_int 12)) with
          | Raise e => Raise e
          | Ok monthly_rate => Ok (Decimal.mul book_value monthly_rate)
          end
      end in
  match monthly with
  | Raise e => Raise e
  | Ok monthly_depreciation =>
      (* don't depreciate below salvage value *)
      if Decimal.ltb (Decimal.sub book_value monthly_depreciation) salvage
      then Ok (Decimal.sub book_value salvage)
      else Ok monthly_depreciation
  end.

(** The [while] loop; round [k] reads the clock and draws its uuid as
    [draw k].  [None] is a run that is still going after [fuel] rounds. *)
Fixpoint schedule_loop (fuel : nat) (draw : nat -> Time * UUID)
    (asset : AssetInstance) (price : Decimal.t) (life : Z)
    (salvage : Decimal.t) (end_ : Date.t) (k : nat)
    (current_date : Date.t) (book_value : Decimal.t)
    (db : list AssetDepreciationSchedule)
    : option (run unit * list AssetDepreciationSchedule) :=
  if date_ltb current_date end_ && Decimal.ltb salvage book_value then
    match fuel with
    | O => None
    | S fuel =>
        let period_end :=
          add_days (add_years_months current_date 0 1) (-1) in
        match monthly_depreciation (columns asset) price life salvage
                                   book_value with
        | Raise e => Some (Raises (Exn e), db)
        | Ok monthly_depreciation =>
            let closing_book_value :=
              Decimal.sub book_value monthly_depreciation in
            (* create schedule entry *)
            match get_or_create (fst (draw k)) (snd (draw k)) (pk asset)
                    current_date
                    (mkDefaults period_end book_value monthly_depreciation
                                closing_book_value) db with
            | (Raises e, db) => Some (Raises e, db)
            | (Returns _, db) =>
                schedule_loop fuel draw asset price life salvage end_ (S k)
                  (add_years_months current_date 0 1) closing_book_value db
            end
        end
    end
  else Some (Returns tt, db).

Definition generate_depreciation_schedule (fuel : nat)
    (draw : nat -> Time * UUID) (asset : AssetInstance)
    (start_date end_date : option Date.t)
    (db : list AssetDepreciationSchedule)
    : option (run unit * list AssetDepreciationSchedule) :=
  if decide (depreciation_method (columns asset) = "NO_DEPRECIATION")
  then Some (Returns tt, db)
  else
    match purchase_date (columns asset), useful_life_years (columns asset) with
    | Some purchased, Some life =>
        if life =? 0 then Some (Returns tt, db)
        else
          let start := default purchased start_date in
          let end_ := default (add_years_months purchased life 0) end_date in
          let current_date := first_of_month start in
          let salvage := salvage_or_zero (columns asset) in
          match purchase_price (columns asset) with
          | None =>
              (* the loop test compares None with the salvage value *)
              if date_ltb current_date end_ then Some (Raises TypeError, db)
              else Some (Returns tt, db)
          | Some price =>
              schedule_loop fuel draw asset price life salvage end_ 0
                            current_date price db
          end
    | _, _ => Some (Returns tt, db)
    end.

End Schedule.

(** ** Specification vocabulary: the depreciation schedule *)
Module Plan.
Import Assets Calendar Schedule.

(** Months since year 0. *)
Definition month_index (d : Date.t) : Z := Date.year d * 12 + Date.month d.

Definition valid_month (d : Date.t) : Prop := 1 <= Date.month d <= 12.

(** The first month and the end date of a call. *)
Definition first_month (purchased : Date.t) (start_date : option Date.t)
    : Date.t :=
  first_of_month (default purchased start_date).

Definition end_of (purchased : Date.t) (life : Z) (end_date : option Date.t)
    : Date.t :=
  default (add_years_months purchased life 0) end_date.

(** One round for each month from the first month to the month of the end
    date. *)
Definition rounds (first end_ : Date.t) : nat :=
  Z.to_nat (month_index end_ - month_index first + 1).

(** The rounds that are enough for a call. *)
Definition rounds_of (asset : Asset) (start_date end_date : option Date.t)
    : nat :=
  match purchase_date asset, useful_life_years asset with
  | Some purchased, Some life =>
      rounds (first_month purchased start_date)
             (end_of purchased life end_date)
  | _, _ => O
  end.

(** The dates of a call have months between 1 and 12. *)
Definition valid_months (asset : Asset) (start_date end_date : option Date.t)
    : Prop :=
  (forall d, purchase_date asset = Some d -> valid_month d)
  /\ (forall d, start_date = Some d -> valid_month d)
  /\ (forall d, end_date = Some d -> valid_month d).

(** The rows of the schedule of [asset] for the month [start]. *)
Definition rows_for (asset : UUID) (start : Date.t)
    (db : list AssetDepreciationSchedule) : list AssetDepreciationSchedule :=
  filter (fun r => ads_asset r = asset /\ period_start_date r = start) db.

(** A round: the month and what the loop computes for it. *)
Record Period : Type := mkPeriod {
  p_start : Date.t;
  p_defaults : Defaults
}.

(** The depreciation of a round (the divisions cannot fail for a useful
    life other than zero). *)
Definition amount (asset : Asset) (price : Decimal.t) (life : Z)
    (salvage book_value : Decimal.t) : Decimal.t :=
  match monthly_depreciation asset price life salvage book_value with
  | Ok m => m
  | Raise _ => Decimal.zero
  end.

(** The rounds of the loop, without the table. *)
Fixpoint plan (fuel : nat) (asset : Asset) (price : Decimal.t) (life : Z)
    (salvage : Decimal.t) (end_ : Date.t) (current_date : Date.t)
    (book_value : Decimal.t) : option (list Period) :=
  if date_ltb current_date end_ && Decimal.ltb salvage book_value then
    match fuel with
    | O => None
    | S fuel =>
        let m := amount asset price life salvage book_value in
        let closing := Decimal.sub book_value m in
        option_map
          (cons (mkPeriod current_date
                   (mkDefaults
                      (add_days (add_years_months current_date 0 1) (-1))
                      book_value m closing)))
          (plan fuel asset price life salvage end_
                (add_years_months current_date 0 1) closing)
    end
  else Some [].

(** The table operations of the rounds, one after the other. *)
Fixpoint apply_periods (draw : nat -> Time * UUID) (asset : UUID) (k : nat)
    (ps : list Period) (db : list AssetDepreciationSchedule)
    : run unit * list AssetDepreciationSchedule :=
  match ps with
  | [] => (Returns tt, db)
  | p :: ps =>
      match get_or_create (fst (draw k)) (snd (draw k)) asset (p_start p)
              (p_defaults p) db with
      | (Raises e, db) => (Raises e, db)
      | (Returns _, db) => apply_periods draw asset (S k) ps db
      end
  end.



(** Sample data: a laptop bought on 2025-01-15 for 1200.00, written off
    over one year to a salvage value of 0; the uuid of round k is a prefix
    followed by k strokes. *)
Definition laptop : AssetInstance :=
  mkAssetInstance "asset-1"
    (mkAsset "AST-2025-00001" "SN-0001" (Some (Date.mk 2025 1 15))
       (Some (Decimal.mk 120000 (-2))) "STRAIGHT_LINE" (Some 1) None None
       Decimal.zero).

Definition draw (k : nat) : Time * UUID :=
  (Z.of_nat k, Nat.iter k (fun s => "i" +:+ s) "-ads").

Definition draw_again (k : nat) : Time * UUID :=
  (1000 + Z.of_nat k, Nat.iter k (fun s => "i" +:+ s) "-again").

End Plan.

(** ** Specification vocabulary: approving a request to the end *)
Module Runs.
Import Approvals Spec.

(** An approval action: the clock reading, the uuid of the history row and
    the acting user. *)
Definition action : Type := Time * UUID * UUID.

(** One [approve_step] per action, each on the approval the one before
    returned; the flags returned, in order. *)
Fixpoint approve_each (actions : list action) (approval : Approval)
    : M DB (list bool * Approval) :=
  match actions with
  | [] => mret ([], approval)
  | (now, new_id, user) :: actions =>
      '(complete, approval) ← approve_step now new_id approval user None None;
      '(flags, approval) ← approve_each actions approval;
      mret (complete :: flags, approval)
  end.

(** The step that [get_current_step] finds for sequence [s]. *)
Definition step_at (w : UUID) (s : Z) (db : DB)
    : option ApprovalWorkflowStep :=
  head (filter (fun st => step_workflow (Core.fields st) = w
                          /\ step_seq st = s) (steps db)).

(** The action can approve the step numbered [s]. *)
Definition can_approve (w : UUID) (db : DB) (s : Z) (a : action) : Prop :=
  s <> 0
  /\ exists st, step_at w s db = Some st
                /\ user_in (snd a) (get_approvers st db) = true.

(** [later] lists, in increasing order, the sequences of the non-deleted
    steps above [c]. *)
Definition later_steps (w : UUID) (c : Z) (db : DB) (later : list Z) : Prop :=
  StronglySorted Z.lt later
  /\ forall t, t ∈ later <-> (t ∈ live_sequences w db /\ c < t).

End Runs.

(** ** approvals/admin.py: the bulk action *)
Module Admin.
Import Approvals.





End Admin.

(** ** assets/models.py: warranty and maintenance dates *)
Module Upkeep.
Import Calendar.

(** The columns of [Asset] that the warranty and maintenance properties
    read. *)
Record AssetDates : Type := mkAssetDates {
  warranty_end_date : option Date.t;
  last_maintenance_date : option Date.t;
  next_maintenance_date : option Date.t;
  maintenance_frequency_days : option Z
}.

(** [a <= b] on dates. *)
Definition date_leb (a b : Date.t) : bool := negb (date_ltb b a).

(** The properties below read [timezone.now().date()] as [today]. *)
Definition is_under_warranty (today : Date.t) (self : AssetDates) : bool :=
  match warranty_end_date self with
  | None => false
  | Some warranty_end_date => date_leb today warranty_end_date
  end.

Definition is_maintenance_due (today : Date.t) (self : AssetDates) : bool :=
  match next_maintenance_date self with
  | None => false
  | Some next_maintenance_date => date_leb next_maintenance_date today
  end.

Definition warranty_days_remaining (today : Date.t) (self : AssetDates)
    : option Z :=
  match warranty_end_date self with
  | None => None
  | Some warranty_end_date =>
      let delta_days := Date.days_between warranty_end_date today in
      Some (Z.max delta_days 0)
  end.

(** A date of the calendar. *)
Definition valid_date (d : Date.t) : Prop :=
  1 <= Date.month d <= 12
  /\ 1 <= Date.day d <= days_in_month (Date.year d) (Date.month d).

(** Sample data: a warranty that ends on 2026-02-28. *)
Definition warranted : AssetDates :=
  mkAssetDates (Some (Date.mk 2026 2 28)) None (Some (Date.mk 2025 6 1))
               (Some 90).

End Upkeep.

(** * Properties *)

(** ** Ordered querysets *)
Section ordered_queryset.
Context {A : Type} (R : relation A) `{!RelDecision R}.
Context `{!Transitive R} `{!Total R}.
Context (P : A -> Prop) `{!forall x, Decision (P x)}.

Lemma StronglySorted_filter (l : list A) :
  StronglySorted R l -> StronglySorted R (filter P l).
Proof.
  induction 1 as [|x l Hl IH Hx]; [constructor|].
  rewrite filter_cons. destruct (decide (P x)); [|done].
  constructor; [done|].
  apply Forall_forall. intros y Hy%list_elem_of_filter.
  destruct Hy as [_ Hy]. rewrite Forall_forall in Hx. auto.
Qed.

Lemma first_of_ordered_filter (l : list A) (x : A) :
  head (filter P (merge_sort R l)) = Some x ->
  P x /\ x ∈ l /\ forall y, y ∈ l -> P y -> R x y.
Proof.
  intros Hhd.
  pose proof (StronglySorted_filter _ (StronglySorted_merge_sort R l)) as Hs.
  pose proof (head_Some_elem_of _ _ Hhd) as Hin.
  apply list_elem_of_filter in Hin as [HP Hin].
  rewrite merge_sort_Permutation in Hin.
  split; [done|]. split; [done|].
  intros y Hy HPy.
  assert (y ∈ filter P (merge_sort R l)) as Hy'.
  { apply list_elem_of_filter. split; [done|].
    by rewrite merge_sort_Permutation. }
  destruct (filter P (merge_sort R l)) as [|z l']; [done|].
  simpl in Hhd. injection Hhd as ->.
  apply StronglySorted_inv in Hs as [_ Hall].
  apply elem_of_cons in Hy' as [->|Hy'].
  - destruct (total R x x); done.
  - rewrite Forall_forall in Hall. auto.
Qed.

Lemma first_of_ordered_filter_None (l : list A) :
  head (filter P (merge_sort R l)) = None ->
  forall y, y ∈ l -> ~ P y.
Proof.
  intros Hhd y Hy HPy. apply head_None in Hhd.
  assert (y ∈ filter P (merge_sort R l)) as Hy'.
  { apply list_elem_of_filter. split; [done|].
    by rewrite merge_sort_Permutation. }
  rewrite Hhd in Hy'. by apply elem_of_nil in Hy'.
Qed.

End ordered_queryset.

Lemma first_of_ordered {A : Type} (R : relation A) `{!RelDecision R}
    `{!Transitive R} `{!Total R} (l : list A) (x : A) :
  head (merge_sort R l) = Some x ->
  x ∈ l /\ forall y, y ∈ l -> R x y.
Proof.
  intros Hhd.
  assert (filter (fun _ : A => True) (merge_sort R l) = merge_sort R l) as Hf.
  { clear Hhd. induction (merge_sort R l) as [|z l' IH]; [done|].
    rewrite filter_cons_True by done. by rewrite IH. }
  rewrite <- Hf in Hhd.
  apply (first_of_ordered_filter R (fun _ => True)) in Hhd as (_ & Hin & Hmin).
  split; [done|]. intros y Hy. by apply Hmin.
Qed.

Lemma first_of_ordered_None {A : Type} (R : relation A) `{!RelDecision R}
    (l : list A) :
  head (merge_sort R l) = None -> l = [].
Proof.
  intros Hhd%head_None.
  apply Permutation_nil_r. rewrite <- Hhd. by rewrite merge_sort_Permutation.
Qed.

(** ** Approvals: sequential step advancement *)
Section advance.
Import Approvals Spec.

#[local] Instance step_seq_le_trans : Transitive step_seq_le.
Proof. intros a b c. unfold step_seq_le. lia. Qed.

#[local] Instance step_seq_le_total : Total step_seq_le.
Proof. intros a b. unfold step_seq_le. lia. Qed.

Lemma Approval_save_saved (now : Time) (self : Approval) (db : DB) :
  Approval_save now self db = (Ok (fst (saved now self db)), snd (saved now self db)).
Proof. reflexivity. Qed.

(** A save keeps every column of the instance but the automatic
    timestamps, stores the instance under its key and touches nothing else. *)
Lemma saved_columns (now : Time) (self : Approval) (db : DB) :
  let a := fst (saved now self db) in
  let db' := snd (saved now self db) in
  ap_id a = ap_id self /\ entity_type a = entity_type self
  /\ entity_id a = entity_id self /\ entity_number a = entity_number self
  /\ workflow a = workflow self
  /\ current_step_sequence a = current_step_sequence self
  /\ requested_by a = requested_by self /\ status a = status self
  /\ completed_at a = completed_at self /\ remarks a = remarks self
  /\ metadata a = metadata self /\ ap_updated_at a = now
  /\ approvals db' !! ap_id self = Some a
  /\ (forall k, k <> ap_id self -> approvals db' !! k = approvals db !! k)
  /\ history db' = history db /\ steps db' = steps db.
Proof.
  simpl. repeat match goal with |- _ /\ _ => split end; try done.
  - by rewrite lookup_insert_eq.
  - intros k Hk. by rewrite lookup_insert_ne.
Qed.

Lemma save_then_return (now : Time) (b : bool) (self : Approval) (db : DB) :
  (self' ← Approval_save now self; mret (b, self')) db
  = returns_saved now b self db.
Proof. reflexivity. Qed.

Lemma live_sequences_elem (w : UUID) (db : DB) (t : Z) :
  t ∈ live_sequences w db <->
  exists s, s ∈ steps db /\ step_workflow (Core.fields s) = w
            /\ Core.deleted_at s = None /\ step_seq s = t.
Proof.
  unfold live_sequences. rewrite list_elem_of_fmap. split.
  - intros (s & -> & Hs). apply list_elem_of_filter in Hs as [[? ?] ?].
    by exists s.
  - intros (s & Hs & Hw & Hd & <-). exists s. split; [done|].
    by apply list_elem_of_filter.
Qed.

(** C1, first case: nothing started yet. *)
Lemma advance_from_none (now : Time) (self : Approval) (db : DB) (w : UUID) :
  workflow self = Some w ->
  current_step_sequence self = None ->
  live_sequences w db <> [] ->
  exists s,
    smallest s (live_sequences w db)
    /\ advance_to_next_step now self db
       = returns_saved now true
           (set_status "IN_PROGRESS"
              (set_current_step_sequence (Some s) self)) db.
Proof.
  intros Hw Hc Hne. unfold advance_to_next_step. rewrite Hw, Hc.
  unfold get_steps.
  destruct (head (merge_sort step_seq_le _)) as [first_step|] eqn:Hhd.
  - apply first_of_ordered in Hhd as [Hin Hmin]; [|apply _..].
    exists (step_seq first_step). split; [|by rewrite save_then_return].
    split.
    + unfold live_sequences. apply list_elem_of_fmap. by exists first_step.
    + intros t (s & -> & Hs)%list_elem_of_fmap. by apply Hmin.
  - apply first_of_ordered_None in Hhd. unfold live_sequences in Hne.
    by rewrite Hhd in Hne.
Qed.

(** C1, second case: a later step exists. *)
Lemma advance_to_later (now : Time) (self : Approval) (db : DB) (w : UUID)
    (c : Z) :
  workflow self = Some w ->
  current_step_sequence self = Some c ->
  (exists t, t ∈ live_sequences w db /\ c < t) ->
  exists s,
    smallest s (filter (fun t => c < t) (live_sequences w db))
    /\ advance_to_next_step now self db
       = returns_saved now true (set_current_step_sequence (Some s) self) db.
Proof.
  intros Hw Hc (t & Ht & Hlt). unfold advance_to_next_step. rewrite Hw, Hc.
  unfold get_steps.
  destruct (head (filter _ (merge_sort step_seq_le _))) as [next_step|] eqn:Hhd.
  - apply (first_of_ordered_filter step_seq_le) in Hhd as (Hgt & Hin & Hmin).
    exists (step_seq next_step). split; [|by rewrite save_then_return].
    split.
    + apply list_elem_of_filter. split; [done|].
      unfold live_sequences. apply list_elem_of_fmap. by exists next_step.
    + intros u [Hu (s & -> & Hs)%list_elem_of_fmap]%list_elem_of_filter.
      by apply Hmin.
  - exfalso. apply live_sequences_elem in Ht as (s & Hs & Hsw & Hsd & <-).
    eapply (first_of_ordered_filter_None step_seq_le); [exact Hhd| |exact Hlt].
    by apply list_elem_of_filter.
Qed.

(** C1, third case: no later step. *)
Lemma advance_completes (now : Time) (self : Approval) (db : DB) (w : UUID)
    (c : Z) :
  workflow self = Some w ->
  current_step_sequence self = Some c ->
  (forall t, t ∈ live_sequences w db -> t <= c) ->
  advance_to_next_step now self db
  = returns_saved now false
      (set_completed_at (Some now) (set_status "APPROVED" self)) db.
Proof.
  intros Hw Hc Hall. unfold advance_to_next_step. rewrite Hw, Hc.
  unfold get_steps.
  destruct (head (filter _ (merge_sort step_seq_le _))) as [next_step|] eqn:Hhd.
  - apply (first_of_ordered_filter step_seq_le) in Hhd as (Hgt & Hin & _).
    assert (step_seq next_step <= c); [|lia].
    apply Hall. unfold live_sequences. apply list_elem_of_fmap.
    by exists next_step.
  - by rewrite save_then_return.
Qed.

(** Saving the approval as [a] and returning [b] is an outcome in the sense
    of [advanced]; the save keeps what was assigned to the three columns. *)
Lemma advanced_saved (now : Time) (b : bool) (self a : Approval) (db : DB) :
  advance_to_next_step now self db = returns_saved now b a db ->
  same_request a self ->
  requested_at a = requested_at self ->
  ap_created_at a = ap_created_at self ->
  exists a' db',
    advanced now self db b a' db'
    /\ current_step_sequence a' = current_step_sequence a
    /\ status a' = status a
    /\ completed_at a' = completed_at a.
Proof.
  intros Heq (Hid & Het & Hei & Hen & Hw & Hrb & Hrem & Hmeta) Hra Hca.
  exists (fst (saved now a db)), (snd (saved now a db)).
  split; [|done].
  unfold advanced. rewrite Heq.
  repeat match goal with |- _ /\ _ => split end; try done.
  - intros Hrow. simpl. rewrite Hid.
    by rewrite (bool_decide_eq_false_2 _ Hrow).
  - simpl. rewrite Hid. by rewrite lookup_insert_eq.
  - intros k Hk. simpl. rewrite Hid. by rewrite lookup_insert_ne.
Qed.

(** C1.  [Approval.advance_to_next_step]: without a workflow it returns
    False and changes nothing.  With a workflow that has a non-deleted step
    and no current step, it returns True with current_step_sequence at the
    smallest step_sequence and the status IN_PROGRESS.  With a current step
    and a non-deleted step of strictly greater sequence, it returns True
    with current_step_sequence at the smallest such sequence.  Otherwise it
    returns False with the status APPROVED and completed_at at the current
    time.  In each of the three cases the approval is saved as returned, and
    no column but those named (and the automatic updated_at) changes. *)
Theorem advance_to_next_step_sequential
    (now : Time) (self : Approval) (db : DB) :
  (workflow self = None ->
     advance_to_next_step now self db = (Ok (false, self), db))
  /\ (forall w, workflow self = Some w -> live_sequences w db <> [] ->
      match current_step_sequence self with
      | None =>
          exists s a' db',
            smallest s (live_sequences w db)
            /\ advanced now self db true a' db'
            /\ current_step_sequence a' = Some s
            /\ status a' = "IN_PROGRESS"
            /\ completed_at a' = completed_at self
      | Some c =>
          ((exists t, t ∈ live_sequences w db /\ c < t) ->
             exists s a' db',
               smallest s (filter (fun t => c < t) (live_sequences w db))
               /\ advanced now self db true a' db'
               /\ current_step_sequence a' = Some s
               /\ status a' = status self
               /\ completed_at a' = completed_at self)
          /\ ((forall t, t ∈ live_sequences w db -> t <= c) ->
                exists a' db',
                  advanced now self db false a' db'
                  /\ current_step_sequence a' = Some c
                  /\ status a' = "APPROVED"
                  /\ completed_at a' = Some now)
      end).
Proof.
  split.
  - intros Hw. unfold advance_to_next_step. by rewrite Hw.
  - intros w Hw Hne.
    destruct (current_step_sequence self) as [c|] eqn:Hc.
    + split.
      * intros Hlater.
        destruct (advance_to_later now self db w c Hw Hc Hlater)
          as (s & Hs & Heq).
        apply advanced_saved in Heq as (a' & db' & Hadv & Hseq & Hst & Hdone);
          [|done..].
        by exists s, a', db'.
      * intros Hlast.
        pose proof (advance_completes now self db w c Hw Hc Hlast) as Heq.
        apply advanced_saved in Heq as (a' & db' & Hadv & Hseq & Hst & Hdone);
          [|done..].
        exists a', db'. by rewrite Hseq.
    + destruct (advance_from_none now self db w Hw Hc Hne) as (s & Hs & Heq).
      apply advanced_saved in Heq as (a' & db' & Hadv & Hseq & Hst & Hdone);
        [|done..].
      by exists s, a', db'.
Qed.

End advance.

(** ** Approvals: timeout detection *)
Section timeout.
Import Approvals Spec.

#[local] Instance action_date_ge_trans : Transitive action_date_ge.
Proof. intros a b c. unfold action_date_ge. lia. Qed.

#[local] Instance action_date_ge_total : Total action_date_ge.
Proof. intros a b. unfold action_date_ge. lia. Qed.






(** Within the range of [datetime], neither the timedelta nor the sum
    overflows. *)
Lemma timeout_time_in_range (t h : Z) :
  0 <= t -> 1 <= h -> t + h * 3600000000 <= datetime_max ->
  timedelta_hours h = Ok (h * 3600000000)
  /\ datetime_add t (h * 3600000000) = Ok (t + h * 3600000000).
Proof.
  unfold timedelta_hours, datetime_add, datetime_max.
  intros Ht Hh Hmax. split.
  - rewrite (proj2 (Z.leb_le _ _)); [done|].
    apply Z.abs_le. split.
    + transitivity 0; [lia|]. apply Z.div_pos; lia.
    + apply Z.lt_succ_r, Z.div_lt_upper_bound; lia.
  - cbv zeta. rewrite (proj2 (Z.leb_le 0 _)) by lia.
    by rewrite (proj2 (Z.leb_le (t + h * 3600000000) _)) by lia.
Qed.





End timeout.

(** ** Approvals: authorisation failures leave the database alone *)
Section authorisation.
Import Approvals Spec.

(** Whoever [get_approvers] returns is an approver as stated. *)
Lemma get_approvers_stated (user : UUID) (step : ApprovalWorkflowStep)
    (db : DB) :
  user_in user (get_approvers step db) = true ->
  stated_approver user step db.
Proof.
  unfold user_in, get_approvers, stated_approver.
  intros Hin%bool_decide_eq_true.
  apply list_elem_of_fmap in Hin as (x & -> & Hx).
  destruct (approver_user (Core.fields step)) as [u|].
  - by apply list_elem_of_filter in Hx as [[-> _] _].
  - destruct (approver_role (Core.fields step)) as [r|].
    + apply list_elem_of_filter in Hx as [[Hex Hact] Hx].
      apply Exists_exists in Hex as (ur & Hur & Hu & Hr).
      exists x. repeat split; try done.
      by exists ur.
    + by apply elem_of_nil in Hx.
Qed.

(** C8.  If the approval has no current step, or the calling user is not
    in the current step's approver set, [approve_step] raises
    ValidationError and the database (the Approval row and the
    ApprovalHistory table included) is what it was. *)
Theorem approve_step_unauthorised_atomic
    (now : Time) (new_id : UUID) (approval : Approval) (user : UUID)
    (comments ip : option string) (db : DB) :
  (get_current_step approval db = None
   \/ exists st, get_current_step approval db = Some st
                 /\ ~ stated_approver user st db) ->
  exists msg,
    approve_step now new_id approval user comments ip db
    = (Raise (ValidationError msg), db).
Proof.
  unfold approve_step. intros [Hnone|(st & Hst & Hnot)].
  - rewrite Hnone. by eexists.
  - rewrite Hst.
    destruct (user_in user (get_approvers st db)) eqn:Hin.
    + by apply get_approvers_stated in Hin.
    + by eexists.
Qed.

End authorisation.

(** ** Approvals: signal-driven creation *)
Section signals.
Import Approvals Spec.

Lemma same_entity_saved (now : Time) (a : Approval) (db : DB) :
  same_entity (fst (saved now a db)) a.
Proof. done. Qed.

Lemma advance_to_next_step_row (now : Time) (a : Approval) (db : DB) :
  snd (advance_to_next_step now a db) = db
  \/ exists a', same_entity a' a
       /\ snd (advance_to_next_step now a db)
          = with_approvals (<[ap_id a := a']> (approvals db)) db.
Proof.
  unfold advance_to_next_step.
  destruct (workflow a) as [w|]; [|by left].
  destruct (current_step_sequence a) as [c|].
  - destruct (head (filter _ _)); right; eexists; (split; [|reflexivity]); done.
  - destruct (head _); [right; eexists; (split; [|reflexivity]); done|by left].
Qed.

Lemma create_approval_row (now : Time) (new_id : UUID) (et : string)
    (eid : UUID) (num : option string) (req : option UUID)
    (value : option Decimal.t) (rem : option string) (db : DB) :
  put_one et eid new_id db
          (snd (create_approval now new_id et eid num req value rem db)).
Proof.
  unfold create_approval.
  destruct (match List.find _ _ with Some w => Some w | None => _ end) as [w|];
    [|by left].
  unfold mbind, M_bind, Approval_objects_create.
  destruct req as [requester|]; [|by left].
  destruct (approvals db !! new_id) eqn:Hfree; [by left|].
  set (obj := mkApproval _ _ _ _ _ _ _ _ _ _ _ _ _ _).
  set (db1 := with_approvals _ db).
  pose proof (advance_to_next_step_row now obj db1) as Hadv.
  destruct (advance_to_next_step now obj db1) as [[[b a']|e] db2];
    simpl in *; right; (split; [done|]).
  - destruct Hadv as [->|(a2 & (_ & Het & Hid) & ->)].
    + by exists obj.
    + exists a2. split; [done|]. split; [done|].
      unfold db1, with_approvals. simpl. by rewrite insert_insert_eq.
  - destruct Hadv as [->|(a2 & (_ & Het & Hid) & ->)].
    + by exists obj.
    + exists a2. split; [done|]. split; [done|].
      unfold db1, with_approvals. simpl. by rewrite insert_insert_eq.
Qed.

Lemma filter_nil_of_none {A : Type} (P : A -> Prop)
    `{!forall x, Decision (P x)} (l : list A) :
  (forall x, x ∈ l -> ~ P x) -> filter P l = [].
Proof.
  induction l as [|x l IH]; intros Hno; [done|].
  rewrite filter_cons_False by (apply Hno; left).
  apply IH. intros y Hy. apply Hno. by right.
Qed.

Lemma pr_approvals_nil_iff (pr : UUID) (db : DB) :
  pr_approvals pr db = []
  <-> ~ Exists (fun a => entity_type a = "PR" /\ entity_id a = pr)
               (map snd (map_to_list (approvals db))).
Proof.
  unfold pr_approvals. rewrite Exists_exists. split.
  - intros Hnil (a & Ha & HP).
    assert (a ∈ filter (fun a => entity_type a = "PR" /\ entity_id a = pr)
                       (map snd (map_to_list (approvals db)))) as Hin
      by by apply list_elem_of_filter.
    rewrite Hnil in Hin. by apply elem_of_nil in Hin.
  - intros Hno. apply filter_nil_of_none.
    intros a Ha HP. apply Hno. by exists a.
Qed.

Lemma pr_approvals_put (pr : UUID) (new_id : UUID) (o : Approval) (db : DB) :
  approvals db !! new_id = None ->
  length (pr_approvals pr
            (with_approvals (<[new_id := o]> (approvals db)) db))
  = ((if decide (entity_type o = "PR" /\ entity_id o = pr) then 1 else 0)
     + length (pr_approvals pr db))%nat.
Proof.
  intros Hfree. unfold pr_approvals. simpl.
  rewrite (map_to_list_insert _ _ _ Hfree). simpl.
  rewrite filter_cons. simpl. by destruct (decide _).
Qed.

(** One signal keeps "at most one approval per purchase request". *)
Lemma auto_create_pr_approval_at_most_one (now : Time) (new_id : UUID)
    (instance : Procurement.PurchaseRequest) (pr : UUID) (db : DB) :
  (length (pr_approvals pr db) <= 1)%nat ->
  (length (pr_approvals pr
             (snd (auto_create_pr_approval now new_id instance db))) <= 1)%nat.
Proof.
  intros Hle. unfold auto_create_pr_approval.
  destruct (decide (_ = "SUBMITTED")); [|done].
  destruct (bool_decide _) eqn:Hex; [done|].
  apply bool_decide_eq_false, pr_approvals_nil_iff in Hex.
  unfold try_except_pass.
  match goal with
  | |- context [create_approval ?a ?b ?c ?d ?e ?f ?g ?h db] =>
      pose proof (create_approval_row a b c d e f g h db) as Hput;
      destruct (create_approval a b c d e f g h db) as [r db']
  end.
  simpl in *. destruct Hput as [->|(Hfree & o & Het & Hid & ->)]; [done|].
  rewrite (pr_approvals_put _ _ _ _ Hfree).
  destruct (decide _) as [[_ Heq]|_]; [|done].
  rewrite Hid in Heq. subst pr. by rewrite Hex.
Qed.

(** C7.  However many times purchase requests are saved, a purchase request
    that had at most one Approval row (entity_type 'PR', entity_id its id)
    still has at most one; the receiver returns without creating anything
    when such a row exists, and a save with a status other than SUBMITTED
    creates no approval. *)
Theorem pr_approval_creation_idempotent :
  (forall (pr : UUID)
          (events : list (Time * UUID * Procurement.PurchaseRequest))
          (db : DB),
      (length (pr_approvals pr db) <= 1)%nat ->
      (length (pr_approvals pr (pr_saves events db)) <= 1)%nat)
  /\ (forall now new_id (instance : Procurement.PurchaseRequest) (db : DB),
        Procurement.status (Core.fields instance) = "SUBMITTED" ->
        pr_approvals (Core.id instance) db <> [] ->
        auto_create_pr_approval now new_id instance db = (Ok tt, db))
  /\ (forall now new_id (instance : Procurement.PurchaseRequest) (db : DB),
        Procurement.status (Core.fields instance) <> "SUBMITTED" ->
        auto_create_pr_approval now new_id instance db = (Ok tt, db)).
Proof.
  split; [|split].
  - intros pr events. induction events as [|[[now new_id] instance] evs IH];
      intros db Hle; [done|].
    simpl. apply IH. by apply auto_create_pr_approval_at_most_one.
  - intros now new_id instance db Hst Hne. unfold auto_create_pr_approval.
    rewrite decide_True by done.
    rewrite bool_decide_eq_true_2; [done|].
    destruct (decide (Exists (fun a => entity_type a = "PR"
                                       /\ entity_id a = Core.id instance)
                             (map snd (map_to_list (approvals db)))))
      as [|Hno]; [done|].
    by apply pr_approvals_nil_iff in Hno.
  - intros now new_id instance db Hst. unfold auto_create_pr_approval.
    by rewrite decide_False.
Qed.

End signals.

(** ** Approvals: the audit trail *)
Section audit.
Import Approvals Spec.

(** An accepted history row carries the keyword arguments. *)
Lemma ApprovalHistory_objects_create_ok (now : Time) (new_id : UUID)
    (kw : HistoryKwargs) (seq : Z) (user : UUID) (db : DB) :
  kw_step_sequence kw = Some seq ->
  kw_approver_user kw = Some user ->
  new_id ∉ map h_id (history db) ->
  let row := mkApprovalHistory new_id (kw_approval kw) seq
               (kw_approver_role kw) user (kw_action kw) now None
               (kw_comments kw) (kw_ip_address kw) now in
  ApprovalHistory_objects_create now new_id kw db
  = (Ok row, with_history (history db ++ [row]) db).
Proof.
  intros Hs Hu Hfresh. unfold ApprovalHistory_objects_create.
  rewrite Hs, Hu. by rewrite bool_decide_eq_false_2.
Qed.

(** A row without its acting user is refused. *)
Lemma ApprovalHistory_objects_create_no_user (now : Time) (new_id : UUID)
    (kw : HistoryKwargs) (db : DB) :
  kw_approver_user kw = None ->
  ApprovalHistory_objects_create now new_id kw db = (Raise IntegrityError, db).
Proof.
  intros Hu. unfold ApprovalHistory_objects_create. rewrite Hu.
  by destruct (kw_step_sequence kw).
Qed.

(** [reject] on an approval at a step: one REJECTED row for that step and
    that user. *)
Lemma reject_audit_row (now : Time) (new_id : UUID) (self : Approval)
    (user : UUID) (comments : option string) (seq : Z) (db : DB) :
  current_step_sequence self = Some seq ->
  new_id ∉ map h_id (history db) ->
  let self' :=
    fst (saved now (set_completed_at (Some now) (set_status "REJECTED" self))
               db) in
  let row := mkApprovalHistory new_id (ap_id self) seq None user "REJECTED"
               now None comments None now in
  exists db',
    reject now new_id self user comments db = (Ok self', db')
    /\ history db' = history db ++ [row]
    /\ approvals db' !! ap_id self = Some self'.
Proof.
  intros Hseq Hfresh. unfold reject, mbind, M_bind.
  rewrite Approval_save_saved.
  erewrite ApprovalHistory_objects_create_ok; [|done..].
  eexists. split; [reflexivity|]. split; [done|].
  simpl. by rewrite lookup_insert_eq.
Qed.


Lemma advance_to_next_step_history (now : Time) (a : Approval) (db : DB) :
  history (snd (advance_to_next_step now a db)) = history db
  /\ exists b a', fst (advance_to_next_step now a db) = Ok (b, a').
Proof.
  unfold advance_to_next_step.
  destruct (workflow a) as [w|]; [|split; [done|by eexists _, _]].
  destruct (current_step_sequence a) as [c|].
  - destruct (head (filter _ _)); (split; [done|by eexists _, _]).
  - destruct (head _); (split; [done|by eexists _, _]).
Qed.

(** [approve_step] by an authorised user: exactly one APPROVED row for the
    step the approval was at, the step's role and the user. *)
Lemma approve_step_audit_row (now : Time) (new_id : UUID) (approval : Approval)
    (user : UUID) (comments ip : option string)
    (st : ApprovalWorkflowStep) (db : DB) :
  get_current_step approval db = Some st ->
  user_in user (get_approvers st db) = true ->
  new_id ∉ map h_id (history db) ->
  exists seq complete approval' db',
    current_step_sequence approval = Some seq
    /\ approve_step now new_id approval user comments ip db
       = (Ok (complete, approval'), db')
    /\ history db'
       = history db
         ++ [mkApprovalHistory new_id (ap_id approval) seq
               (approver_role (Core.fields st)) user "APPROVED" now None
               comments ip now].
Proof.
  intros Hst Hin Hfresh. unfold approve_step. rewrite Hst, Hin. simpl.
  assert (exists seq, current_step_sequence approval = Some seq) as [seq Hseq].
  { unfold get_current_step in Hst.
    destruct (workflow approval); [|done].
    destruct (current_step_sequence approval); [by eexists|done]. }
  exists seq. unfold mbind, M_bind.
  erewrite ApprovalHistory_objects_create_ok; [|done..].
  match goal with
  | |- context [advance_to_next_step now approval ?d] =>
      destruct (advance_to_next_step_history now approval d)
        as (Hh & b & a' & Hr);
      destruct (advance_to_next_step now approval d) as [r db'] eqn:Hadv
  end.
  simpl in Hh, Hr. subst r. eexists _, _, _. split; [done|].
  split; [reflexivity|]. by rewrite Hh.
Qed.

(** [reject] on an approval without a current step: the status is stored,
    the history row is refused for its NULL step_sequence. *)
Lemma reject_without_step (now : Time) (new_id : UUID) (self : Approval)
    (user : UUID) (comments : option string) (db : DB) :
  current_step_sequence self = None ->
  fst (reject now new_id self user comments db) = Raise IntegrityError
  /\ history (snd (reject now new_id self user comments db)) = history db.
Proof.
  intros Hnone. unfold reject, mbind, M_bind.
  rewrite Approval_save_saved. unfold ApprovalHistory_objects_create.
  simpl. by rewrite Hnone.
Qed.

(** [escalate] never passes an acting user. *)
Lemma escalate_kwargs_no_user (self : Approval) (role_name : string) :
  kw_approver_user (escalate_kwargs self role_name) = None
  /\ kw_action (escalate_kwargs self role_name) = "ESCALATED"
  /\ kw_step_sequence (escalate_kwargs self role_name)
     = current_step_sequence self.
Proof. done. Qed.

(** Hence, whatever the input, it leaves the history table as it was and
    never returns True. *)
Lemma escalate_writes_no_history (now : Time) (new_id : UUID)
    (self : Approval) (db : DB) :
  history (snd (escalate now new_id self db)) = history db
  /\ forall a, fst (escalate now new_id self db) <> Ok (true, a).
Proof.
  unfold escalate.
  destruct (get_current_step self db) as [st|]; [|done].
  destruct (escalation_role (Core.fields st)) as [role|]; [|done].
  destruct (roles db !! role) as [name|]; [|done].
  unfold mbind, M_bind. rewrite Approval_save_saved.
  by rewrite ApprovalHistory_objects_create_no_user.
Qed.

(** C5 (defect).  An approval at step 1, whose escalation role is set:
    [escalate] stores the status ESCALATED and then raises IntegrityError,
    because the history row it submits has no approver_user; no ESCALATED
    audit row is written. *)
Theorem escalate_audit_row_refused :
  let db := Examples.db_with Examples.approval_at_1 in
  let r := escalate 1000 "h-1" Examples.approval_at_1 db in
  Examples.step1 ∈ steps db
  /\ get_current_step Examples.approval_at_1 db = Some Examples.step1
  /\ escalation_role (Core.fields Examples.step1) = Some "role-director"
  /\ fst r = Raise IntegrityError
  /\ history (snd r) = []
  /\ (status <$> approvals (snd r) !! "ap-1") = Some "ESCALATED".
Proof. vm_compute. repeat split; try reflexivity. set_solver. Qed.

End audit.

(** ** Core: soft delete and restore *)
Section soft_delete.
Import Core SoftDelete.
Context {F : Type} (save_override : Table F -> BaseModel F -> result F).

Lemma save_deleted_stored (self row : BaseModel F) (f : F) (db : Table F) :
  db !! id self = Some row ->
  save_override db self = Ok f ->
  save_deleted save_override self db
  = (Ok (set_fields f self),
     <[id self := set_deleted (deleted_at self) (deleted_by self) row]> db).
Proof.
  intros Hrow Hok. unfold save_deleted, update_deleted_columns.
  rewrite Hok. simpl. by rewrite Hrow.
Qed.

(** C10.  For a stored instance of any concrete model whose [save] does not
    raise: [soft_delete(user_id)] sets deleted_at to the current time and
    deleted_by to user_id, writes these two columns of the row and no other,
    and leaves every other row alone, after which is_deleted is True;
    [restore] afterwards sets both back to None, is_deleted is False again,
    and for an instance that was not deleted the soft-delete state, and the
    table, are what they were before. *)
Theorem soft_delete_restore_round_trip
    (now : Time) (user_id : option UUID) (self row : BaseModel F)
    (db : Table F) (f1 f2 : F) :
  db !! id self = Some row ->
  save_override db (set_deleted (Some now) user_id self) = Ok f1 ->
  let deleted := set_fields f1 (set_deleted (Some now) user_id self) in
  let db1 := <[id self := set_deleted (Some now) user_id row]> db in
  save_override db1 (set_deleted None None deleted) = Ok f2 ->
  let restored := set_fields f2 (set_deleted None None deleted) in
  let db2 := <[id self := set_deleted None None row]> db in
  soft_delete save_override now user_id self db = (Ok deleted, db1)
  /\ deleted_at deleted = Some now
  /\ deleted_by deleted = user_id
  /\ is_deleted deleted = true
  /\ same_base_columns deleted self
  /\ (exists row1, db1 !! id self = Some row1
                   /\ deleted_at row1 = Some now
                   /\ deleted_by row1 = user_id
                   /\ same_but_deleted row1 row)
  /\ (forall k, k <> id self -> db1 !! k = db !! k)
  /\ restore save_override deleted db1 = (Ok restored, db2)
  /\ deleted_at restored = None
  /\ deleted_by restored = None
  /\ is_deleted restored = false
  /\ same_base_columns restored self
  /\ (exists row2, db2 !! id self = Some row2
                   /\ deleted_at row2 = None
                   /\ deleted_by row2 = None
                   /\ same_but_deleted row2 row)
  /\ (forall k, k <> id self -> db2 !! k = db !! k)
  /\ (is_deleted self = false ->
        is_deleted restored = is_deleted self
        /\ deleted_at restored = deleted_at self)
  /\ (deleted_at self = None -> deleted_by self = None ->
        set_fields (fields self) restored = self)
  /\ (deleted_at row = None -> deleted_by row = None -> db2 = db).
Proof.
  intros Hrow Hok1 deleted db1 Hok2 restored db2.
  assert (soft_delete save_override now user_id self db = (Ok deleted, db1))
    as Hsd.
  { unfold soft_delete. by erewrite save_deleted_stored. }
  assert (restore save_override deleted db1 = (Ok restored, db2)) as Hre.
  { unfold restore, save_deleted, update_deleted_columns.
    rewrite Hok2. simpl. unfold db1, db2.
    rewrite lookup_insert_eq. by rewrite insert_insert_eq. }
  subst db1 db2.
  repeat match goal with |- _ /\ _ => split end; try done.
  - exists (set_deleted (Some now) user_id row).
    split; [by apply lookup_insert_eq|]. done.
  - intros k Hk. by apply lookup_insert_ne.
  - exists (set_deleted None None row).
    split; [by apply lookup_insert_eq|]. done.
  - intros k Hk. by apply lookup_insert_ne.
  - intros Hlive. unfold is_deleted in *. simpl.
    by destruct (deleted_at self).
  - intros Hat Hby. destruct self. simpl in *. by subst.
  - intros Hat Hby. apply insert_id. rewrite Hrow.
    f_equal. destruct row. simpl in *. by subst.
Qed.

End soft_delete.

(** For a model that does not override [save], the instance itself changes
    in the soft-delete pair only. *)
Lemma soft_delete_plain_model {F : Type} (now : Time) (user_id : option UUID)
    (self row : Core.BaseModel F) (db : Core.Table F) :
  db !! Core.id self = Some row ->
  Core.soft_delete SoftDelete.no_override now user_id self db
  = (Ok (Core.set_deleted (Some now) user_id self),
     <[Core.id self := Core.set_deleted (Some now) user_id row]> db)
  /\ SoftDelete.same_but_deleted
       (Core.set_deleted (Some now) user_id self) self.
Proof.
  intros Hrow. split; [|done].
  unfold Core.soft_delete, Core.save_deleted, Core.update_deleted_columns.
  simpl. by rewrite Hrow.
Qed.

(** ** Procurement: reversing a stock movement *)
Section reversal.
Import Procurement Reversal.

Lemma StockMovement_save_derived_keeps (m : StockMovement) :
  let m' := StockMovement_save_derived m in
  sm_id m' = sm_id m
  /\ is_reversed m' = is_reversed m /\ reversed_by m' = reversed_by m
  /\ reversed_at m' = reversed_at m.
Proof.
  unfold StockMovement_save_derived.
  destruct (unit_cost m) as [c|]; [|done].
  by destruct (Decimal.truthy c && Decimal.truthy (quantity m)).
Qed.

(** C9.  [reverse_movement] raises ValidationError exactly when the
    movement is already flagged as reversed, and then changes nothing.
    Otherwise, for a stored movement and a fresh uuid, it inserts exactly one
    new movement, with from_location and to_location swapped and the same
    item, movement_type, quantity, uom, unit_cost, batch and serial_no, and
    in the row of the original it writes is_reversed, reversed_by and
    reversed_at and nothing else. *)
Theorem reverse_movement_spec
    (now : Time) (new_id : UUID) (self : StockMovement) (user : UUID)
    (db : Movements) :
  ((exists msg db', reverse_movement now new_id self user db
                    = (Raise (ValidationError msg), db'))
   <-> is_reversed self = true)
  /\ (is_reversed self = true ->
        exists msg, reverse_movement now new_id self user db
                    = (Raise (ValidationError msg), db))
  /\ (forall row,
        is_reversed self = false ->
        db !! new_id = None ->
        db !! sm_id self = Some row ->
        exists reverse self' db',
          reverse_movement now new_id self user db = (Ok (reverse, self'), db')
          /\ db' !! new_id = Some reverse
          /\ sm_id reverse = new_id
          /\ mirrors reverse self
          /\ is_reversed reverse = false
          /\ (exists row', db' !! sm_id self = Some row'
                           /\ is_reversed row' = true
                           /\ reversed_by row' = Some user
                           /\ reversed_at row' = Some now
                           /\ same_but_reversal row' row)
          /\ (forall k, k <> new_id -> k <> sm_id self -> db' !! k = db !! k)
          /\ size db' = S (size db)
          /\ is_reversed self' = true
          /\ reversed_by self' = Some user
          /\ reversed_at self' = Some now).
Proof.
  assert (is_reversed self = true ->
          exists msg, reverse_movement now new_id self user db
                      = (Raise (ValidationError msg), db)) as Hraise.
  { intros Hrev. unfold reverse_movement. rewrite Hrev. by eexists. }
  split; [|split; [done|]].
  - split; [|intros Hrev; destruct (Hraise Hrev) as [msg Hr]; by eexists _, _].
    intros (msg & db' & Hr). destruct (is_reversed self) eqn:Hrev; [done|].
    exfalso. revert Hr. unfold reverse_movement. rewrite Hrev.
    unfold mbind, M_bind, StockMovement_objects_create,
      StockMovement_save_reversal.
    destruct (db !! new_id); cbv beta iota; [by intros [=]|].
    match goal with
    | |- context [<[new_id := ?r]> db !! ?k] =>
        destruct (<[new_id := r]> db !! k)
    end; cbv beta iota; by intros [=].
  - intros row Hrev Hfresh Hrow.
    assert (new_id <> sm_id self) as Hne by (intros ->; congruence).
    unfold reverse_movement. rewrite Hrev.
    unfold mbind, M_bind, StockMovement_objects_create. rewrite Hfresh.
    set (kw := mkMovementKwargs _ _ _ _ _ _ _ _ _ _ _ _ _ _ _ _).
    set (reverse := StockMovement_save_derived _).
    unfold StockMovement_save_reversal.
    set (self1 := set_reversal true (Some user) (Some now) self).
    destruct (StockMovement_save_derived_keeps self1)
      as (Hid & Hflag & Hby & Hat).
    rewrite Hid. simpl sm_id.
    rewrite lookup_insert_ne by done. rewrite Hrow.
    eexists _, _, _. split; [reflexivity|].
    rewrite Hflag, Hby, Hat. simpl.
    assert (sm_id reverse = new_id /\ mirrors reverse self
            /\ is_reversed reverse = false) as (Hrid & Hmir & Hrrev).
    { unfold reverse, StockMovement_save_derived, mirrors. simpl.
      destruct (unit_cost self) as [c|]; [|done].
      by destruct (Decimal.truthy c && Decimal.truthy (quantity self)). }
    repeat match goal with |- _ /\ _ => split end; try done.
    + rewrite lookup_insert_ne by done. by rewrite lookup_insert_eq.
    + eexists. split; [by rewrite lookup_insert_eq|]. done.
    + intros k Hk1 Hk2. by rewrite !lookup_insert_ne.
    + rewrite map_size_insert_Some.
      * by rewrite map_size_insert_None.
      * rewrite lookup_insert_ne by done. by rewrite Hrow.
Qed.

(** On the instance, the method leaves the three reversal attributes set
    and the derived attributes as [StockMovement.save] recomputes them; for
    an instance whose derived attributes are up to date nothing else
    differs. *)
Lemma reverse_movement_instance
    (now : Time) (new_id : UUID) (self : StockMovement) (user : UUID)
    (db : Movements) (reverse self' : StockMovement) (db' : Movements) :
  reverse_movement now new_id self user db = (Ok (reverse, self'), db') ->
  self' = StockMovement_save_derived
            (set_reversal true (Some user) (Some now) self)
  /\ (StockMovement_save_derived self = self ->
        self' = set_reversal true (Some user) (Some now) self).
Proof.
  unfold reverse_movement. destruct (is_reversed self); [by intros [=]|].
  unfold mbind, M_bind, StockMovement_objects_create.
  destruct (db !! new_id); cbv beta iota; [by intros [=]|].
  unfold StockMovement_save_reversal.
  match goal with
  | |- context [<[new_id := ?r]> db !! ?k] =>
      destruct (<[new_id := r]> db !! k)
  end; cbv beta iota; [|by intros [=]].
  intros [= <- <- <-]. split; [done|].
  intros Hfix. rewrite <- Hfix at 2.
  unfold StockMovement_save_derived. simpl.
  destruct (unit_cost self) as [c|]; [|done].
  by destruct (Decimal.truthy c && Decimal.truthy (quantity self)).
Qed.

End reversal.

(** ** Decimal arithmetic *)
Section decimal_facts.
Import Decimal.

Lemma decimal_fix_small (c e : Z) : Z.abs c < 10 ^ prec -> fix_ (mk c e) = mk c e.
Proof.
  intros Hc. unfold fix_. simpl.
  by rewrite (proj2 (Z.ltb_lt _ _) Hc).
Qed.

Lemma decimal_add_same_expo (a b e : Z) :
  Z.abs (a + b) < 10 ^ prec -> add (mk a e) (mk b e) = mk (a + b) e.
Proof.
  intros Hc. unfold add, align. simpl.
  rewrite Z.min_id, Z.sub_diag, Z.pow_0_r, !Z.mul_1_r. by apply decimal_fix_small.
Qed.

Lemma decimal_add_zero_l (c e : Z) :
  e <= 0 -> Z.abs c < 10 ^ prec -> add zero (mk c e) = mk c e.
Proof.
  intros He Hc. unfold add, align, zero. simpl.
  rewrite Z.min_r by done. rewrite Z.sub_diag, Z.pow_0_r, Z.mul_1_r.
  simpl. by apply decimal_fix_small.
Qed.






(** Division signals only on a zero divisor. *)
Lemma decimal_div_defined (a b : t) : coef b <> 0 -> exists q, div a b = Some q.
Proof.
  intros Hb. unfold div. rewrite (proj2 (Z.eqb_neq _ _) Hb).
  destruct (coef a =? 0); [by eexists|].
  destruct (0 <=? _); simpl.
  - destruct (_ =? 0); [|by eexists].
    destruct (strip_zeros _ _ _). by eexists.
  - destruct (_ =? 0); [|by eexists].
    destruct (strip_zeros _ _ _). by eexists.
Qed.

Lemma decimal_ltb_zero_coef (a : t) : ltb zero a = true -> coef a <> 0.
Proof.
  unfold ltb, align, zero. simpl. intros H%Z.ltb_lt Heq.
  rewrite Heq in H. lia.
Qed.

End decimal_facts.

(** ** Assets: depreciation *)
Section depreciation.
Import Assets Valuation.


(** The guard: without a purchase date, or with a price or a useful life
    that is NULL or zero, nothing is computed and nothing changes. *)
Lemma calculate_depreciation_guard (today : Date.t) (self : Asset) :
  purchase_date self = None
  \/ purchase_price self = None
  \/ (exists c, purchase_price self = Some c /\ Decimal.coef c = 0)
  \/ useful_life_years self = None
  \/ useful_life_years self = Some 0 ->
  calculate_depreciation today self = Ok self.
Proof.
  unfold calculate_depreciation.
  intros [Hd|[Hp|[(c & Hp & Hc)|[Hl|Hl]]]].
  - by rewrite Hd.
  - rewrite Hp. by destruct (purchase_date self).
  - rewrite Hp. destruct (purchase_date self); [|done].
    destruct (useful_life_years self); [|done].
    unfold Decimal.truthy. rewrite Hc. done.
  - rewrite Hl. destruct (purchase_date self); [|done].
    by destruct (purchase_price self).
  - rewrite Hl. destruct (purchase_date self); [|done].
    destruct (purchase_price self); [|done].
    simpl. by rewrite orb_true_r.
Qed.






(** Within the precision of the context, a year's step is the product of
    the remaining value and (1 - rate). *)
Lemma year_step_is_product (rate remaining : Decimal.t) :
  Decimal.expo rate <= 0 ->
  Z.abs (Decimal.coef remaining * Decimal.coef rate) < 10 ^ Decimal.prec ->
  Z.abs (10 ^ (- Decimal.expo rate) - Decimal.coef rate) < 10 ^ Decimal.prec ->
  Z.abs (Decimal.coef remaining
         * (10 ^ (- Decimal.expo rate) - Decimal.coef rate))
  < 10 ^ Decimal.prec ->
  year_step rate remaining
  = Decimal.mul remaining (Decimal.sub (Decimal.of_int 1) rate).
Proof.
  destruct rate as [ct et], remaining as [cr er]. simpl.
  intros Het H1 H2 H3.
  assert (Decimal.sub (Decimal.of_int 1) (Decimal.mk ct et)
          = Decimal.mk (10 ^ (- et) - ct) et) as Hone.
  { unfold Decimal.sub, Decimal.align. simpl.
    rewrite Z.min_r by done. rewrite Z.sub_diag, Z.pow_0_r, Z.mul_1_r.
    replace (0 - et) with (- et) by lia. rewrite Z.mul_1_l.
    by apply decimal_fix_small. }
  rewrite Hone. unfold year_step, Decimal.mul. simpl.
  rewrite (decimal_fix_small (cr * ct)) by done.
  rewrite (decimal_fix_small (cr * (10 ^ (- et) - ct))) by done.
  unfold Decimal.sub, Decimal.align. simpl.
  rewrite Z.min_r by lia.
  replace (er - (er + et)) with (- et) by lia.
  rewrite Z.sub_diag, Z.pow_0_r, Z.mul_1_r.
  replace (cr * 10 ^ (- et) - cr * ct) with (cr * (10 ^ (- et) - ct)) by lia.
  by apply decimal_fix_small.
Qed.


End depreciation.

(** ** Procurement: stock valuation *)
Section valuation.
Import Procurement Valuation.

Lemma sum_coef_permutation (l l' : list Decimal.t) :
  l ≡ₚ l' ->
  foldr Z.add 0 (map Decimal.coef l) = foldr Z.add 0 (map Decimal.coef l').
Proof.
  induction 1 as [|x l l' _ IH|x y l|l l' l'' _ IH1 _ IH2]; simpl; lia.
Qed.

Lemma exact_sum_permutation (places : Z) (l l' : list Decimal.t) :
  l ≡ₚ l' -> exact_sum places l = exact_sum places l'.
Proof.
  intros Hp. unfold exact_sum.
  destruct l as [|x l], l' as [|y l']; try done.
  - by apply Permutation_nil_cons in Hp.
  - symmetry in Hp. by apply Permutation_nil_cons in Hp.
  - by rewrite (sum_coef_permutation _ _ Hp).
Qed.

(** Adding stored decimals from the left never leaves the precision of the
    context, so every partial sum is exact. *)
Lemma fold_add_exact (places : Z) (l : list Decimal.t) (s : Z) :
  Forall (stored_decimal places) l ->
  Z.abs s + Z.of_nat (length l) * 10 ^ 15 <= 10 ^ 28 ->
  fold_left Decimal.add l (Decimal.mk s (- places))
  = Decimal.mk (s + foldr Z.add 0 (map Decimal.coef l)) (- places).
Proof.
  revert s. induction l as [|[c e] l IH]; intros s Hall Hb; simpl.
  - by rewrite Z.add_0_r.
  - apply Forall_cons in Hall as [[He Hc] Hall]. simpl in He, Hc. subst e.
    rewrite length_cons, Nat2Z.inj_succ in Hb.
    rewrite decimal_add_same_expo by (unfold Decimal.prec; lia).
    rewrite IH; [f_equal; lia|done|lia].
Qed.

Lemma pysum_exact (places : Z) (l : list Decimal.t) :
  0 <= places ->
  Forall (stored_decimal places) l ->
  Z.of_nat (length l) <= 10 ^ 13 ->
  Decimal.pysum l = exact_sum places l.
Proof.
  intros Hp Hall Hlen. unfold Decimal.pysum, exact_sum.
  destruct l as [|[c e] l]; [done|]. simpl fold_left.
  pose proof Hall as Hall'.
  apply Forall_cons in Hall' as [[He Hc] Hl]. simpl in He, Hc. subst e.
  rewrite length_cons, Nat2Z.inj_succ in Hlen.
  rewrite decimal_add_zero_l by (unfold Decimal.prec; lia).
  rewrite fold_add_exact; [done|done|lia].
Qed.

Lemma valuation_batches_elem (item : UUID) (location : option UUID)
    (rows : list StockBatch) (b : StockBatch) :
  b ∈ valuation_batches item location rows
  <-> b ∈ rows /\ sb_item b = item
      /\ Decimal.ltb Decimal.zero (qty_on_hand b) = true
      /\ sb_status b = "ACTIVE"
      /\ (forall loc, location = Some loc -> sb_location b = loc).
Proof.
  unfold valuation_batches. destruct location as [loc|].
  - rewrite !list_elem_of_filter. split.
    + intros (Hloc & (Hi & Hq & Hs) & Hin). repeat split; try done.
      by intros ? [= <-].
    + intros (Hin & Hi & Hq & Hs & Hloc). repeat split; try done.
      by apply Hloc.
  - rewrite list_elem_of_filter. split.
    + intros ((Hi & Hq & Hs) & Hin). repeat split; done.
    + intros (Hin & Hi & Hq & Hs & _). repeat split; done.
Qed.

Lemma valuation_batches_length (item : UUID) (location : option UUID)
    (rows : list StockBatch) :
  (length (valuation_batches item location rows) <= length rows)%nat.
Proof.
  unfold valuation_batches. destruct location as [loc|].
  - etrans; apply length_filter.
  - apply length_filter.
Qed.

Lemma valuation_of_exact (bs : list StockBatch) :
  Forall stored_batch bs ->
  Z.of_nat (length bs) <= 10 ^ 13 ->
  Decimal.pysum (map qty_on_hand bs) = exact_sum 3 (map qty_on_hand bs)
  /\ Decimal.pysum (map sb_total_value bs)
     = exact_sum 2 (map sb_total_value bs).
Proof.
  intros Hall Hlen. split; apply pysum_exact; try done;
    try (by rewrite length_map);
    apply Forall_fmap; eapply Forall_impl; try exact Hall;
    by intros b [? ?].
Qed.

(** C4.  [get_item_valuation] sums the item's ACTIVE batches with a
    positive quantity on hand (at the location, when one is given):
    'quantity' is the sum of their qty_on_hand, 'value' the sum of their
    total_value, 'avg_cost' is value / quantity when quantity > 0 and 0
    otherwise; summing the batches in any other order than the FIFO one
    gives the same result. *)
Theorem get_item_valuation_fifo_independent
    (item : UUID) (location : option UUID) (rows bs : list StockBatch) :
  Forall stored_batch rows ->
  Z.of_nat (length rows) <= 10 ^ 13 ->
  bs ≡ₚ valuation_batches item location rows ->
  exists v,
    get_item_valuation item location rows = Ok v
    /\ valuation_of bs = Ok v
    /\ (forall b, b ∈ bs
                  <-> b ∈ rows /\ sb_item b = item
                      /\ Decimal.ltb Decimal.zero (qty_on_hand b) = true
                      /\ sb_status b = "ACTIVE"
                      /\ (forall loc, location = Some loc ->
                                      sb_location b = loc))
    /\ v_quantity v = Decimal.pysum (map qty_on_hand bs)
    /\ v_quantity v = exact_sum 3 (map qty_on_hand bs)
    /\ v_value v = Decimal.pysum (map sb_total_value bs)
    /\ v_value v = exact_sum 2 (map sb_total_value bs)
    /\ (Decimal.ltb Decimal.zero (v_quantity v) = true ->
          Decimal.div (v_value v) (v_quantity v) = Some (v_avg_cost v))
    /\ (Decimal.ltb Decimal.zero (v_quantity v) = false ->
          v_avg_cost v = Decimal.zero).
Proof.
  intros Hall Hlen Hperm.
  set (vb := valuation_batches item location rows) in *.
  assert (Forall stored_batch vb) as Hvb.
  { apply Forall_forall. intros b [Hb _]%valuation_batches_elem.
    rewrite Forall_forall in Hall. by apply Hall. }
  assert (Z.of_nat (length vb) <= 10 ^ 13) as Hvlen.
  { pose proof (valuation_batches_length item location rows). fold vb in H.
    lia. }
  assert (merge_sort created_at_le vb ≡ₚ bs) as Hsort
    by by rewrite merge_sort_Permutation.
  assert (Forall stored_batch bs /\ Z.of_nat (length bs) <= 10 ^ 13)
    as [Hbs Hblen] by by rewrite Hperm.
  assert (Forall stored_batch (merge_sort created_at_le vb)
          /\ Z.of_nat (length (merge_sort created_at_le vb)) <= 10 ^ 13)
    as [Hss Hslen] by by rewrite Hsort.
  destruct (valuation_of_exact _ Hbs Hblen) as [Hq Hv].
  destruct (valuation_of_exact _ Hss Hslen) as [Hq' Hv'].
  assert (valuation_of (merge_sort created_at_le vb) = valuation_of bs) as Heq.
  { unfold valuation_of. rewrite Hq, Hv, Hq', Hv'.
    by rewrite (exact_sum_permutation 3 _ _ (fmap_Permutation _ _ _ Hsort)),
               (exact_sum_permutation 2 _ _ (fmap_Permutation _ _ _ Hsort)). }
  unfold get_item_valuation. fold vb. rewrite Heq.
  unfold valuation_of.
  destruct (Decimal.ltb Decimal.zero (Decimal.pysum (map qty_on_hand bs)))
    eqn:Hpos.
  - destruct (decimal_div_defined
                (Decimal.pysum (map sb_total_value bs))
                (Decimal.pysum (map qty_on_hand bs)))
      as [avg Havg]; [by apply decimal_ltb_zero_coef|].
    rewrite Havg. eexists. split; [done|]. split; [done|]. simpl.
    split; [intros b; rewrite Hperm; apply valuation_batches_elem|].
    repeat split; try done. by rewrite Hpos.
  - eexists. split; [done|]. split; [done|]. simpl.
    split; [intros b; rewrite Hperm; apply valuation_batches_elem|].
    repeat split; try done. by rewrite Hpos.
Qed.

End valuation.

(** * Instances and counterexamples *)
Section instances.
Import Approvals Spec Examples.

Lemma advance_to_next_step_sequential_witness :
  live_sequences wf1 (db_with approval_new) <> []
  /\ (exists a' db',
        advanced 1000 approval_new (db_with approval_new) true a' db'
        /\ current_step_sequence a' = Some 1
        /\ status a' = "IN_PROGRESS"
        /\ completed_at a' = None)
  /\ (exists a' db',
        advanced 1000 approval_at_1 (db_with approval_at_1) true a' db'
        /\ current_step_sequence a' = Some 2
        /\ status a' = "IN_PROGRESS"
        /\ completed_at a' = None)
  /\ (exists a' db',
        advanced 1000 approval_at_2 (db_with approval_at_2) false a' db'
        /\ current_step_sequence a' = Some 2
        /\ status a' = "APPROVED"
        /\ completed_at a' = Some 1000).
Proof.
  assert (forall a, live_sequences wf1 (db_with a) = [2; 1]) as Hlive
    by reflexivity.
  assert (forall a, live_sequences wf1 (db_with a) <> []) as Hne
    by (intros a; rewrite Hlive; discriminate).
  split; [apply Hne|]. split; [|split].
  - destruct (proj2 (advance_to_next_step_sequential 1000 approval_new
                       (db_with approval_new)) wf1 eq_refl (Hne _))
      as (s & a' & db' & [Hin Hmin] & Hadv & Hseq & Hst & Hdone).
    exists a', db'. split; [exact Hadv|]. split; [|by split].
    rewrite Hseq. f_equal. rewrite Hlive in Hin, Hmin.
    assert (s <= 1) by (apply Hmin; right; left).
    apply elem_of_cons in Hin as [->|Hin]; [lia|].
    by apply list_elem_of_singleton in Hin.
  - destruct (proj1 (proj2 (advance_to_next_step_sequential 1000 approval_at_1
                              (db_with approval_at_1)) wf1 eq_refl (Hne _)))
      as (s & a' & db' & [Hin _] & Hadv & Hseq & Hst & Hdone).
    { exists 2. rewrite Hlive. split; [by left|lia]. }
    exists a', db'. split; [exact Hadv|]. split; [|by split].
    rewrite Hseq. f_equal. rewrite Hlive in Hin.
    by apply list_elem_of_singleton in Hin.
  - apply (proj2 (advance_to_next_step_sequential 1000 approval_at_2
                    (db_with approval_at_2)) wf1 eq_refl (Hne _)).
    intros t Ht. rewrite Hlive in Ht.
    apply elem_of_cons in Ht as [->|Ht]; [lia|].
    apply list_elem_of_singleton in Ht. lia.
Defined.






Lemma approve_step_unauthorised_atomic_witness :
  (exists st, get_current_step approval_at_1 (db_with approval_at_1) = Some st
              /\ ~ stated_approver "u-carol" st (db_with approval_at_1))
  /\ exists msg,
       approve_step 1000 "h-1" approval_at_1 "u-carol" None None
                    (db_with approval_at_1)
       = (Raise (ValidationError msg), db_with approval_at_1).
Proof.
  assert (exists st,
             get_current_step approval_at_1 (db_with approval_at_1) = Some st
             /\ ~ stated_approver "u-carol" st (db_with approval_at_1)) as Hno.
  { exists step1. split; [reflexivity|].
    intros (x & _ & Hid & _ & ur & Hur & Hu & _).
    apply list_elem_of_singleton in Hur. subst ur. simpl in Hu.
    rewrite <- Hu in Hid. discriminate Hid. }
  split; [exact Hno|].
  apply approve_step_unauthorised_atomic. right. exact Hno.
Defined.

Lemma pr_approval_creation_idempotent_witness :
  (length (pr_approvals "pr-1" db_empty) <= 1)%nat
  /\ (length (pr_approvals "pr-1"
                (pr_saves [(10%Z, "ap-1", purchase_request "SUBMITTED");
                           (20%Z, "ap-2", purchase_request "SUBMITTED");
                           (30%Z, "ap-3", purchase_request "APPROVED");
                           (40%Z, "ap-4", purchase_request "SUBMITTED")]
                          db_empty)) <= 1)%nat
  /\ auto_create_pr_approval 50 "ap-5" (purchase_request "DRAFT") db_empty
     = (Ok tt, db_empty).
Proof.
  assert (length (pr_approvals "pr-1" db_empty) <= 1)%nat as H0
    by (vm_compute; lia).
  split; [exact H0|]. split.
  - exact (proj1 pr_approval_creation_idempotent "pr-1" _ db_empty H0).
  - apply (proj2 (proj2 pr_approval_creation_idempotent)). discriminate.
Defined.

End instances.

Section more_instances.
Import Assets Procurement Valuation Reversal SoftDelete Examples.


(** The figures of that asset on 2023-01-01: 1096 days, 1800.00 a year. *)
Example straight_line_figures :
  depreciated today asset_straight_line
    (Decimal.mk 5401232032854209445585215606 (-24))
    (Decimal.mk 4598767967145790554414784394 (-24)).
Proof. eexists. split; [vm_compute; reflexivity|]. by repeat split. Qed.



(** Three whole years at 0.4: 10000.00 -> 6000.000 -> 3600.0000 ->
    2160.00000. *)
Example declining_balance_figures :
  depreciated today asset_declining
    (Decimal.mk 784000000 (-5)) (Decimal.mk 216000000 (-5)).
Proof. eexists. split; [vm_compute; reflexivity|]. by repeat split. Qed.


Lemma get_item_valuation_fifo_independent_witness :
  Forall stored_batch batches
  /\ exists v,
       get_item_valuation "item-1" (Some "loc-A") batches = Ok v
       /\ valuation_of [mk_batch "b-3" "loc-A" 1500 375 "ACTIVE" 30;
                        mk_batch "b-1" "loc-A" 2500 625 "ACTIVE" 10] = Ok v
       /\ v_quantity v = Decimal.mk 4000 (-3)
       /\ v_value v = Decimal.mk 1000 (-2)
       /\ v_avg_cost v = Decimal.mk 25 (-1).
Proof.
  assert (Forall stored_batch batches) as Hall.
  { repeat constructor; simpl; lia. }
  split; [exact Hall|].
  destruct (get_item_valuation_fifo_independent "item-1" (Some "loc-A")
              batches
              [mk_batch "b-3" "loc-A" 1500 375 "ACTIVE" 30;
               mk_batch "b-1" "loc-A" 2500 625 "ACTIVE" 10] Hall)
    as (v & Hget & Hof & _ & _ & Hq & _ & Hv & Havg & _).
  - simpl. lia.
  - reflexivity.
  - exists v. split; [exact Hget|]. split; [exact Hof|].
    split; [exact Hq|]. split; [exact Hv|].
    assert (Decimal.div (Decimal.mk 1000 (-2)) (Decimal.mk 4000 (-3))
            = Some (Decimal.mk 25 (-1))) as Hdiv by (vm_compute; reflexivity).
    rewrite Hq, Hv in Havg. specialize (Havg eq_refl).
    change (exact_sum 3 _) with (Decimal.mk 4000 (-3)) in Havg.
    change (exact_sum 2 _) with (Decimal.mk 1000 (-2)) in Havg.
    rewrite Hdiv in Havg. by injection Havg as <-.
Defined.

Lemma reverse_movement_spec_witness :
  is_reversed movement = false
  /\ movements !! "m-2" = None
  /\ movements !! sm_id movement = Some movement
  /\ exists reverse self' db',
       reverse_movement 500 "m-2" movement "u-bob" movements
       = (Ok (reverse, self'), db')
       /\ db' !! "m-2" = Some reverse
       /\ mirrors reverse movement
       /\ (exists row', db' !! "m-1" = Some row'
                        /\ is_reversed row' = true
                        /\ reversed_by row' = Some "u-bob"
                        /\ reversed_at row' = Some 500
                        /\ same_but_reversal row' movement)
       /\ size db' = 2%nat.
Proof.
  split; [reflexivity|]. split; [reflexivity|]. split; [reflexivity|].
  destruct (proj2 (proj2 (reverse_movement_spec 500 "m-2" movement "u-bob"
                            movements))
              movement eq_refl eq_refl eq_refl)
    as (reverse & self' & db' & Hr & Hnew & _ & Hmir & _ & Hrow & _ & Hsize & _).
  exists reverse, self', db'. split; [exact Hr|]. split; [exact Hnew|].
  split; [exact Hmir|]. split; [exact Hrow|]. exact Hsize.
Defined.

Lemma soft_delete_restore_round_trip_witness :
  companies !! "c-1" = Some company
  /\ Core.soft_delete no_override 900 (Some "u-alice") company companies
     = (Ok (Core.set_deleted (Some 900) (Some "u-alice") company),
        <["c-1" := Core.set_deleted (Some 900) (Some "u-alice") company]>
          companies)
  /\ Core.restore no_override
       (Core.set_deleted (Some 900) (Some "u-alice") company)
       (<["c-1" := Core.set_deleted (Some 900) (Some "u-alice") company]>
          companies)
     = (Ok company, <["c-1" := company]> companies)
  /\ <["c-1" := company]> companies = companies.
Proof.
  split; [reflexivity|].
  destruct (soft_delete_restore_round_trip no_override 900 (Some "u-alice")
              company company companies "PDL Group" "PDL Group"
              eq_refl eq_refl eq_refl)
    as (Hsd & _ & _ & _ & _ & _ & _ & Hre & _ & _ & _ & _ & _ & _ & _ & _ & Hid).
  split; [exact Hsd|]. split; [exact Hre|]. exact (Hid eq_refl eq_refl).
Defined.

End more_instances.

(** ** The Decimal and date models on known values *)

(** [Decimal(1) / Decimal(3)], [Decimal(2) / Decimal(3)],
    [Decimal('1000.00') / Decimal(5)] and [date(2025, 3, 1).toordinal()]. *)
Example decimal_div_1_3 :
  Decimal.div (Decimal.of_int 1) (Decimal.of_int 3)
  = Some (Decimal.mk 3333333333333333333333333333 (-28)).
Proof. vm_compute. reflexivity. Qed.

Example decimal_div_2_3 :
  Decimal.div (Decimal.of_int 2) (Decimal.of_int 3)
  = Some (Decimal.mk 6666666666666666666666666667 (-28)).
Proof. vm_compute. reflexivity. Qed.

Example decimal_div_exact :
  Decimal.div (Decimal.mk 100000 (-2)) (Decimal.of_int 5)
  = Some (Decimal.mk 20000 (-2)).
Proof. vm_compute. reflexivity. Qed.

Example date_ordinal : Date.toordinal (Date.mk 2025 3 1) = 739311.
Proof. vm_compute. reflexivity. Qed.

(** ** Approvals: choosing a workflow *)
Section selection.
Import Approvals Spec Selection Workflows.

Lemma string_compare_trans (s1 s2 s3 : string) :
  String.compare s1 s2 <> Gt -> String.compare s2 s3 <> Gt ->
  String.compare s1 s3 <> Gt.
Proof.
  revert s2 s3. induction s1 as [|a s1 IH]; intros [|b s2] [|c s3];
    simpl; try done.
  unfold Ascii.compare.
  destruct (N.compare_spec (Ascii.N_of_ascii a) (Ascii.N_of_ascii b)) as [Hab|Hab|Hab];
    destruct (N.compare_spec (Ascii.N_of_ascii b) (Ascii.N_of_ascii c)) as [Hbc|Hbc|Hbc];
    try done.
  - rewrite Hab, Hbc, N.compare_refl. apply IH.
  - intros _ _. rewrite Hab. by apply N.compare_lt_iff in Hbc as ->.
  - intros _ _. rewrite <- Hbc. by apply N.compare_lt_iff in Hab as ->.
  - intros _ _.
    assert (Ascii.N_of_ascii a < Ascii.N_of_ascii c)%N as Hac by lia.
    by apply N.compare_lt_iff in Hac as ->.
Qed.

#[local] Instance workflow_name_le_trans : Transitive workflow_name_le.
Proof.
  intros a b c. unfold workflow_name_le, String.leb. intros Hab Hbc.
  pose proof (string_compare_trans (workflow_name (Core.fields a))
                (workflow_name (Core.fields b))
                (workflow_name (Core.fields c))) as Ht.
  destruct (String.compare (workflow_name (Core.fields a))
              (workflow_name (Core.fields b))); try done;
    destruct (String.compare (workflow_name (Core.fields b))
                (workflow_name (Core.fields c))); try done;
    destruct (String.compare (workflow_name (Core.fields a))
                (workflow_name (Core.fields c))); try done;
    exfalso; by apply Ht.
Qed.

#[local] Instance workflow_name_le_total : Total workflow_name_le.
Proof. intros a b. unfold workflow_name_le. apply String.leb_total. Qed.

Lemma find_head_filter {A : Type} (p : A -> bool) (l : list A) :
  List.find p l = head (filter (fun x => p x = true) l).
Proof.
  induction l as [|x l IH]; [done|]. simpl. rewrite filter_cons.
  destruct (decide (p x = true)) as [E|E].
  - by rewrite E.
  - apply not_true_is_false in E. by rewrite E.
Qed.

Lemma filter_all {A : Type} (P : A -> Prop) `{!forall x, Decision (P x)}
    (l : list A) :
  (forall x, x ∈ l -> P x) -> filter P l = l.
Proof.
  induction l as [|x l IH]; intros Hall; [done|].
  rewrite filter_cons_True by (apply Hall; left).
  f_equal. apply IH. intros y Hy. apply Hall. by right.
Qed.

(** [create_approval] either finds no applicable workflow and raises, or
    goes on with the chosen one. *)
Lemma create_approval_selects (now : Time) (new_id : UUID) (et : string)
    (eid : UUID) (num : option string) (req : option UUID)
    (value : option Decimal.t) (rem : option string) (db : DB) :
  ((forall w, w ∈ workflows db -> ~ applicable et value w)
   /\ create_approval now new_id et eid num req value rem db
      = (Raise (ValidationError ("No active workflow found for " +:+ et)), db))
  \/ (exists w, chosen et value db w
      /\ create_approval now new_id et eid num req value rem db
         = create_with now new_id et eid num req value rem w db).
Proof.
  unfold create_approval.
  set (base := filter (fun w => wf_entity_type (Core.fields w) = et
                                /\ wf_is_active (Core.fields w) = true
                                /\ Core.deleted_at w = None) (workflows db)).
  assert (match value with
          | Some v =>
              if Decimal.truthy v
              then filter (fun w => applies_to_value w v = true)
                          (merge_sort workflow_name_le base)
              else merge_sort workflow_name_le base
          | None => merge_sort workflow_name_le base
          end = filter (fits value) (merge_sort workflow_name_le base)) as ->.
  { destruct value as [v|].
    - destruct (Decimal.truthy v) eqn:Ht.
      + apply list_filter_iff. intros w. unfold fits. by rewrite Ht.
      + symmetry. apply filter_all. intros w _. unfold fits. by rewrite Ht.
    - symmetry. by apply filter_all. }
  assert (forall w, w ∈ base /\ fits value w
                    <-> w ∈ workflows db /\ applicable et value w) as Hbase.
  { intros w. unfold base, applicable. rewrite list_elem_of_filter. tauto. }
  rewrite find_head_filter, list_filter_filter.
  destruct (head (filter (fun w => is_default (Core.fields w) = true
                                   /\ fits value w) _)) as [w|] eqn:Hdef.
  - apply (first_of_ordered_filter workflow_name_le) in Hdef
      as ([Hd Hfit] & Hin & Hmin).
    right. exists w. split; [|done].
    destruct (proj1 (Hbase w) (conj Hin Hfit)) as [Hw Happ].
    split; [done|]. split; [done|].
    intros c Hc Hcapp. split; [done|]. intros Heq.
    apply Hmin; [by apply Hbase|]. split; [congruence|]. apply Hcapp.
  - pose proof (first_of_ordered_filter_None workflow_name_le _ _ Hdef)
      as Hnodef.
    destruct (head (filter (fits value) _)) as [w|] eqn:Hhd.
    + apply (first_of_ordered_filter workflow_name_le) in Hhd
        as (Hfit & Hin & Hmin).
      right. exists w. split; [|done].
      destruct (proj1 (Hbase w) (conj Hin Hfit)) as [Hw Happ].
      split; [done|]. split; [done|].
      intros c Hc Hcapp.
      destruct (proj2 (Hbase c) (conj Hc Hcapp)) as [Hcb Hcf].
      split.
      * intros Hcd. exfalso. by apply (Hnodef c Hcb).
      * intros _. by apply Hmin.
    + pose proof (first_of_ordered_filter_None workflow_name_le _ _ Hhd)
        as Hnone.
      left. split; [|done]. intros w Hw Happ.
      destruct (proj2 (Hbase w) (conj Hw Happ)) as [Hwb Hwf].
      by apply (Hnone w Hwb).
Qed.

(** Once the workflow is chosen, the Approval table refuses the row (no
    requester, or the key is taken), or the row is stored and advanced to
    its first step. *)
Lemma create_with_outcome (now : Time) (new_id : UUID) (et : string)
    (eid : UUID) (num : option string) (req : option UUID)
    (value : option Decimal.t) (rem : option string) (w : ApprovalWorkflow)
    (db : DB) :
  ((req = None \/ is_Some (approvals db !! new_id))
   /\ create_with now new_id et eid num req value rem w db
      = (Raise IntegrityError, db))
  \/ exists requester,
       req = Some requester /\ approvals db !! new_id = None
       /\ let obj := mkApproval new_id et eid num (Some (Core.id w)) None
                       requester now "PENDING" None rem
                       (if value_truthy value then value else None) now now in
          let db1 := with_approvals (<[new_id := obj]> (approvals db)) db in
          create_with now new_id et eid num req value rem w db
          = ('(_, a) ← advance_to_next_step now obj; mret a) db1.
Proof.
  unfold create_with, Approval_objects_create.
  destruct req as [requester|]; [|left; split; [by left|done]].
  destruct (approvals db !! new_id) eqn:Hfree.
  - left. split; [by right|]. unfold mbind, M_bind. by rewrite Hfree.
  - right. exists requester. split; [done|]. split; [done|].
    unfold mbind at 1. unfold M_bind at 1. by rewrite Hfree.
Qed.

Lemma advance_without_steps (now : Time) (self : Approval) (db : DB)
    (w : UUID) :
  workflow self = Some w ->
  current_step_sequence self = None ->
  live_sequences w db = [] ->
  advance_to_next_step now self db = (Ok (false, self), db).
Proof.
  intros Hw Hc Hnil. unfold advance_to_next_step. rewrite Hw, Hc.
  unfold get_steps. unfold live_sequences in Hnil.
  apply fmap_nil_inv in Hnil. by rewrite Hnil.
Qed.

Lemma smallest_unique (s t : Z) (l : list Z) :
  smallest s l -> smallest t l -> s = t.
Proof. intros [Hs Hsmin] [Ht Htmin]. apply Hsmin in Ht. apply Htmin in Hs. lia. Qed.

(** The approval [create_approval] returns, and the database it leaves. *)
Lemma create_with_returns (now : Time) (new_id : UUID) (et : string)
    (eid : UUID) (num : option string) (req : option UUID)
    (value : option Decimal.t) (rem : option string) (w : ApprovalWorkflow)
    (db : DB) (a : Approval) (db' : DB) :
  create_with now new_id et eid num req value rem w db = (Ok a, db') ->
  exists requester,
    req = Some requester /\ approvals db !! new_id = None
    /\ let obj := mkApproval new_id et eid num (Some (Core.id w)) None
                    requester now "PENDING" None rem
                    (if value_truthy value then value else None) now now in
       db' = with_approvals (<[new_id := a]> (approvals db)) db
       /\ ((live_sequences (Core.id w) db = [] /\ a = obj)
           \/ (exists s, smallest s (live_sequences (Core.id w) db)
                         /\ a = set_auto_timestamps false now
                                  (set_status "IN_PROGRESS"
                                     (set_current_step_sequence (Some s) obj)))).
Proof.
  intros Hres.
  destruct (create_with_outcome now new_id et eid num req value rem w db)
    as [[_ Hraise]|(requester & -> & Hfree & Hrun)]; [congruence|].
  exists requester. split; [done|]. split; [done|].
  cbv zeta in Hrun. rewrite Hrun in Hres. clear Hrun. cbv zeta.
  set (obj := mkApproval _ _ _ _ _ _ _ _ _ _ _ _ _ _) in *.
  set (db1 := with_approvals _ db) in *.
  assert (live_sequences (Core.id w) db1 = live_sequences (Core.id w) db)
    as Hlive1 by reflexivity.
  destruct (live_sequences (Core.id w) db) as [|t l] eqn:Hlive.
  - unfold mbind, M_bind in Hres.
    rewrite (advance_without_steps now obj db1 (Core.id w)) in Hres by done.
    simpl in Hres. injection Hres as <- <-. split; [done|]. by left.
  - destruct (advance_from_none now obj db1 (Core.id w)) as (s & Hs & Hadv);
      [done..|by rewrite Hlive1|].
    rewrite Hlive1 in Hs.
    unfold mbind, M_bind in Hres. rewrite Hadv in Hres.
    unfold returns_saved, saved in Hres. simpl in Hres.
    rewrite lookup_insert_eq in Hres. simpl in Hres.
    injection Hres as <- <-. split.
    + unfold with_approvals. simpl. by rewrite insert_insert_eq.
    + right. by exists s.
Qed.

(** X1.  [create_approval] raises ValidationError exactly when no active,
    non-deleted workflow of the entity type applies to the value; the
    message then names the entity type and the database is what it was. *)
Theorem create_approval_no_workflow (now : Time) (new_id : UUID)
    (et : string) (eid : UUID) (num : option string) (req : option UUID)
    (value : option Decimal.t) (rem : option string) (db : DB) :
  ((forall w, w ∈ workflows db -> ~ applicable et value w)
   <-> exists msg,
         fst (create_approval now new_id et eid num req value rem db)
         = Raise (ValidationError msg))
  /\ (forall msg,
        fst (create_approval now new_id et eid num req value rem db)
        = Raise (ValidationError msg) ->
        create_approval now new_id et eid num req value rem db
        = (Raise (ValidationError ("No active workflow found for " +:+ et)),
           db)).
Proof.
  assert (forall msg,
            fst (create_approval now new_id et eid num req value rem db)
            = Raise (ValidationError msg) ->
            (forall w, w ∈ workflows db -> ~ applicable et value w)
            /\ create_approval now new_id et eid num req value rem db
               = (Raise (ValidationError
                           ("No active workflow found for " +:+ et)), db))
    as Hraise.
  { intros msg Hmsg.
    destruct (create_approval_selects now new_id et eid num req value rem db)
      as [[Hno Heq]|(w & _ & Heq)]; [done|].
    rewrite Heq in Hmsg. exfalso.
    destruct (create_with_outcome now new_id et eid num req value rem w db)
      as [[_ Hr]|(requester & _ & _ & Hrun)].
    - by rewrite Hr in Hmsg.
    - cbv zeta in Hrun. rewrite Hrun in Hmsg. unfold mbind, M_bind in Hmsg.
      match type of Hmsg with
      | context [advance_to_next_step now ?o ?d] =>
          destruct (advance_to_next_step_history now o d) as (_ & b & a & Hr);
          destruct (advance_to_next_step now o d) as [r db2]
      end.
      simpl in Hr. subst r. done. }
  split; [split|].
  - intros Hno.
    destruct (create_approval_selects now new_id et eid num req value rem db)
      as [[_ Heq]|(w & (Hw & Happ & _) & _)].
    + eexists. by rewrite Heq.
    + by destruct (Hno w Hw).
  - intros [msg Hmsg]. by destruct (Hraise msg Hmsg).
  - intros msg Hmsg. by destruct (Hraise msg Hmsg).
Qed.

(** X2.  The approval [create_approval] returns is for a workflow that is
    active, not deleted, of the entity type and applicable to the value; it
    is a default workflow whenever an applicable default exists, and it is
    the first by name among the applicable workflows of its kind. *)
Theorem create_approval_workflow_choice (now : Time) (new_id : UUID)
    (et : string) (eid : UUID) (num : option string) (req : option UUID)
    (value : option Decimal.t) (rem : option string) (db : DB)
    (a : Approval) (db' : DB) :
  create_approval now new_id et eid num req value rem db = (Ok a, db') ->
  exists w, chosen et value db w /\ workflow a = Some (Core.id w).
Proof.
  intros Hres.
  destruct (create_approval_selects now new_id et eid num req value rem db)
    as [[_ Heq]|(w & Hw & Heq)]; [congruence|].
  exists w. split; [done|]. rewrite Heq in Hres.
  apply create_with_returns in Hres
    as (requester & _ & _ & _ & [[_ ->]|(s & _ & ->)]); done.
Qed.

(** X3.  The approval [create_approval] returns is stored under the new
    key with the entity, the requester and the request time; no history
    row is written.  If its workflow has no non-deleted step it stays
    PENDING without a current step; otherwise it is IN_PROGRESS at the
    smallest step_sequence of the non-deleted steps. *)
Theorem create_approval_initial_state (now : Time) (new_id : UUID)
    (et : string) (eid : UUID) (num : option string) (req : option UUID)
    (value : option Decimal.t) (rem : option string) (db : DB)
    (a : Approval) (db' : DB) :
  create_approval now new_id et eid num req value rem db = (Ok a, db') ->
  exists w,
    workflow a = Some w
    /\ ap_id a = new_id /\ entity_type a = et /\ entity_id a = eid
    /\ entity_number a = num /\ req = Some (requested_by a)
    /\ requested_at a = now /\ completed_at a = None /\ remarks a = rem
    /\ approvals db !! new_id = None
    /\ db' = with_approvals (<[new_id := a]> (approvals db)) db
    /\ match live_sequences w db with
       | [] => status a = "PENDING" /\ current_step_sequence a = None
       | _ :: _ =>
           status a = "IN_PROGRESS"
           /\ exists s, current_step_sequence a = Some s
                        /\ smallest s (live_sequences w db)
       end.
Proof.
  intros Hres.
  destruct (create_approval_selects now new_id et eid num req value rem db)
    as [[_ Heq]|(w & Hw & Heq)]; [congruence|].
  exists (Core.id w). rewrite Heq in Hres.
  apply create_with_returns in Hres
    as (requester & -> & Hfree & -> & [[Hnil ->]|(s & Hs & ->)]).
  - rewrite Hnil. done.
  - repeat match goal with |- _ /\ _ => split end; try done.
    destruct (live_sequences (Core.id w) db) eqn:Hlive.
    + destruct Hs as [Hin _]. by apply elem_of_nil in Hin.
    + split; [done|]. by exists s.
Qed.

(** X4.  A workflow whose first non-deleted step has step_sequence 0 yields
    approvals that are IN_PROGRESS at step 0 and that nobody can approve:
    a current_step_sequence of 0 counts as no current step, whatever the
    database holds later. *)
Theorem create_approval_zero_sequence (now : Time) (new_id : UUID)
    (et : string) (eid : UUID) (num : option string) (req : option UUID)
    (value : option Decimal.t) (rem : option string) (db : DB)
    (a : Approval) (db' : DB) (w : UUID) :
  create_approval now new_id et eid num req value rem db = (Ok a, db') ->
  workflow a = Some w ->
  smallest 0 (live_sequences w db) ->
  status a = "IN_PROGRESS"
  /\ current_step_sequence a = Some 0
  /\ forall now' id' user comments ip db2,
       approve_step now' id' a user comments ip db2
       = (Raise (ValidationError "No current step to approve"), db2)
       /\ get_pending_approvers a db2 = []
       /\ check_timeout now' a db2 = Ok false.
Proof.
  intros Hres Hw H0.
  destruct (create_approval_selects now new_id et eid num req value rem db)
    as [[_ Heq]|(w' & _ & Heq)]; [congruence|].
  rewrite Heq in Hres.
  apply create_with_returns in Hres
    as (requester & _ & _ & _ & [[Hnil ->]|(s & Hs & ->)]).
  - simpl in Hw. injection Hw as <-. rewrite Hnil in H0.
    destruct H0 as [Hin _]. by apply elem_of_nil in Hin.
  - simpl in Hw. injection Hw as <-.
    rewrite (smallest_unique _ _ _ Hs H0).
    split; [done|]. split; [done|]. intros now' id' user comments ip db2.
    unfold approve_step, get_pending_approvers, check_timeout,
      get_current_step. done.
Qed.

End selection.

(** ** Approvals: approving step by step *)
Section progress.
Import Approvals Spec Selection Workflows.

(** What an authorised [approve_step] returns: the history row of the
    step, then the approval completed or moved to the next step. *)
Lemma approve_step_authorised (now : Time) (new_id : UUID)
    (approval : Approval) (user : UUID) (comments ip : option string)
    (st : ApprovalWorkflowStep) (w : UUID) (c : Z) (db : DB) :
  get_current_step approval db = Some st ->
  user_in user (get_approvers st db) = true ->
  new_id ∉ map h_id (history db) ->
  workflow approval = Some w ->
  current_step_sequence approval = Some c ->
  let db1 :=
    with_history
      (history db
       ++ [mkApprovalHistory new_id (ap_id approval) c
             (approver_role (Core.fields st)) user "APPROVED" now None
             comments ip now]) db in
  ((forall t, t ∈ live_sequences w db -> t <= c)
   /\ approve_step now new_id approval user comments ip db
      = (Ok (true,
             fst (saved now (set_completed_at (Some now)
                               (set_status "APPROVED" approval)) db1)),
         snd (saved now (set_completed_at (Some now)
                           (set_status "APPROVED" approval)) db1)))
  \/ (exists s,
        smallest s (filter (fun t => c < t) (live_sequences w db))
        /\ approve_step now new_id approval user comments ip db
           = (Ok (false,
                  fst (saved now (set_current_step_sequence (Some s) approval)
                             db1)),
              snd (saved now (set_current_step_sequence (Some s) approval)
                         db1))).
Proof.
  intros Hst Hin Hfresh Hw Hc db1.
  unfold approve_step. rewrite Hst, Hin. simpl.
  unfold mbind, M_bind.
  erewrite ApprovalHistory_objects_create_ok; [|by rewrite ?Hc..].
  cbv beta iota. simpl kw_approval. simpl kw_approver_role.
  simpl kw_action. simpl kw_comments. simpl kw_ip_address. fold db1.
  assert (live_sequences w db1 = live_sequences w db) as Hlive by reflexivity.
  destruct (decide (Forall (fun t => t <= c) (live_sequences w db)))
    as [Hall|Hex].
  - left. rewrite Forall_forall in Hall. split; [done|].
    rewrite (advance_completes now approval db1 w c); [done..|].
    by rewrite Hlive.
  - right. apply not_Forall_Exists in Hex; [|apply _].
    apply Exists_exists in Hex as (t & Ht & Hgt).
    destruct (advance_to_later now approval db1 w c) as (s & Hs & Hadv);
      [done..| |].
    { exists t. rewrite Hlive. split; [done|]. simpl in Hgt. lia. }
    rewrite Hlive in Hs. exists s. split; [done|].
    by rewrite Hadv.
Qed.

Lemma get_current_step_Some (approval : Approval) (db : DB)
    (st : ApprovalWorkflowStep) :
  get_current_step approval db = Some st ->
  exists w c, workflow approval = Some w
              /\ current_step_sequence approval = Some c /\ c <> 0
              /\ step_seq st = c.
Proof.
  unfold get_current_step. intros Hst.
  destruct (workflow approval) as [w|]; [|done].
  destruct (current_step_sequence approval) as [c|]; [|done].
  destruct (Z.eqb_spec c 0); [done|].
  apply head_Some_elem_of, list_elem_of_filter in Hst as [[_ Hseq] _].
  by exists w, c.
Qed.

(** X5.  An authorised [approve_step] stores the approval and returns True
    (workflow complete) exactly when no non-deleted step has a greater
    step_sequence than the current one; the approval is then APPROVED,
    completed now, and its current step is unchanged.  Otherwise it returns
    False and the approval moves, with its status unchanged, to the
    smallest step_sequence above the current one: it never moves back and
    never skips a non-deleted step. *)
Theorem approve_step_progress (now : Time) (new_id : UUID)
    (approval : Approval) (user : UUID) (comments ip : option string)
    (st : ApprovalWorkflowStep) (w : UUID) (c : Z) (db : DB) :
  get_current_step approval db = Some st ->
  user_in user (get_approvers st db) = true ->
  new_id ∉ map h_id (history db) ->
  workflow approval = Some w ->
  current_step_sequence approval = Some c ->
  exists complete approval' db',
    approve_step now new_id approval user comments ip db
    = (Ok (complete, approval'), db')
    /\ approvals db' !! ap_id approval = Some approval'
    /\ (complete = true <-> forall t, t ∈ live_sequences w db -> t <= c)
    /\ (complete = true ->
        status approval' = "APPROVED"
        /\ completed_at approval' = Some now
        /\ current_step_sequence approval' = Some c)
    /\ (complete = false ->
        status approval' = status approval
        /\ completed_at approval' = completed_at approval
        /\ exists s, current_step_sequence approval' = Some s
                     /\ c < s /\ s ∈ live_sequences w db
                     /\ forall t, t ∈ live_sequences w db -> c < t -> s <= t).
Proof.
  intros Hst Hin Hfresh Hw Hc.
  destruct (approve_step_authorised now new_id approval user comments ip st
              w c db Hst Hin Hfresh Hw Hc) as [[Hall Heq]|(s & Hs & Heq)].
  - eexists true, _, _. split; [exact Heq|].
    split; [simpl; by rewrite lookup_insert_eq|].
    split; [done|]. split; [done|]. done.
  - destruct Hs as [[Hgt Hin']%list_elem_of_filter Hmin].
    eexists false, _, _. split; [exact Heq|].
    split; [simpl; by rewrite lookup_insert_eq|].
    split.
    { split; [done|]. intros Hall. apply Hall in Hin'. lia. }
    split; [done|]. intros _. split; [done|]. split; [done|].
    exists s. split; [done|]. split; [done|]. split; [done|].
    intros t Ht Hlt. apply Hmin. by apply list_elem_of_filter.
Qed.

(** X6.  When an approval of a stored request moves to its next step, the
    timeout of that step is counted from requested_at, not from the time
    of the move: without an earlier history row at the new step, and with
    a deadline that a datetime can hold, [check_timeout] is True exactly
    when the current time is after requested_at plus the step's
    timeout_hours, whenever the previous step was approved. *)
Theorem next_step_timeout_counts_from_request (now : Time) (new_id : UUID)
    (approval : Approval) (user : UUID) (comments ip : option string)
    (st : ApprovalWorkflowStep) (row : Approval) (db : DB)
    (approval' : Approval) (db' : DB) (st' : ApprovalWorkflowStep) (h : Z) :
  get_current_step approval db = Some st ->
  user_in user (get_approvers st db) = true ->
  new_id ∉ map h_id (history db) ->
  approvals db !! ap_id approval = Some row ->
  approve_step now new_id approval user comments ip db
  = (Ok (false, approval'), db') ->
  get_current_step approval' db' = Some st' ->
  timeout_hours (Core.fields st') = Some h ->
  1 <= h ->
  0 <= requested_at approval ->
  requested_at approval + h * 3600000000 <= datetime_max ->
  (forall e, e ∈ history db -> h_approval e = ap_id approval ->
             Some (h_step_sequence e) <> current_step_sequence approval') ->
  requested_at approval' = requested_at approval
  /\ forall t,
       check_timeout t approval' db'
       = Ok (bool_decide (requested_at approval + h * 3600000000 < t)).
Proof.
  intros Hst Hin Hfresh Hrow Hres Hst' Hh Hnz Hreq0 Hmax Hnone.
  destruct (get_current_step_Some _ _ _ Hst) as (w & c & Hw & Hc & _ & _).
  destruct (approve_step_authorised now new_id approval user comments ip st
              w c db Hst Hin Hfresh Hw Hc) as [[_ Heq]|(s & Hs & Heq)];
    rewrite Heq in Hres; [done|].
  injection Hres as <- <-.
  destruct Hs as [[Hgt _]%list_elem_of_filter _].
  assert (requested_at
            (fst (saved now (set_current_step_sequence (Some s) approval)
                    (with_history
                       (history db
                        ++ [mkApprovalHistory new_id (ap_id approval) c
                              (approver_role (Core.fields st)) user "APPROVED"
                              now None comments ip now]) db)))
          = requested_at approval) as Hreq.
  { simpl. by rewrite Hrow. }
  split; [done|]. intros t.
  unfold check_timeout. rewrite Hst', Hh.
  destruct (Z.eqb_spec h 0); [lia|].
  unfold step_history.
  rewrite (filter_nil_of_none _ (history _)).
  - simpl. rewrite Hrow. simpl.
    destruct (timeout_time_in_range (requested_at approval) h)
      as [-> ->]; [done..|]. f_equal.
    destruct (Z.ltb_spec (requested_at approval + h * 3600000000) t).
    + by rewrite bool_decide_eq_true_2.
    + rewrite bool_decide_eq_false_2; [done|lia].
  - intros e He [Hap Hseq]. simpl in He, Hap, Hseq.
    apply elem_of_app in He as [He|He].
    + by apply (Hnone e He).
    + apply list_elem_of_singleton in He. subst e. simpl in Hseq.
      injection Hseq as ->. lia.
Qed.

(** X7.  Only an active user can approve: whenever [approve_step] returns,
    the acting user is a row of the user table with is_active set. *)
Theorem approve_step_only_active_users (now : Time) (new_id : UUID)
    (approval : Approval) (user : UUID) (comments ip : option string)
    (db : DB) (r : bool * Approval) (db' : DB) :
  approve_step now new_id approval user comments ip db = (Ok r, db') ->
  exists x, x ∈ users db /\ user_id x = user /\ user_is_active x = true.
Proof.
  unfold approve_step. intros Hres.
  destruct (get_current_step approval db) as [st|]; [|done].
  destruct (user_in user (get_approvers st db)) eqn:Hin; [|done].
  clear Hres. unfold user_in in Hin. apply bool_decide_eq_true in Hin.
  apply list_elem_of_fmap in Hin as (x & -> & Hx).
  exists x. unfold get_approvers in Hx.
  destruct (approver_user (Core.fields st)) as [u|].
  - by apply list_elem_of_filter in Hx as [[_ Hact] Hx].
  - destruct (approver_role (Core.fields st)) as [role|].
    + by apply list_elem_of_filter in Hx as [[_ Hact] Hx].
    + by apply elem_of_nil in Hx.
Qed.

End progress.

(** ** Approvals: validation of workflows and steps *)
Section validation.
Import Approvals Spec Selection Workflows.

(** A comparison may be made at any exponent below the two operands'. *)
Lemma decimal_ltb_scaled (a b : Decimal.t) (e0 : Z) :
  e0 <= Decimal.expo a -> e0 <= Decimal.expo b ->
  Decimal.ltb a b
  = (Decimal.coef a * 10 ^ (Decimal.expo a - e0)
     <? Decimal.coef b * 10 ^ (Decimal.expo b - e0)).
Proof.
  intros Ha Hb. unfold Decimal.ltb, Decimal.align.
  set (e := Z.min (Decimal.expo a) (Decimal.expo b)).
  replace (Decimal.expo a - e0) with ((Decimal.expo a - e) + (e - e0)) by lia.
  replace (Decimal.expo b - e0) with ((Decimal.expo b - e) + (e - e0)) by lia.
  rewrite !Z.pow_add_r by lia.
  assert (0 < 10 ^ (e - e0)) as Hpos by (apply Z.pow_pos_nonneg; lia).
  set (x := Decimal.coef a * 10 ^ (Decimal.expo a - e)).
  set (y := Decimal.coef b * 10 ^ (Decimal.expo b - e)).
  rewrite !Z.mul_assoc. fold x y.
  destruct (Z.ltb_spec x y), (Z.ltb_spec (x * 10 ^ (e - e0)) (y * 10 ^ (e - e0)));
    try done; nia.
Qed.

Lemma decimal_ltb_irrefl (a : Decimal.t) : Decimal.ltb a a = false.
Proof. unfold Decimal.ltb, Decimal.align. apply Z.ltb_irrefl. Qed.

(** [a < b] and [b <= c] give [a < c]. *)
Lemma decimal_ltb_le_trans (a b c : Decimal.t) :
  Decimal.ltb a b = true -> Decimal.ltb c b = false -> Decimal.ltb a c = true.
Proof.
  set (e0 := Z.min (Decimal.expo a) (Z.min (Decimal.expo b) (Decimal.expo c))).
  rewrite (decimal_ltb_scaled a b e0), (decimal_ltb_scaled c b e0),
    (decimal_ltb_scaled a c e0) by lia.
  rewrite !Z.ltb_lt, Z.ltb_ge. lia.
Qed.

(** X8.  [ApprovalWorkflow.clean] raises its minimum/maximum error exactly
    for the workflows whose value range is empty, that is, which
    [applies_to_value] accepts for no value at all. *)
Theorem clean_rejects_empty_ranges (self : ApprovalWorkflow) (db : DB) :
  ApprovalWorkflow_clean self db
  = Raise (ValidationError
             "Minimum value cannot be greater than maximum value.")
  <-> forall v, applies_to_value self v = false.
Proof.
  unfold ApprovalWorkflow_clean, applies_to_value.
  destruct (min_value (Core.fields self)) as [mn|];
    destruct (max_value (Core.fields self)) as [mx|].
  - destruct (Decimal.truthy mn) eqn:Hmn; destruct (Decimal.truthy mx) eqn:Hmx;
      simpl.
    + destruct (Decimal.ltb mx mn) eqn:Hlt.
      * split; [|done]. intros _ v.
        destruct (Decimal.ltb v mn) eqn:Hv; [done|].
        by rewrite (decimal_ltb_le_trans mx mn v).
      * split.
        -- destruct (is_default (Core.fields self)); [|done].
           by destruct (filter _ _).
        -- intros Hall. specialize (Hall mn).
           by rewrite decimal_ltb_irrefl, Hlt in Hall.
    + split.
      * destruct (is_default (Core.fields self)); [|done].
        by destruct (filter _ _).
      * intros Hall. specialize (Hall mn).
        by rewrite decimal_ltb_irrefl in Hall.
    + split.
      * destruct (is_default (Core.fields self)); [|done].
        by destruct (filter _ _).
      * intros Hall. specialize (Hall mx).
        by rewrite decimal_ltb_irrefl in Hall.
    + split.
      * destruct (is_default (Core.fields self)); [|done].
        by destruct (filter _ _).
      * intros Hall. by specialize (Hall mx).
  - split.
    + destruct (is_default (Core.fields self)); [|done].
      by destruct (filter _ _).
    + intros Hall. specialize (Hall mn).
      rewrite decimal_ltb_irrefl in Hall. by destruct (Decimal.truthy mn).
  - split.
    + destruct (is_default (Core.fields self)); [|done].
      by destruct (filter _ _).
    + intros Hall. specialize (Hall mx).
      rewrite decimal_ltb_irrefl in Hall. by destruct (Decimal.truthy mx).
  - split.
    + destruct (is_default (Core.fields self)); [|done].
      by destruct (filter _ _).
    + intros Hall. by specialize (Hall Decimal.zero).
Qed.

Lemma ApprovalWorkflow_save_elem (now : Time) (self w : ApprovalWorkflow)
    (db : DB) :
  w ∈ workflows (snd (ApprovalWorkflow_save now self db)) ->
  (Core.id w = Core.id self
   /\ Core.fields w = Core.fields self)
  \/ (w ∈ workflows db /\ Core.id w <> Core.id self).
Proof.
  unfold ApprovalWorkflow_save. simpl.
  destruct (bool_decide_reflect (Core.id self ∉ map Core.id (workflows db)))
    as [Hnew|Hold].
  - intros [Hw|Hw]%elem_of_app.
    + right. split; [done|]. intros Heq. apply Hnew. rewrite <- Heq.
      apply list_elem_of_fmap. by exists w.
    + apply list_elem_of_singleton in Hw. subst w. by left.
  - intros (x & -> & Hx)%list_elem_of_fmap.
    destruct (decide (Core.id x = Core.id self)); [by left|by right].
Qed.

(** X9.  Validation keeps "one default workflow per entity type and
    factory": if the table has at most one default workflow for each entity
    type and factory and an instance passes [clean], the table still has at
    most one after the instance is saved. *)
Theorem clean_then_save_keeps_one_default (now : Time)
    (self : ApprovalWorkflow) (db : DB) :
  one_default_per_scope db ->
  ApprovalWorkflow_clean self db = Ok tt ->
  one_default_per_scope (snd (ApprovalWorkflow_save now self db)).
Proof.
  intros Hinv Hclean.
  assert (is_default (Core.fields self) = true ->
          forall x, x ∈ workflows db ->
            wf_entity_type (Core.fields x) = wf_entity_type (Core.fields self) ->
            wf_factory (Core.fields x) = wf_factory (Core.fields self) ->
            is_default (Core.fields x) = true ->
            Core.id x = Core.id self) as Hself.
  { intros Hd x Hx Het Hf Hxd. unfold ApprovalWorkflow_clean in Hclean.
    destruct (match min_value _, max_value _ with
              | Some _, Some _ => _ | _, _ => _ end); [done|].
    rewrite Hd in Hclean.
    destruct (filter _ (workflows db)) as [|y l] eqn:Hflt; [|done].
    destruct (decide (Core.id x = Core.id self)) as [|Hne]; [done|].
    assert (x ∈ filter (fun w =>
                  wf_entity_type (Core.fields w)
                  = wf_entity_type (Core.fields self)
                  /\ wf_factory (Core.fields w) = wf_factory (Core.fields self)
                  /\ is_default (Core.fields w) = true
                  /\ Core.id w <> Core.id self) (workflows db)) as Hin
      by by apply list_elem_of_filter.
    rewrite Hflt in Hin. by apply elem_of_nil in Hin. }
  intros w1 w2 H1 H2 Hd1 Hd2 Het Hf.
  apply ApprovalWorkflow_save_elem in H1 as [[Hid1 Hf1]|[H1 Hne1]];
    apply ApprovalWorkflow_save_elem in H2 as [[Hid2 Hf2]|[H2 Hne2]].
  - congruence.
  - rewrite Hid1. symmetry. rewrite Hf1 in *. by apply Hself.
  - rewrite Hid2. rewrite Hf2 in *. by apply Hself.
  - by apply Hinv.
Qed.

(** X10.  [ApprovalWorkflowStep.clean] raises its approver error exactly
    for the steps that nobody can approve whatever the user and role tables
    hold: [get_approvers] is empty in every database. *)
Theorem clean_rejects_unapprovable_steps (st : ApprovalWorkflowStep) :
  ApprovalWorkflowStep_clean st
  = Raise (ValidationError
             "Step must have either approver_role or approver_user.")
  <-> forall db, get_approvers st db = [].
Proof.
  unfold ApprovalWorkflowStep_clean, get_approvers.
  destruct (approver_user (Core.fields st)) as [u|];
    destruct (approver_role (Core.fields st)) as [r|]; simpl.
  - split.
    + by destruct (_ && _).
    + intros Hall.
      specialize (Hall (mkDB [] [] [mkUser u "" true] [] ∅ ∅ [])).
      simpl in Hall. by rewrite filter_cons_True in Hall.
  - split.
    + by destruct (_ && _).
    + intros Hall.
      specialize (Hall (mkDB [] [] [mkUser u "" true] [] ∅ ∅ [])).
      simpl in Hall. by rewrite filter_cons_True in Hall.
  - split.
    + by destruct (_ && _).
    + intros Hall.
      specialize (Hall (mkDB [] [] [mkUser "u" "" true] [mkUserRole "u" r]
                             ∅ ∅ [])).
      simpl in Hall. rewrite filter_cons_True in Hall; [done|].
      split; [|done]. by left.
  - done.
Qed.

End validation.

(** ** Procurement: current stock *)
Section stock.
Import Procurement Stock Ledger.

Lemma sum_Z_permutation (l l' : list Z) :
  l ≡ₚ l' -> foldr Z.add 0 l = foldr Z.add 0 l'.
Proof. induction 1; simpl; lia. Qed.

Lemma or_zero_Sum_quantity (rows : list StockMovement) :
  or_zero (Sum_quantity rows)
  = let z := foldr Z.add 0 (map (fun m => quantize 3 (quantity m)) rows) in
    if z =? 0 then Decimal.zero else Decimal.mk z (-3).
Proof.
  destruct rows as [|m rows]; [done|].
  unfold Sum_quantity, or_zero, Decimal.truthy. cbv zeta.
  by destruct (_ =? 0).
Qed.

(** The result in terms of the two totals. *)
Lemma get_current_stock_totals (it : UUID) (location : option UUID)
    (db : Movements) :
  get_current_stock it location db
  = Decimal.sub
      (if in_total it location db =? 0 then Decimal.zero
       else Decimal.mk (in_total it location db) (-3))
      (if out_total it location db =? 0 then Decimal.zero
       else Decimal.mk (out_total it location db) (-3)).
Proof.
  unfold get_current_stock, in_total, out_total, counted.
  rewrite !or_zero_Sum_quantity. cbv zeta.
  destruct location as [l|]; [|done].
  rewrite !(list_filter_filter _ (fun m => from_location m = Some l
                                           \/ to_location m = Some l)).
  f_equal.
  - erewrite (list_filter_iff _ (fun m => to_location m = Some l
                                         /\ movement_type m ∈ IN_TYPES));
      [done|]. intros m. tauto.
  - erewrite (list_filter_iff _ (fun m => from_location m = Some l
                                         /\ movement_type m ∈ OUT_TYPES));
      [done|]. intros m. tauto.
Qed.

(** X11.  [get_current_stock] is exact: as long as the balance stays below
    10^28 thousandths it is the sum of the quantities received at the
    location less the sum of those sent from it, over the movements of the
    item that are of an incoming (outgoing) type and not flagged as
    reversed; no rounding takes place. *)
Theorem get_current_stock_exact (it : UUID) (location : option UUID)
    (db : Movements) :
  Z.abs (in_total it location db - out_total it location db) < 10 ^ 28 ->
  get_current_stock it location db
  = balance (in_total it location db) (out_total it location db).
Proof.
  intros Hbound. rewrite get_current_stock_totals. unfold balance.
  set (i := in_total it location db) in *.
  set (o := out_total it location db) in *.
  unfold Decimal.sub, Decimal.align.
  destruct (Z.eqb_spec i 0) as [Hi|Hi]; destruct (Z.eqb_spec o 0) as [Ho|Ho];
    simpl Decimal.expo; simpl Decimal.coef; simpl andb; cbv iota.
  - done.
  - rewrite Hi in *. change (Z.min 0 (-3)) with (-3).
    change (0 * 10 ^ (0 - -3) - o * 10 ^ (-3 - -3)) with (0 - o * 1).
    replace (0 - o * 1) with (0 - o) by lia.
    unfold Decimal.fix_. simpl Decimal.coef.
    destruct (Z.ltb_spec (Z.abs (0 - o)) (10 ^ Decimal.prec)); [done|].
    change Decimal.prec with 28 in *. lia.
  - rewrite Ho in *. change (Z.min (-3) 0) with (-3).
    change (i * 10 ^ (-3 - -3) - 0 * 10 ^ (0 - -3)) with (i * 1 - 0).
    replace (i * 1 - 0) with (i - 0) by lia.
    unfold Decimal.fix_. simpl Decimal.coef.
    destruct (Z.ltb_spec (Z.abs (i - 0)) (10 ^ Decimal.prec)); [done|].
    change Decimal.prec with 28 in *. lia.
  - change (Z.min (-3) (-3)) with (-3).
    change (i * 10 ^ (-3 - -3) - o * 10 ^ (-3 - -3)) with (i * 1 - o * 1).
    replace (i * 1 - o * 1) with (i - o) by lia.
    unfold Decimal.fix_. simpl Decimal.coef.
    destruct (Z.ltb_spec (Z.abs (i - o)) (10 ^ Decimal.prec)); [done|].
    change Decimal.prec with 28 in *. lia.
Qed.

(** A reversal of a stored movement: the reverse movement goes in under
    the new key, the row of the original is flagged. *)
Lemma reverse_movement_stored (now : Time) (new_id : UUID)
    (m : StockMovement) (user : UUID) (db : Movements)
    (r m' : StockMovement) (db' : Movements) :
  db !! sm_id m = Some m ->
  reverse_movement now new_id m user db = (Ok (r, m'), db') ->
  is_reversed m = false /\ db !! new_id = None /\ new_id <> sm_id m
  /\ db' = <[sm_id m := set_reversal true (Some user) (Some now) m]>
             (<[new_id := r]> db)
  /\ item r = item m /\ is_reversed r = false
  /\ from_location r = to_location m /\ to_location r = from_location m
  /\ movement_type r = movement_type m /\ quantity r = quantity m.
Proof.
  intros Hrow. unfold reverse_movement.
  destruct (is_reversed m) eqn:Hrev; [by intros [=]|].
  unfold mbind, M_bind, StockMovement_objects_create.
  destruct (db !! new_id) eqn:Hfree; cbv beta iota; [by intros [=]|].
  assert (new_id <> sm_id m) as Hne by (intros ->; congruence).
  unfold StockMovement_save_reversal.
  destruct (StockMovement_save_derived_keeps
              (set_reversal true (Some user) (Some now) m))
    as (Hid & Hflag & Hby & Hat).
  rewrite Hid, Hflag, Hby, Hat. simpl sm_id.
  rewrite lookup_insert_ne by done. rewrite Hrow. cbv beta iota.
  intros [= <- <- <-].
  repeat match goal with |- _ /\ _ => split end; try done;
    unfold StockMovement_save_derived; simpl;
    (destruct (unit_cost m) as [c|]; [|done]);
    by destruct (Decimal.truthy c && Decimal.truthy (quantity m)).
Qed.

Lemma counted_insert (it : UUID) (k : UUID) (x : StockMovement)
    (db : Movements) :
  db !! k = None ->
  counted it (<[k := x]> db)
  ≡ₚ (if decide (item x = it /\ is_reversed x = false) then [x] else [])
     ++ counted it db.
Proof.
  intros Hfree. unfold counted.
  rewrite (map_to_list_insert _ _ _ Hfree). simpl.
  rewrite filter_cons. by destruct (decide _).
Qed.

Lemma total_app (P : StockMovement -> Prop) `{!forall m, Decision (P m)}
    (l1 l2 : list StockMovement) :
  foldr Z.add 0 (map (fun m => quantize 3 (quantity m)) (filter P (l1 ++ l2)))
  = foldr Z.add 0 (map (fun m => quantize 3 (quantity m)) (filter P l1))
    + foldr Z.add 0 (map (fun m => quantize 3 (quantity m)) (filter P l2)).
Proof.
  rewrite filter_app, map_app, foldr_app.
  generalize (foldr Z.add 0 (map (fun m => quantize 3 (quantity m))
                                 (filter P l2))).
  induction (map _ (filter P l1)) as [|z l IH]; intros acc; simpl; [lia|].
  rewrite IH. lia.
Qed.

Lemma total_permutation (P : StockMovement -> Prop)
    `{!forall m, Decision (P m)} (l1 l2 : list StockMovement) :
  l1 ≡ₚ l2 ->
  foldr Z.add 0 (map (fun m => quantize 3 (quantity m)) (filter P l1))
  = foldr Z.add 0 (map (fun m => quantize 3 (quantity m)) (filter P l2)).
Proof. intros Hp. apply sum_Z_permutation. by rewrite Hp. Qed.

(** What one more row adds to the two totals. *)
Lemma totals_insert (it : UUID) (loc : option UUID) (k : UUID)
    (x : StockMovement) (db : Movements) :
  db !! k = None ->
  in_total it loc (<[k := x]> db)
  = in_total it loc db
    + (if decide (item x = it /\ is_reversed x = false
                  /\ to_location x = loc /\ movement_type x ∈ IN_TYPES)
       then quantize 3 (quantity x) else 0)
  /\ out_total it loc (<[k := x]> db)
     = out_total it loc db
       + (if decide (item x = it /\ is_reversed x = false
                     /\ from_location x = loc /\ movement_type x ∈ OUT_TYPES)
          then quantize 3 (quantity x) else 0).
Proof.
  intros Hfree. unfold in_total, out_total.
  rewrite !(total_permutation _ _ _ (counted_insert it k x db Hfree)).
  rewrite !total_app.
  destruct (decide (item x = it /\ is_reversed x = false)) as [[Hit Hrev]|Hno].
  - split.
    + rewrite filter_cons, filter_nil.
      destruct (decide (to_location x = loc /\ movement_type x ∈ IN_TYPES))
        as [[? ?]|Hn].
      * rewrite decide_True by done. simpl. lia.
      * rewrite decide_False by tauto. simpl. lia.
    + rewrite filter_cons, filter_nil.
      destruct (decide (from_location x = loc /\ movement_type x ∈ OUT_TYPES))
        as [[? ?]|Hn].
      * rewrite decide_True by done. simpl. lia.
      * rewrite decide_False by tauto. simpl. lia.
  - rewrite !decide_False by tauto. rewrite !filter_nil. simpl. split; lia.
Qed.

Lemma totals_of_stored (it : UUID) (loc : option UUID) (m : StockMovement)
    (db : Movements) :
  db !! sm_id m = Some m ->
  in_total it loc db
  = in_total it loc (delete (sm_id m) db)
    + (if decide (item m = it /\ is_reversed m = false
                  /\ to_location m = loc /\ movement_type m ∈ IN_TYPES)
       then quantize 3 (quantity m) else 0)
  /\ out_total it loc db
     = out_total it loc (delete (sm_id m) db)
       + (if decide (item m = it /\ is_reversed m = false
                     /\ from_location m = loc /\ movement_type m ∈ OUT_TYPES)
          then quantize 3 (quantity m) else 0).
Proof.
  intros Hrow. rewrite <- (insert_delete_id db (sm_id m) m Hrow) at 1 3.
  apply totals_insert. apply lookup_delete_eq.
Qed.

(** The totals after a reversal, against the ledger without the movement. *)
Lemma totals_after_reversal (now : Time) (new_id : UUID) (m : StockMovement)
    (user : UUID) (db : Movements) (r m' : StockMovement) (db' : Movements)
    (it : UUID) (loc : option UUID) :
  db !! sm_id m = Some m ->
  reverse_movement now new_id m user db = (Ok (r, m'), db') ->
  in_total it loc db'
  = in_total it loc (delete (sm_id m) db)
    + (if decide (item m = it /\ from_location m = loc
                  /\ movement_type m ∈ IN_TYPES)
       then quantize 3 (quantity m) else 0)
  /\ out_total it loc db'
     = out_total it loc (delete (sm_id m) db)
       + (if decide (item m = it /\ to_location m = loc
                     /\ movement_type m ∈ OUT_TYPES)
          then quantize 3 (quantity m) else 0).
Proof.
  intros Hrow Hrun.
  destruct (reverse_movement_stored _ _ _ _ _ _ _ _ Hrow Hrun)
    as (Hrev & Hfree & Hne & -> & Hit & Hrrev & Hfrom & Hto & Hty & Hq).
  set (D := delete (sm_id m) db).
  assert (<[sm_id m := set_reversal true (Some user) (Some now) m]>
            (<[new_id := r]> db)
          = <[sm_id m := set_reversal true (Some user) (Some now) m]>
              (<[new_id := r]> D)) as ->.
  { unfold D. apply map_eq. intros k.
    destruct (decide (k = sm_id m)) as [->|Hk].
    - by rewrite !lookup_insert_eq.
    - rewrite !(lookup_insert_ne _ (sm_id m)) by done.
      destruct (decide (k = new_id)) as [->|Hk'].
      + by rewrite !lookup_insert_eq.
      + rewrite !lookup_insert_ne by done. by rewrite lookup_delete_ne. }
  assert (D !! new_id = None) as HD1
    by (unfold D; by rewrite lookup_delete_ne).
  assert (<[new_id := r]> D !! sm_id m = None) as HD2.
  { rewrite lookup_insert_ne by done. apply lookup_delete_eq. }
  destruct (totals_insert it loc (sm_id m)
              (set_reversal true (Some user) (Some now) m) _ HD2) as [-> ->].
  destruct (totals_insert it loc new_id r D HD1) as [-> ->].
  rewrite Hit, Hrrev, Hfrom, Hto, Hty, Hq. simpl is_reversed.
  split.
  - rewrite (decide_False (P := _ /\ true = false /\ _)) by (by intros (_ & ? & _)).
    destruct (decide (item m = it /\ from_location m = loc
                      /\ movement_type m ∈ IN_TYPES)) as [(? & ? & ?)|Hn].
    + rewrite decide_True by done. lia.
    + rewrite decide_False by tauto. lia.
  - rewrite (decide_False (P := _ /\ true = false /\ _)) by (by intros (_ & ? & _)).
    destruct (decide (item m = it /\ to_location m = loc
                      /\ movement_type m ∈ OUT_TYPES)) as [(? & ? & ?)|Hn].
    + rewrite decide_True by done. lia.
    + rewrite decide_False by tauto. lia.
Qed.

(** X12.  Reversing a stored movement restores the stock: at every location
    where the reverse movement is not itself counted (the movement is not of
    an incoming type that left the location, nor of an outgoing type that
    arrived there), [get_current_stock] afterwards is what it would be had
    the movement never been recorded. *)
Theorem reversal_restores_stock (now : Time) (new_id : UUID)
    (m : StockMovement) (user : UUID) (db : Movements)
    (r m' : StockMovement) (db' : Movements) (it loc : UUID) :
  db !! sm_id m = Some m ->
  reverse_movement now new_id m user db = (Ok (r, m'), db') ->
  ~ reverse_counts_at loc m ->
  get_current_stock it (Some loc) db'
  = get_current_stock it (Some loc) (delete (sm_id m) db).
Proof.
  intros Hrow Hrun Hno.
  destruct (totals_after_reversal _ _ _ _ _ _ _ _ it (Some loc) Hrow Hrun)
    as [Hin Hout].
  rewrite !get_current_stock_totals, Hin, Hout.
  unfold reverse_counts_at in Hno.
  rewrite !decide_False by tauto. by rewrite !Z.add_0_r.
Qed.

(** X13.  Reversing a stored TRANSFER between two different locations does
    not restore the stock there: the transfer had taken its quantity out
    of the source and into the destination, and after the reversal the
    source stands at the quantity above, and the destination at the
    quantity below, what they would be had the transfer never been
    recorded. *)
Theorem transfer_reversal_overshoots (now : Time) (new_id : UUID)
    (m : StockMovement) (user : UUID) (db : Movements)
    (r m' : StockMovement) (db' : Movements) (a b : UUID) :
  db !! sm_id m = Some m ->
  reverse_movement now new_id m user db = (Ok (r, m'), db') ->
  movement_type m = "TRANSFER" ->
  from_location m = Some a -> to_location m = Some b -> a <> b ->
  let q := quantize 3 (quantity m) in
  let without := delete (sm_id m) db in
  let net loc d := in_total (item m) (Some loc) d
                   - out_total (item m) (Some loc) d in
  net a db = net a without - q /\ net b db = net b without + q
  /\ net a db' = net a without + q /\ net b db' = net b without - q.
Proof.
  intros Hrow Hrun Hty Hfrom Hto Hab q without net. unfold net.
  destruct (reverse_movement_stored _ _ _ _ _ _ _ _ Hrow Hrun)
    as (Hrev & _).
  destruct (totals_after_reversal _ _ _ _ _ _ _ _ (item m) (Some a) Hrow Hrun)
    as [-> ->].
  destruct (totals_after_reversal _ _ _ _ _ _ _ _ (item m) (Some b) Hrow Hrun)
    as [-> ->].
  destruct (totals_of_stored (item m) (Some a) m db Hrow) as [-> ->].
  destruct (totals_of_stored (item m) (Some b) m db Hrow) as [-> ->].
  rewrite Hty, Hfrom, Hto, Hrev.
  assert ("TRANSFER" ∈ IN_TYPES) as HIN
    by (apply (bool_decide_unpack _); reflexivity).
  assert ("TRANSFER" ∈ OUT_TYPES) as HOUT
    by (apply (bool_decide_unpack _); reflexivity).
  assert (Some a <> Some b :> option UUID) as Hab' by congruence.
  assert (Some b <> Some a :> option UUID) as Hba' by congruence.
  fold q without.
  repeat match goal with
         | |- context [decide ?P] =>
             first [rewrite (decide_True (P := P)) by done
                   |rewrite (decide_False (P := P)) by tauto]
         end.
  lia.
Qed.

(** X14.  Called without a location, [get_current_stock] counts only the
    incoming movements with no to_location and the outgoing ones with no
    from_location: for an item all of whose counted movements name the
    location they arrive at or leave from, it returns 0 whatever the ledger
    holds. *)
Theorem get_current_stock_without_location (it : UUID) (db : Movements) :
  (forall m, m ∈ counted it db ->
     (movement_type m ∈ IN_TYPES -> to_location m <> None)
     /\ (movement_type m ∈ OUT_TYPES -> from_location m <> None)) ->
  get_current_stock it None db = Decimal.zero.
Proof.
  intros Hall. rewrite get_current_stock_totals. unfold in_total, out_total.
  rewrite !filter_nil_of_none.
  - done.
  - intros m Hm [Hfrom Hty]. by destruct (proj2 (Hall m Hm) Hty).
  - intros m Hm [Hto Hty]. by destruct (proj1 (Hall m Hm) Hty).
Qed.

End stock.

(** ** Core: the location hierarchy *)
Section locations.
Import Locations Hierarchy.

Lemma last_cons_cons (p : Location) (ps : list Location) (l : Location) :
  List.last (p :: ps) l = List.last ps p.
Proof.
  revert p l. induction ps as [|q ps IH]; intros p l; [done|].
  change (List.last (p :: q :: ps) l) with (List.last (q :: ps) l).
  by rewrite !IH.
Qed.

Lemma linked_app (db : LocationTable) (x : Location) (l1 l2 : list Location) :
  linked db x l1 -> linked db (List.last l1 x) l2 -> linked db x (l1 ++ l2).
Proof.
  intros H1. induction H1 as [l|l k p ps Hk Hp Hps IH]; intros H2; [done|].
  simpl. econstructor; [done..|]. apply IH.
  by rewrite last_cons_cons in H2.
Qed.

Lemma linked_app_inv (db : LocationTable) (x : Location)
    (l1 l2 : list Location) :
  linked db x (l1 ++ l2) ->
  linked db x l1 /\ linked db (List.last l1 x) l2.
Proof.
  revert x. induction l1 as [|p l1 IH]; intros x H.
  - split; [constructor|done].
  - inversion H as [|? k ? ? Hk Hp Hps]; subst.
    destruct (IH _ Hps) as [H1 H2]. split; [by econstructor|].
    by rewrite last_cons_cons.
Qed.

Lemma linked_parent (db : LocationTable) (l p : Location)
    (ps : list Location) :
  linked db l (p :: ps) -> get_parent_location db l = Ok (Some p).
Proof.
  inversion 1 as [|? k ? ? Hk Hp Hps]; subst.
  unfold get_parent_location. by rewrite Hk, Hp.
Qed.

Lemma calculate_depth_loop_None (fuel : nat) (db : LocationTable)
    (visited : gset UUID) (d : Z) :
  calculate_depth_loop fuel db None visited d = Ok d.
Proof. by destruct fuel. Qed.

(** The loop on a chain that ends at a root and meets no location twice. *)
Lemma calculate_depth_loop_chain (db : LocationTable) (ps : list Location) :
  forall (c : Location) (visited : gset UUID) (d : Z) (fuel : nat),
    ancestors db c ps ->
    NoDup (map Core.id (c :: ps)) ->
    (forall x, x ∈ c :: ps -> Core.id x ∉ visited) ->
    0 <= d <= 10 -> Z.of_nat fuel = 10 - d ->
    calculate_depth_loop fuel db (Some c) visited d
    = Ok (Z.min (d + 1 + Z.of_nat (length ps)) 10).
Proof.
  induction ps as [|p ps IH]; intros c visited d fuel [Hl Hroot] Hnd Hnew Hd Hf.
  - simpl in Hroot. destruct fuel as [|fuel].
    + simpl. destruct (Z.ltb_spec d 10); [lia|]. f_equal. lia.
    + simpl. destruct (Z.ltb_spec d 10); [|lia].
      rewrite bool_decide_eq_false_2 by (apply Hnew; left).
      unfold get_parent_location. rewrite Hroot.
      rewrite calculate_depth_loop_None. simpl length. f_equal. lia.
  - destruct fuel as [|fuel].
    + simpl. destruct (Z.ltb_spec d 10); [lia|]. f_equal. lia.
    + simpl. destruct (Z.ltb_spec d 10); [|lia].
      rewrite bool_decide_eq_false_2 by (apply Hnew; left).
      rewrite (linked_parent _ _ _ _ Hl).
      inversion Hl as [|? k ? ? Hk Hp Hps]; subst.
      rewrite (IH p); [f_equal; simpl length; lia| | | |lia|lia].
      * split; [done|]. by rewrite last_cons_cons in Hroot.
      * by apply NoDup_cons_1_2 in Hnd.
      * intros x Hx. apply not_elem_of_union. split.
        -- apply not_elem_of_singleton. intros Heq.
           apply NoDup_cons_1_1 in Hnd. apply Hnd. simpl in Heq.
           rewrite <- Heq. apply (list_elem_of_fmap_2 Core.id) in Hx. exact Hx.
        -- apply Hnew. by right.
Qed.

(** Below a parent: the loop counts the ancestors. *)
Lemma calculate_depth_below (self : Location) (db : LocationTable)
    (p : Location) (ps : list Location) :
  ancestors db self (p :: ps) ->
  NoDup (map Core.id (self :: p :: ps)) ->
  _calculate_depth self db = Ok (Z.min (Z.of_nat (length (p :: ps))) 10).
Proof.
  intros [Hl Hroot] Hnd. unfold _calculate_depth.
  rewrite (linked_parent _ _ _ _ Hl).
  inversion Hl as [|? k ? ? Hk Hp Hps]; subst.
  rewrite (calculate_depth_loop_chain db ps p); [f_equal; simpl length; lia
                                                | | | |lia|lia].
  - split; [done|]. by rewrite last_cons_cons in Hroot.
  - by apply NoDup_cons_1_2 in Hnd.
  - intros x Hx. apply not_elem_of_singleton. intros Heq.
    apply NoDup_cons_1_1 in Hnd. apply Hnd. rewrite <- Heq.
    apply (list_elem_of_fmap_2 Core.id) in Hx. exact Hx.
Qed.

(** X15.  For a location whose chain of ancestors ends at a root and meets
    no location twice, [_calculate_depth] returns the number of ancestors,
    except that it stops counting at 10. *)
Theorem calculate_depth_acyclic (self : Location) (db : LocationTable)
    (ps : list Location) :
  ancestors db self ps ->
  NoDup (map Core.id (self :: ps)) ->
  _calculate_depth self db = Ok (Z.min (Z.of_nat (length ps)) 10).
Proof.
  intros Hanc Hnd.
  destruct ps as [|p ps]; [|by apply calculate_depth_below].
  destruct Hanc as [_ Hroot]. simpl in Hroot.
  unfold _calculate_depth, get_parent_location. by rewrite Hroot.
Qed.

(** The loop on a chain that comes back to a visited location. *)
Lemma calculate_depth_loop_cycle (db : LocationTable) (ps : list Location) :
  forall (c : Location) (visited : gset UUID) (d : Z) (fuel : nat),
    linked db c ps ->
    Core.id (List.last ps c) ∈ visited ->
    0 <= d -> d + 1 + Z.of_nat (length ps) <= 10 -> 10 - d <= Z.of_nat fuel ->
    calculate_depth_loop fuel db (Some c) visited d
    = Raise (ValidationError
               "Circular reference detected in location hierarchy.").
Proof.
  induction ps as [|p ps IH]; intros c visited d fuel Hl Hlast Hd Hlen Hf;
    (destruct fuel as [|fuel]; [lia|]); simpl;
    (destruct (Z.ltb_spec d 10); [|simpl length in Hlen; lia]).
  - simpl in Hlast. by rewrite bool_decide_eq_true_2.
  - destruct (bool_decide_reflect (Core.id c ∈ visited)); [done|].
    rewrite (linked_parent _ _ _ _ Hl).
    inversion Hl as [|? k ? ? Hk Hp Hps]; subst.
    apply IH; [done| |lia|simpl length in Hlen; lia|lia].
    rewrite last_cons_cons in Hlast. apply elem_of_union. by right.
Qed.

(** X16.  [Location.clean] refuses a parent that would close a cycle: if
    following parent_location from the instance comes back to the
    instance's own id within ten locations, [clean] raises
    ValidationError. *)
Theorem clean_rejects_cycles (self : Location) (db : LocationTable)
    (ps : list Location) (q : Location) :
  linked db self (ps ++ [q]) ->
  Core.id q = Core.id self ->
  (length ps < 10)%nat ->
  exists msg, clean self db = Raise (ValidationError msg).
Proof.
  intros Hl Hq Hlen. unfold clean.
  destruct ps as [|p ps].
  - rewrite (linked_parent _ _ _ _ Hl).
    rewrite bool_decide_eq_true_2 by done. by eexists.
  - rewrite (linked_parent _ _ _ _ Hl).
    destruct (bool_decide (Core.id p = Core.id self)); [by eexists|].
    unfold _calculate_depth. rewrite (linked_parent _ _ _ _ Hl).
    inversion Hl as [|? k ? ? Hk Hp Hps]; subst.
    rewrite (calculate_depth_loop_cycle db (ps ++ [q]) p).
    + by eexists.
    + done.
    + rewrite last_last. apply elem_of_singleton. done.
    + lia.
    + rewrite length_app. simpl length in *. lia.
    + lia.
Qed.

Lemma generate_path_set_depth (d : Z) (self : Location) (db : LocationTable) :
  _generate_path (set_depth_level d self) db = _generate_path self db.
Proof. done. Qed.

(** X17.  For a location whose chain of ancestors ends at a root and meets
    no location twice, [Location.clean] passes exactly when there are at
    most 5 ancestors; it then sets depth_level to their number and path to
    what [_generate_path] returns, and changes nothing else.  With more
    ancestors it raises its depth error. *)
Theorem clean_depth_limit (self : Location) (db : LocationTable)
    (ps : list Location) :
  ancestors db self ps ->
  NoDup (map Core.id (self :: ps)) ->
  ((length ps <= 5)%nat ->
     exists p, _generate_path self db = Ok p
               /\ clean self db
                  = Ok (set_path (Some p)
                          (set_depth_level (Z.of_nat (length ps)) self)))
  /\ ((5 < length ps)%nat ->
        clean self db
        = Raise (ValidationError
                   "Location hierarchy cannot exceed 5 levels.")).
Proof.
  intros Hanc Hnd.
  assert (_calculate_depth self db = Ok (Z.min (Z.of_nat (length ps)) 10))
    as Hdepth.
  { destruct ps as [|p ps']; [|by apply calculate_depth_below].
    destruct Hanc as [_ Hroot]. simpl in Hroot.
    unfold _calculate_depth, get_parent_location. by rewrite Hroot. }
  destruct Hanc as [Hl Hroot].
  assert (exists parent,
             get_parent_location db self = Ok parent
             /\ match parent with
                | Some p => bool_decide (Core.id p = Core.id self)
                | None => false
                end = false) as (parent & Hparent & Hown).
  { destruct ps as [|p ps].
    - exists None. simpl in Hroot. unfold get_parent_location.
      by rewrite Hroot.
    - exists (Some p). split; [by apply (linked_parent _ _ _ ps)|].
      apply bool_decide_eq_false_2. intros Heq.
      apply NoDup_cons_1_1 in Hnd. apply Hnd. rewrite <- Heq. by left. }
  unfold clean. rewrite Hparent, Hown, Hdepth. cbv zeta.
  rewrite generate_path_set_depth. simpl depth_level.
  split; intros Hlen.
  - rewrite Z.min_l by lia.
    destruct (Z.ltb_spec 5 (Z.of_nat (length ps))); [lia|].
    unfold _generate_path at 1 2. rewrite Hparent.
    destruct parent as [p|]; by eexists.
  - destruct (Z.ltb_spec 5 (Z.min (Z.of_nat (length ps)) 10)); [done|lia].
Qed.

Lemma string_app_assoc (a b c : string) : (a +:+ b) +:+ c = a +:+ (b +:+ c).
Proof.
  induction a as [|x a IH]; [done|].
  change (String x ((a +:+ b) +:+ c) = String x (a +:+ (b +:+ c))).
  by f_equal.
Qed.

Lemma string_concat_snoc (sep : string) (l : list string) (x : string) :
  l <> [] ->
  String.concat sep (l ++ [x]) = String.concat sep l +:+ sep +:+ x.
Proof.
  induction l as [|h t IH]; [done|]. intros _.
  destruct t as [|h' t].
  - done.
  - change (String.concat sep ((h :: h' :: t) ++ [x]))
      with (h +:+ sep +:+ String.concat sep ((h' :: t) ++ [x])).
    rewrite IH by done.
    change (String.concat sep (h :: h' :: t))
      with (h +:+ sep +:+ String.concat sep (h' :: t)).
    by rewrite !string_app_assoc.
Qed.

Lemma string_app_empty (a b : string) : a +:+ b = "" -> a = "" /\ b = "".
Proof. destruct a; [done|discriminate]. Qed.

(** X18.  [_generate_path] composes: when the stored path of the parent is
    the parent's own codes from the root, joined by slashes, the path it
    returns is the codes from the root down to the location itself, joined
    by slashes; for a root it is the location's code. *)
Theorem generate_path_joined (self : Location) (db : LocationTable)
    (ps : list Location) :
  ancestors db self ps ->
  match ps with
  | [] => True
  | p :: ps' => path (Core.fields p) = Some (joined_codes p ps')
  end ->
  _generate_path self db = Ok (joined_codes self ps).
Proof.
  intros [Hl Hroot] Hpath. unfold _generate_path.
  destruct ps as [|p ps].
  - simpl in Hroot. unfold get_parent_location. by rewrite Hroot.
  - rewrite (linked_parent _ _ _ _ Hl), Hpath. f_equal.
    assert ((if String.eqb (joined_codes p ps) ""
             then location_code (Core.fields p) else joined_codes p ps)
            = joined_codes p ps) as ->.
    { destruct (String.eqb_spec (joined_codes p ps) "") as [Hempty|]; [|done].
      rewrite Hempty. unfold joined_codes in Hempty.
      destruct (rev ps) as [|h t] eqn:Hrev; [done|].
      exfalso. simpl in Hempty. rewrite map_app in Hempty.
      destruct (map _ t);
        simpl in Hempty;
        apply string_app_empty in Hempty as [_ Hempty];
        discriminate Hempty. }
    unfold joined_codes. simpl rev.
    rewrite (map_app _ (rev ps ++ [p]) [self]). simpl (map _ [self]).
    rewrite string_concat_snoc; [done|].
    rewrite map_app. by destruct (map _ (rev ps)).
Qed.

Lemma full_hierarchy_loop_chain (db : LocationTable) (ps : list Location) :
  forall (c : Location) (h : list Location) (fuel : nat),
    ancestors db c ps -> (length ps < fuel)%nat ->
    full_hierarchy_loop fuel db (Some c) h = Some (Ok (rev ps ++ c :: h)).
Proof.
  induction ps as [|p ps IH]; intros c h fuel [Hl Hroot] Hf;
    (destruct fuel as [|fuel]; [lia|]); simpl.
  - simpl in Hroot. unfold get_parent_location. rewrite Hroot.
    by destruct fuel.
  - rewrite (linked_parent _ _ _ _ Hl).
    inversion Hl as [|? k ? ? Hk Hp Hps]; subst.
    rewrite IH; [simpl rev; by rewrite <- app_assoc| |simpl in Hf; lia].
    split; [done|]. by rewrite last_cons_cons in Hroot.
Qed.

(** X19.  For a location whose chain of ancestors ends at a root,
    [get_full_hierarchy] returns, after at most one round per ancestor, the
    ancestors from the root down followed by the location itself. *)
Theorem get_full_hierarchy_chain (self : Location) (db : LocationTable)
    (ps : list Location) (fuel : nat) :
  ancestors db self ps ->
  (length ps <= fuel)%nat ->
  get_full_hierarchy fuel self db = Some (Ok (rev ps ++ [self])).
Proof.
  intros [Hl Hroot] Hf. unfold get_full_hierarchy.
  destruct ps as [|p ps].
  - simpl in Hroot. unfold get_parent_location. rewrite Hroot.
    by destruct fuel.
  - rewrite (linked_parent _ _ _ _ Hl).
    inversion Hl as [|? k ? ? Hk Hp Hps]; subst.
    rewrite (full_hierarchy_loop_chain db ps p);
      [simpl rev; by rewrite <- app_assoc| |simpl in Hf; lia].
    split; [done|]. by rewrite last_cons_cons in Hroot.
Qed.

Lemma full_hierarchy_loop_on_cycle (db : LocationTable) (fuel : nat) :
  forall (c : Location) (qs h : list Location),
    linked db c (qs ++ [c]) ->
    full_hierarchy_loop fuel db (Some c) h = None.
Proof.
  induction fuel as [|fuel IH]; intros c qs h Hcyc; [done|]. simpl.
  destruct (qs ++ [c]) as [|p rest] eqn:Hrest; [by destruct qs|].
  rewrite (linked_parent _ _ _ _ Hcyc).
  assert (List.last rest p = c) as Hlast.
  { rewrite <- (last_cons_cons p rest c), <- Hrest. apply last_last. }
  inversion Hcyc as [|? k ? ? Hk Hp Hps]; subst l p0 ps.
  apply (IH p rest). apply linked_app; [done|].
  rewrite Hlast. econstructor; [done..|constructor].
Qed.

(** X20.  [get_full_hierarchy] has no guard against cycles: if following
    parent_location from the location reaches one that lies on a cycle,
    the call does not return, however many rounds it is given. *)
Theorem get_full_hierarchy_cycle (self : Location) (db : LocationTable)
    (ps qs : list Location) (c : Location) (fuel : nat) :
  linked db self (ps ++ [c]) ->
  linked db c (qs ++ [c]) ->
  get_full_hierarchy fuel self db = None.
Proof.
  intros Hreach Hcyc. unfold get_full_hierarchy.
  assert (forall (ps : list Location) (x : Location) fuel h,
             linked db x (ps ++ [c]) ->
             full_hierarchy_loop fuel db (Some x) h = None) as Hwalk.
  { clear ps Hreach fuel. induction ps as [|p ps IH]; intros x fuel h Hl.
    - destruct fuel as [|fuel]; [done|]. simpl.
      rewrite (linked_parent _ _ _ _ Hl).
      by apply (full_hierarchy_loop_on_cycle db fuel c qs).
    - destruct fuel as [|fuel]; [done|]. simpl.
      rewrite (linked_parent _ _ _ _ Hl).
      inversion Hl as [|? k ? ? Hk Hp Hps]; subst. by apply IH. }
  destruct ps as [|p ps].
  - rewrite (linked_parent _ _ _ _ Hreach).
    by apply (full_hierarchy_loop_on_cycle db fuel c qs).
  - rewrite (linked_parent _ _ _ _ Hreach).
    inversion Hreach as [|? k ? ? Hk Hp Hps]; subst. by eapply Hwalk.
Qed.

End locations.

(** ** Approvals and assets: the other receivers *)
Section receivers.
Import Approvals Spec Receivers Signals.

Lemma approvals_for_nil_iff (et : string) (eid : UUID) (db : DB) :
  approvals_for et eid db = [] <-> approval_exists et eid db = false.
Proof.
  unfold approvals_for, approval_exists.
  rewrite bool_decide_eq_false, Exists_exists. split.
  - intros Hnil (a & Ha & HP).
    assert (a ∈ filter (fun a => entity_type a = et /\ entity_id a = eid)
                       (map snd (map_to_list (approvals db)))) as Hin
      by by apply list_elem_of_filter.
    rewrite Hnil in Hin. by apply elem_of_nil in Hin.
  - intros Hno. apply filter_nil_of_none.
    intros a Ha HP. apply Hno. by exists a.
Qed.

Lemma approvals_for_put (et : string) (eid new_id : UUID) (o : Approval)
    (db : DB) :
  approvals db !! new_id = None ->
  length (approvals_for et eid
            (with_approvals (<[new_id := o]> (approvals db)) db))
  = ((if decide (entity_type o = et /\ entity_id o = eid) then 1 else 0)
     + length (approvals_for et eid db))%nat.
Proof.
  intros Hfree. unfold approvals_for. simpl.
  rewrite (map_to_list_insert _ _ _ Hfree). simpl.
  rewrite filter_cons. simpl. by destruct (decide _).
Qed.

(** A guarded [create_approval] keeps "at most one approval per entity". *)
Lemma guarded_create_at_most_one (now : Time) (new_id : UUID)
    (et' : string) (eid' : UUID) (num : option string) (req : option UUID)
    (value : option Decimal.t) (rem : option string)
    (et : string) (eid : UUID) (db : DB) :
  approval_exists et' eid' db = false ->
  (length (approvals_for et eid db) <= 1)%nat ->
  (length (approvals_for et eid
             (snd (create_approval now new_id et' eid' num req value rem db)))
   <= 1)%nat.
Proof.
  intros Hex Hle.
  pose proof (create_approval_row now new_id et' eid' num req value rem db)
    as Hput.
  destruct (create_approval now new_id et' eid' num req value rem db)
    as [r db'].
  simpl in *. destruct Hput as [->|(Hfree & o & Het & Hid & ->)]; [done|].
  rewrite (approvals_for_put _ _ _ _ _ Hfree).
  destruct (decide _) as [[Heq1 Heq2]|_]; [|done].
  apply approvals_for_nil_iff in Hex.
  rewrite Het in Heq1. rewrite Hid in Heq2. subst et eid.
  by rewrite Hex.
Qed.

Lemma receive_at_most_one (now : Time) (new_id : UUID) (s : saved_instance)
    (et : string) (eid : UUID) (db : DB) :
  (length (approvals_for et eid db) <= 1)%nat ->
  (length (approvals_for et eid (snd (receive now new_id s db))) <= 1)%nat.
Proof.
  intros Hle. destruct s as [i|i|i]; simpl.
  - unfold auto_create_pr_approval.
    destruct (decide (_ = "SUBMITTED")); [|done].
    destruct (bool_decide _) eqn:Hex; [done|].
    unfold try_except_pass.
    match goal with
    | |- context [create_approval ?a ?b ?c ?d ?e ?f ?g ?h db] =>
        pose proof (guarded_create_at_most_one a b c d e f g h et eid db
                      Hex Hle) as Hone;
        destruct (create_approval a b c d e f g h db)
    end.
    exact Hone.
  - unfold auto_create_grn_approval.
    destruct (decide (_ = "SUBMITTED")); [|done].
    destruct (approval_exists _ _ db) eqn:Hex; [done|].
    unfold try_except_pass.
    match goal with
    | |- context [create_approval ?a ?b ?c ?d ?e ?f ?g ?h db] =>
        pose proof (guarded_create_at_most_one a b c d e f g h et eid db
                      Hex Hle) as Hone;
        destruct (create_approval a b c d e f g h db)
    end.
    exact Hone.
  - unfold auto_create_adjustment_approval.
    destruct (decide (_ = "SUBMITTED")); [|done].
    destruct (approval_exists _ _ db) eqn:Hex; [done|].
    unfold try_except_pass.
    match goal with
    | |- context [create_approval ?a ?b ?c ?d ?e ?f ?g ?h db] =>
        pose proof (guarded_create_at_most_one a b c d e f g h et eid db
                      Hex Hle) as Hone;
        destruct (create_approval a b c d e f g h db)
    end.
    exact Hone.
Qed.

(** X21.  However the saves of purchase requests, goods received notes
    and inventory adjustments interleave, an entity that had at most one
    Approval row still has at most one after the receivers have run. *)
Theorem signals_keep_one_approval_per_entity
    (events : list (Time * UUID * saved_instance)) (et : string) (eid : UUID)
    (db : DB) :
  (length (approvals_for et eid db) <= 1)%nat ->
  (length (approvals_for et eid (run_signals events db)) <= 1)%nat.
Proof.
  revert db. induction events as [|[[now new_id] s] evs IH]; intros db Hle;
    [done|].
  simpl. apply IH. by apply receive_at_most_one.
Qed.

(** X22.  The pre-save receiver of [Asset] leaves the status consistent
    with the assignment: an assigned asset is not IN_STOCK and an
    unassigned one is not ASSIGNED.  It never changes the assigned user,
    it changes no status other than these two, and running it again
    changes nothing. *)
Theorem validate_asset_assignment_consistent
    (departments : gmap UUID (option UUID)) (a a' : Assignment) :
  validate_asset_assignment departments a = Ok a' ->
  status_consistent a'
  /\ assigned_to_user a' = assigned_to_user a
  /\ (current_status a <> "IN_STOCK" -> current_status a <> "ASSIGNED" ->
      current_status a' = current_status a)
  /\ validate_asset_assignment departments a' = Ok a'.
Proof.
  unfold status_consistent. intros Hres.
  assert (forall u : UUID, ~ (Some u = None :> option UUID)) as Hsome by done.
  assert (~ is_Some (None : option UUID)) as Hnone by (by intros [? ?]).
  destruct a as [[u|] [d|] st]; unfold validate_asset_assignment in *;
    simpl in *;
    try (destruct (departments !! u) as [[d'|]|] eqn:Hd; simpl in Hres;
         [| |done]);
    repeat case_bool_decide; simpl in Hres; simplify_eq; simpl;
    rewrite ?Hd; simpl;
    repeat case_bool_decide; simplify_eq; simpl;
    try (exfalso; by eauto);
    repeat match goal with |- _ /\ _ => split end; try done.
  all: try by intros [? [=]].
  all: try by intros _.
Qed.

End receivers.

(** ** Assets: the monthly depreciation schedule *)
Section schedule.
Import Assets Calendar Schedule Plan.

Lemma month_index_next (d : Date.t) :
  month_index (add_years_months d 0 1) = month_index d + 1.
Proof.
  unfold add_years_months, month_index.
  change (1 =? 0) with false. cbv iota.
  destruct (Z.ltb_spec 12 (Date.month d + 1)); [simpl; lia|].
  destruct (Z.ltb_spec (Date.month d + 1) 1); simpl; lia.
Qed.

Lemma valid_month_next (d : Date.t) :
  valid_month d -> valid_month (add_years_months d 0 1).
Proof.
  unfold add_years_months, valid_month.
  change (1 =? 0) with false. cbv iota.
  destruct (Z.ltb_spec 12 (Date.month d + 1)); [simpl; lia|].
  destruct (Z.ltb_spec (Date.month d + 1) 1); simpl; lia.
Qed.

Lemma date_ltb_month_index (a b : Date.t) :
  valid_month a -> valid_month b -> date_ltb a b = true ->
  month_index a <= month_index b.
Proof.
  unfold valid_month, month_index, date_ltb.
  rewrite !orb_true_iff, !andb_true_iff, !orb_true_iff, !andb_true_iff,
    !Z.ltb_lt, !Z.eqb_eq.
  lia.
Qed.

(** For a useful life other than zero no division fails. *)
Lemma monthly_depreciation_ok (asset : Asset) (price : Decimal.t) (life : Z)
    (salvage book : Decimal.t) :
  life <> 0 ->
  monthly_depreciation asset price life salvage book
  = Ok (amount asset price life salvage book).
Proof.
  intros Hlife. unfold amount.
  assert (exists m, monthly_depreciation asset price life salvage book = Ok m)
    as [m ->]; [|done].
  unfold monthly_depreciation.
  destruct (decide (depreciation_method asset = "STRAIGHT_LINE")).
  - destruct (decimal_div_defined (Decimal.sub price salvage)
                (Decimal.of_int (life * 12))) as [q ->]; [simpl; lia|].
    simpl. destruct (Decimal.ltb _ salvage); by eexists.
  - destruct (decimal_div_defined (Decimal.of_int 2) (Decimal.of_int life))
      as [rate ->]; [done|].
    simpl lift_div. cbv iota beta.
    destruct (decimal_div_defined rate (Decimal.of_int 12)) as [q ->]; [done|].
    simpl. destruct (Decimal.ltb _ salvage); by eexists.
Qed.

Section rounds.
Context (draw : nat -> Time * UUID) (asset : AssetInstance)
        (price : Decimal.t) (life : Z) (salvage : Decimal.t) (end_ : Date.t).
Context (Hlife : life <> 0).

Lemma schedule_loop_unfold (fuel : nat) (k : nat) (cur : Date.t)
    (book : Decimal.t) (db : list AssetDepreciationSchedule) :
  schedule_loop fuel draw asset price life salvage end_ k cur book db
  = if date_ltb cur end_ && Decimal.ltb salvage book then
      match fuel with
      | O => None
      | S fuel =>
          let m := amount (columns asset) price life salvage book in
          match get_or_create (fst (draw k)) (snd (draw k)) (pk asset) cur
                  (mkDefaults (add_days (add_years_months cur 0 1) (-1))
                              book m (Decimal.sub book m)) db with
          | (Raises e, db) => Some (Raises e, db)
          | (Returns _, db) =>
              schedule_loop fuel draw asset price life salvage end_ (S k)
                (add_years_months cur 0 1) (Decimal.sub book m) db
          end
      end
    else Some (Returns tt, db).
Proof.
  destruct fuel as [|fuel]; [done|].
  cbn [schedule_loop]. by rewrite monthly_depreciation_ok.
Qed.

Lemma plan_unfold (fuel : nat) (cur : Date.t) (book : Decimal.t) :
  plan fuel (columns asset) price life salvage end_ cur book
  = if date_ltb cur end_ && Decimal.ltb salvage book then
      match fuel with
      | O => None
      | S fuel =>
          let m := amount (columns asset) price life salvage book in
          option_map
            (cons (mkPeriod cur
                     (mkDefaults (add_days (add_years_months cur 0 1) (-1))
                                 book m (Decimal.sub book m))))
            (plan fuel (columns asset) price life salvage end_
                  (add_years_months cur 0 1) (Decimal.sub book m))
      end
    else Some [].
Proof. by destruct fuel. Qed.

(** The loop does to the table what its rounds say. *)
Lemma plan_loop (fuel : nat) :
  forall (k : nat) (cur : Date.t) (book : Decimal.t)
         (db : list AssetDepreciationSchedule) (ps : list Period),
    plan fuel (columns asset) price life salvage end_ cur book = Some ps ->
    schedule_loop fuel draw asset price life salvage end_ k cur book db
    = Some (apply_periods draw (pk asset) k ps db).
Proof.
  induction fuel as [|fuel IH]; intros k cur book db ps;
    rewrite plan_unfold, schedule_loop_unfold;
    destruct (date_ltb cur end_ && Decimal.ltb salvage book);
    try done; try by intros [= <-].
  cbv zeta.
  destruct (plan fuel _ _ _ _ _ _ _) as [ps'|] eqn:Hplan; [|done].
  intros [= <-]. cbn [apply_periods p_start p_defaults].
  destruct (get_or_create _ _ _ _ _ db) as [[[row created]|e] db1]; [|done].
  by apply IH.
Qed.

Lemma loop_plan (fuel : nat) :
  forall (k : nat) (cur : Date.t) (book : Decimal.t)
         (db db' : list AssetDepreciationSchedule),
    schedule_loop fuel draw asset price life salvage end_ k cur book db
    = Some (Returns tt, db') ->
    exists ps,
      plan fuel (columns asset) price life salvage end_ cur book = Some ps
      /\ apply_periods draw (pk asset) k ps db = (Returns tt, db').
Proof.
  induction fuel as [|fuel IH]; intros k cur book db db';
    rewrite plan_unfold, schedule_loop_unfold;
    destruct (date_ltb cur end_ && Decimal.ltb salvage book);
    try done; try (intros [= <-]; by exists []).
  cbv zeta.
  destruct (get_or_create _ _ _ _ _ db) as [[[row created]|e] db1] eqn:Hgoc;
    [|done].
  intros Hrun. destruct (IH _ _ _ _ _ Hrun) as (ps & -> & Happ).
  eexists. split; [reflexivity|].
  cbn [apply_periods p_start p_defaults]. by rewrite Hgoc.
Qed.

(** The months of the rounds are consecutive, hence all different. *)
Lemma plan_starts (fuel : nat) :
  forall (cur : Date.t) (book : Decimal.t) (ps : list Period),
    plan fuel (columns asset) price life salvage end_ cur book = Some ps ->
    Forall (fun p => month_index cur <= month_index (p_start p)) ps
    /\ NoDup (map p_start ps).
Proof.
  induction fuel as [|fuel IH]; intros cur book ps; rewrite plan_unfold;
    destruct (date_ltb cur end_ && Decimal.ltb salvage book);
    try done; try (intros [= <-]; split; constructor).
  cbv zeta.
  destruct (plan fuel _ _ _ _ _ _ _) as [ps'|] eqn:Hplan; [|done].
  intros [= <-]. destruct (IH _ _ _ Hplan) as [Hle Hnd].
  rewrite month_index_next in Hle. split.
  - constructor; [simpl; lia|].
    eapply Forall_impl; [exact Hle|]. simpl. intros p Hp. lia.
  - simpl. constructor; [|done].
    intros (p & Heq & Hp)%list_elem_of_fmap.
    rewrite Forall_forall in Hle. specialize (Hle p Hp).
    rewrite <- Heq in Hle. lia.
Qed.

(** With a round for each month up to the end date the loop returns. *)
Lemma plan_total (n : nat) :
  forall (fuel : nat) (cur : Date.t) (book : Decimal.t),
    valid_month cur -> valid_month end_ ->
    month_index end_ - month_index cur + 1 <= Z.of_nat n ->
    (n <= fuel)%nat ->
    exists ps,
      plan fuel (columns asset) price life salvage end_ cur book = Some ps
      /\ plan n (columns asset) price life salvage end_ cur book = Some ps.
Proof.
  induction n as [|n IH]; intros fuel cur book Hcur Hend Hn Hfuel.
  - rewrite !plan_unfold.
    destruct (date_ltb cur end_) eqn:Hlt.
    + apply date_ltb_month_index in Hlt; [lia|done..].
    + by exists [].
  - rewrite !plan_unfold.
    destruct (date_ltb cur end_ && Decimal.ltb salvage book);
      [|by exists []].
    destruct fuel as [|fuel]; [lia|]. cbv zeta.
    destruct (IH fuel (add_years_months cur 0 1)
                (Decimal.sub book
                   (amount (columns asset) price life salvage book)))
      as (ps & -> & ->);
      [by apply valid_month_next|done|rewrite month_index_next; lia|lia|].
    by eexists.
Qed.


End rounds.

Lemma get_or_create_found (now : Time) (new_id asset : UUID) (start : Date.t)
    (df : Defaults) (db : list AssetDepreciationSchedule)
    (r : AssetDepreciationSchedule) :
  rows_for asset start db = [r] ->
  get_or_create now new_id asset start df db = (Returns (r, false), db).
Proof. unfold rows_for, get_or_create. by intros ->. Qed.

Lemma get_or_create_returns (now : Time) (new_id asset : UUID)
    (start : Date.t) (df : Defaults) (db db' : list AssetDepreciationSchedule)
    (x : AssetDepreciationSchedule * bool) :
  get_or_create now new_id asset start df db = (Returns x, db') ->
  (db' = db /\ exists r, rows_for asset start db = [r])
  \/ (rows_for asset start db = []
      /\ db' = db ++ [mkSchedule new_id asset start (df_period_end_date df)
                        (df_opening_book_value df)
                        (df_depreciation_amount df)
                        (df_closing_book_value df) false None now]).
Proof.
  unfold rows_for, get_or_create.
  destruct (filter _ db) as [|r [|r' l]]; [| |done].
  - destruct (bool_decide _); [done|]. intros [= <- <-]. by right.
  - intros [= <- <-]. left. split; [done|]. by exists r.
Qed.

Lemma rows_for_app (asset : UUID) (start : Date.t)
    (l1 l2 : list AssetDepreciationSchedule) :
  rows_for asset start (l1 ++ l2)
  = rows_for asset start l1 ++ rows_for asset start l2.
Proof. unfold rows_for. apply filter_app. Qed.

(** What the rounds add to the table: rows of the asset for months of
    the rounds. *)
Lemma apply_periods_appends (draw : nat -> Time * UUID) (asset : UUID)
    (ps : list Period) :
  forall (k : nat) (db db' : list AssetDepreciationSchedule),
    apply_periods draw asset k ps db = (Returns tt, db') ->
    exists rows,
      db' = db ++ rows
      /\ forall start, start ∉ map p_start ps ->
                       rows_for asset start rows = [].
Proof.
  induction ps as [|p ps IH]; intros k db db'; simpl.
  - intros [= <-]. exists []. by rewrite app_nil_r.
  - destruct (get_or_create _ _ _ _ _ db) as [[x|e] db1] eqn:Hgoc; [|done].
    intros Hrest. destruct (IH _ _ _ Hrest) as (rows & -> & Hrows).
    apply get_or_create_returns in Hgoc as [[-> _]|[_ ->]].
    + exists rows. split; [done|]. intros start Hstart. apply Hrows.
      intros Hin. apply Hstart. by right.
    + eexists (_ :: rows). split; [by rewrite <- app_assoc|].
      intros start Hstart. unfold rows_for. rewrite filter_cons_False.
      * apply Hrows. intros Hin. apply Hstart. by right.
      * simpl. intros [_ <-]. apply Hstart. by left.
Qed.

(** After the rounds each of their months has exactly one row. *)
Lemma apply_periods_one_row (draw : nat -> Time * UUID) (asset : UUID)
    (ps : list Period) :
  forall (k : nat) (db db' : list AssetDepreciationSchedule),
    NoDup (map p_start ps) ->
    apply_periods draw asset k ps db = (Returns tt, db') ->
    forall p, p ∈ ps -> exists r, rows_for asset (p_start p) db' = [r].
Proof.
  induction ps as [|p ps IH]; intros k db db' Hnd; simpl.
  - intros _ p Hp. by apply elem_of_nil in Hp.
  - destruct (get_or_create _ _ _ _ _ db) as [[x|e] db1] eqn:Hgoc; [|done].
    intros Hrest q Hq. apply NoDup_cons in Hnd as [Hnew Hnd].
    apply elem_of_cons in Hq as [->|Hq]; [|by eapply IH].
    destruct (apply_periods_appends _ _ _ _ _ _ Hrest) as (rows & -> & Hrows).
    rewrite rows_for_app, (Hrows _ Hnew), app_nil_r.
    apply get_or_create_returns in Hgoc as [[-> Hone]|[Hnone ->]]; [done|].
    rewrite rows_for_app, Hnone. unfold rows_for.
    rewrite filter_cons_True by done. by eexists.
Qed.

(** Rounds that all find their row leave the table alone. *)
Lemma apply_periods_found (draw : nat -> Time * UUID) (asset : UUID)
    (db : list AssetDepreciationSchedule) (ps : list Period) :
  forall k : nat,
    (forall p, p ∈ ps -> exists r, rows_for asset (p_start p) db = [r]) ->
    apply_periods draw asset k ps db = (Returns tt, db).
Proof.
  induction ps as [|p ps IH]; intros k Hall; [done|]. simpl.
  destruct (Hall p) as [r Hr]; [by left|].
  rewrite (get_or_create_found _ _ _ _ _ _ r Hr).
  apply IH. intros q Hq. apply Hall. by right.
Qed.


(** X23.  [generate_depreciation_schedule] returns: for dates whose months
    are between 1 and 12, one round for each month from the first month to
    the month of the end date is enough, and more rounds change nothing. *)
Theorem schedule_returns (draw : nat -> Time * UUID) (asset : AssetInstance)
    (start_date end_date : option Date.t)
    (db : list AssetDepreciationSchedule) :
  valid_months (columns asset) start_date end_date ->
  exists out,
    forall fuel : nat,
      (rounds_of (columns asset) start_date end_date <= fuel)%nat ->
      generate_depreciation_schedule fuel draw asset start_date end_date db
      = Some out.
Proof.
  intros (Hpd & Hsd & Hed).
  unfold generate_depreciation_schedule, rounds_of.
  destruct (decide (_ = "NO_DEPRECIATION")); [by eexists|].
  destruct (purchase_date (columns asset)) as [purchased|]; [|by eexists].
  destruct (useful_life_years (columns asset)) as [life|]; [|by eexists].
  destruct (Z.eqb_spec life 0) as [|Hlife]; [by eexists|].
  destruct (purchase_price (columns asset)) as [price|];
    [|destruct (date_ltb _ _); by eexists].
  fold (first_month purchased start_date) (end_of purchased life end_date).
  set (cur := first_month purchased start_date).
  set (end_ := end_of purchased life end_date).
  assert (valid_month cur) as Hcur.
  { unfold cur, first_month, first_of_month, valid_month. simpl.
    destruct start_date as [d|]; simpl; [by apply Hsd|by apply Hpd]. }
  assert (valid_month end_) as Hend.
  { unfold end_, end_of. destruct end_date as [d|]; simpl; [by apply Hed|].
    unfold add_years_months, valid_month. simpl. by apply Hpd. }
  destruct (plan_total asset price life (salvage_or_zero (columns asset)) end_
              (rounds cur end_) (rounds cur end_) cur price Hcur Hend)
    as (ps & _ & Hps); [unfold rounds; lia|done|].
  exists (apply_periods draw (pk asset) 0 ps db). intros fuel Hfuel.
  destruct (plan_total asset price life (salvage_or_zero (columns asset)) end_
              (rounds cur end_) fuel cur price Hcur Hend)
    as (ps' & Hps' & Hps''); [unfold rounds; lia|done|].
  rewrite Hps in Hps''. injection Hps'' as <-.
  by apply plan_loop.
Qed.


(** X25.  [generate_depreciation_schedule] can be run again: after a run
    that returned, the same call (with whatever uuids and clock readings)
    returns and leaves the table as it is. *)
Theorem schedule_idempotent (fuel : nat) (draw draw' : nat -> Time * UUID)
    (asset : AssetInstance) (start_date end_date : option Date.t)
    (db db' : list AssetDepreciationSchedule) :
  generate_depreciation_schedule fuel draw asset start_date end_date db
  = Some (Returns tt, db') ->
  generate_depreciation_schedule fuel draw' asset start_date end_date db'
  = Some (Returns tt, db').
Proof.
  unfold generate_depreciation_schedule.
  destruct (decide (_ = "NO_DEPRECIATION")); [by intros [= <-]|].
  destruct (purchase_date (columns asset)) as [purchased|];
    [|by intros [= <-]].
  destruct (useful_life_years (columns asset)) as [life|];
    [|by intros [= <-]].
  destruct (Z.eqb_spec life 0) as [|Hlife]; [by intros [= <-]|].
  destruct (purchase_price (columns asset)) as [price|].
  - intros Hrun. apply loop_plan in Hrun as (ps & Hplan & Happ); [|done].
    pose proof Hplan as [_ Hnd]%plan_starts.
    rewrite (plan_loop draw' _ _ _ _ _ Hlife _ _ _ _ _ _ Hplan). f_equal.
    apply apply_periods_found.
    by apply (apply_periods_one_row draw (pk asset) ps 0 db db').
  - destruct (date_ltb _ _); [done|]. by intros [= <-].
Qed.

End schedule.

(** ** Approvals: approving a request to the end *)
Section runs.
Import Approvals Spec Runs.

Lemma get_current_step_step_at (approval : Approval) (w : UUID) (c : Z)
    (db : DB) :
  workflow approval = Some w ->
  current_step_sequence approval = Some c ->
  c <> 0 ->
  get_current_step approval db = step_at w c db.
Proof.
  intros Hw Hc Hnz. unfold get_current_step, step_at. rewrite Hw, Hc.
  by destruct (Z.eqb_spec c 0).
Qed.

Lemma later_steps_tail (w : UUID) (c s : Z) (db : DB) (later : list Z) :
  later_steps w c db (s :: later) -> later_steps w s db later.
Proof.
  intros [Hsorted Hmem]. apply StronglySorted_inv in Hsorted as [Hs Hlt].
  rewrite Forall_forall in Hlt. split; [done|]. intros t. split.
  - intros Ht. split; [|by apply Hlt].
    apply (Hmem t). by right.
  - intros [Hlive Hgt].
    assert (c < s) by (apply (Hmem s); by left).
    assert (t ∈ s :: later) as Hin by (apply Hmem; split; [done|lia]).
    apply elem_of_cons in Hin as [->|Hin]; [lia|done].
Qed.

(** X26.  Approving step by step completes the request: for an approval
    at step [c] whose workflow has the non-deleted steps [later] above
    [c], one authorised approval for [c] and for each later step, in
    order, all succeed; every call but the last returns False and the
    last returns True; the approval ends APPROVED, completed at the time
    of the last action, and the history has grown by one row for each
    action. *)
Theorem approve_each_completes (later : list Z) :
  forall (actions : list action) (approval : Approval) (w : UUID) (c : Z)
         (db : DB),
    workflow approval = Some w ->
    current_step_sequence approval = Some c ->
    later_steps w c db later ->
    Forall2 (can_approve w db) (c :: later) actions ->
    NoDup (map (fun a => snd (fst a)) actions) ->
    (forall a, a ∈ actions -> snd (fst a) ∉ map h_id (history db)) ->
    exists final db',
      approve_each actions approval db
      = (Ok (replicate (length later) false ++ [true], final), db')
      /\ status final = "APPROVED"
      /\ (completed_at final = fst <$> (fst <$> last actions))
      /\ approvals db' !! ap_id approval = Some final
      /\ length (history db') = (length (history db) + length actions)%nat
      /\ steps db' = steps db.
Proof.
  induction later as [|s later IH];
    intros actions approval w c db Hw Hc Hlater Hcan Hnd Hfresh.
  - apply Forall2_cons_inv_l in Hcan
      as ([[now new_id] user] & rest & (Hnz & st & Hst & Hin) & Hrest & ->).
    apply Forall2_nil_inv_l in Hrest as ->.
    rewrite <- (get_current_step_step_at approval w c db Hw Hc Hnz) in Hst.
    assert (new_id ∉ map h_id (history db)) as Hid
      by (apply (Hfresh (now, new_id, user)); by left).
    destruct (approve_step_authorised now new_id approval user None None st
                w c db Hst Hin Hid Hw Hc) as [[_ Heq]|(s & Hs & _)].
    + cbn [approve_each]. unfold mbind at 1. unfold M_bind at 1.
      rewrite Heq. eexists _, _. split; [reflexivity|].
      split; [done|]. split; [done|].
      split; [simpl; by rewrite lookup_insert_eq|].
      split; [|done]. simpl. rewrite length_app. simpl. lia.
    + exfalso. destruct Hs as [[Hgt Hlive]%list_elem_of_filter _].
      destruct Hlater as [_ Hmem].
      assert (s ∈ ([] : list Z)) as Hnil by (by apply Hmem).
      by apply elem_of_nil in Hnil.
  - apply Forall2_cons_inv_l in Hcan
      as ([[now new_id] user] & rest & (Hnz & st & Hst & Hin) & Hrest & ->).
    rewrite <- (get_current_step_step_at approval w c db Hw Hc Hnz) in Hst.
    assert (s ∈ live_sequences w db /\ c < s) as [Hslive Hcs]
      by (apply (proj2 Hlater); by left).
    assert (new_id ∉ map h_id (history db)) as Hid
      by (apply (Hfresh (now, new_id, user)); by left).
    destruct (approve_step_authorised now new_id approval user None None st
                w c db Hst Hin Hid Hw Hc) as [[Hall _]|(s' & Hs' & Heq)].
    { apply Hall in Hslive. lia. }
    assert (s' = s) as ->.
    { destruct Hs' as [[Hgt Hlive']%list_elem_of_filter Hmin].
      assert (s' <= s) by (apply Hmin; by apply list_elem_of_filter).
      assert (s' ∈ s :: later) as Hin' by (by apply (proj2 Hlater)).
      apply elem_of_cons in Hin' as [->|Hin']; [done|].
      destruct Hlater as [Hsorted _].
      apply StronglySorted_inv in Hsorted as [_ Hlt].
      rewrite Forall_forall in Hlt. specialize (Hlt _ Hin'). lia. }
    set (db1 := snd (saved now (set_current_step_sequence (Some s) approval)
                       (with_history
                          (history db
                           ++ [mkApprovalHistory new_id (ap_id approval) c
                                 (approver_role (Core.fields st)) user
                                 "APPROVED" now None None None now]) db)))
      in *.
    set (a1 := fst (saved now (set_current_step_sequence (Some s) approval)
                      (with_history
                         (history db
                          ++ [mkApprovalHistory new_id (ap_id approval) c
                                (approver_role (Core.fields st)) user
                                "APPROVED" now None None None now]) db)))
      in *.
    change (map (fun a : action => snd (fst a)) ((now, new_id, user) :: rest))
      with (new_id :: map (fun a : action => snd (fst a)) rest) in Hnd.
    apply NoDup_cons in Hnd as [Hnew Hnd].
    destruct (IH rest a1 w s db1) as (final & db' & Hrun & Hstat & Hdone
                                      & Hrow & Hlen & Hsteps).
    + done.
    + done.
    + apply later_steps_tail in Hlater. exact Hlater.
    + exact Hrest.
    + exact Hnd.
    + intros a Ha. unfold db1. simpl. rewrite map_app. simpl.
      intros [Hold|Hhere]%elem_of_app.
      * apply (Hfresh a); [by right|done].
      * apply list_elem_of_singleton in Hhere. apply Hnew. rewrite <- Hhere.
        apply list_elem_of_fmap. by exists a.
    + cbn [approve_each]. unfold mbind at 1. unfold M_bind at 1.
      rewrite Heq. cbv beta iota. fold a1 db1.
      unfold mbind at 1. unfold M_bind at 1. rewrite Hrun.
      eexists final, db'. split; [reflexivity|].
      split; [done|]. split.
      { rewrite Hdone. destruct rest; [|done].
        by apply Forall2_nil_inv_r in Hrest. }
      split; [done|]. split; [|done].
      rewrite Hlen. unfold db1. simpl. rewrite length_app. simpl. lia.
Qed.

End runs.

(** ** Approvals: the bulk cancel action, and approving after a reject *)
Section admin.
Import Approvals Spec Admin.



(** X28.  [approve_step] does not look at the status: an approval that was
    rejected at its last step is still approved by the next authorised
    [approve_step], which stores it as APPROVED. *)
Theorem rejected_approval_can_be_approved
    (now1 now2 : Time) (id1 id2 : UUID) (approval : Approval)
    (rejecter approver : UUID) (comments : option string)
    (st : ApprovalWorkflowStep) (w : UUID) (c : Z) (db : DB) :
  get_current_step approval db = Some st ->
  workflow approval = Some w ->
  current_step_sequence approval = Some c ->
  (forall t, t ∈ live_sequences w db -> t <= c) ->
  user_in approver (get_approvers st db) = true ->
  id1 ∉ map h_id (history db) -> id2 ∉ map h_id (history db) -> id1 <> id2 ->
  exists rejected db1 approved db2,
    reject now1 id1 approval rejecter comments db = (Ok rejected, db1)
    /\ status rejected = "REJECTED"
    /\ approve_step now2 id2 rejected approver None None db1
       = (Ok (true, approved), db2)
    /\ status approved = "APPROVED"
    /\ approvals db2 !! ap_id approval = Some approved
    /\ map h_action (drop (length (history db)) (history db2))
       = ["REJECTED"; "APPROVED"].
Proof.
  intros Hst Hw Hc Hlast Hin Hid1 Hid2 Hne.
  destruct (reject_audit_row now1 id1 approval rejecter comments c db Hc Hid1)
    as (db1 & Hrej & Hhist1 & Hrow1).
  set (rejected := fst (saved now1 (set_completed_at (Some now1)
                                      (set_status "REJECTED" approval)) db))
    in *.
  assert (steps db1 = steps db /\ users db1 = users db
          /\ user_roles db1 = user_roles db) as (Hsteps & Husers & Hroles).
  { revert Hrej. unfold reject, mbind, M_bind.
    rewrite Approval_save_saved.
    erewrite ApprovalHistory_objects_create_ok; [|done..].
    by intros [= <-]. }
  assert (get_current_step rejected db1 = Some st) as Hst1.
  { revert Hst. unfold get_current_step. simpl. by rewrite Hsteps. }
  assert (user_in approver (get_approvers st db1) = true) as Hin1.
  { revert Hin. unfold get_approvers. by rewrite Husers, Hroles. }
  assert (id2 ∉ map h_id (history db1)) as Hid2'.
  { rewrite Hhist1, map_app. simpl. intros [?|Hhere]%elem_of_app; [done|].
    apply list_elem_of_singleton in Hhere. done. }
  destruct (approve_step_authorised now2 id2 rejected approver None None st
              w c db1 Hst1 Hin1 Hid2') as [[_ Happ]|(s & Hs & _)]; [done..| |].
  - eexists rejected, db1, _, _. split; [exact Hrej|].
    split; [done|]. split; [exact Happ|]. split; [done|].
    split; [simpl; by rewrite lookup_insert_eq|].
    simpl. rewrite Hhist1, <- app_assoc, drop_app_length. done.
  - exfalso. destruct Hs as [[Hgt Hlive]%list_elem_of_filter _].
    assert (live_sequences w db1 = live_sequences w db) as Heq
      by (unfold live_sequences; by rewrite Hsteps).
    rewrite Heq in Hlive. apply Hlast in Hlive. lia.
Qed.

End admin.

(** ** Assets: warranty and maintenance dates *)
Section upkeep.
Import Calendar Upkeep.

Lemma leap_year_length (y : Z) :
  Date.days_before_year (y + 1)
  = Date.days_before_year y + 365 + (if Date.is_leap y then 1 else 0).
Proof.
  unfold Date.days_before_year, Date.is_leap.
  replace (y + 1 - 1) with y by lia.
  destruct (Z.eqb_spec (y mod 4) 0), (Z.eqb_spec (y mod 100) 0),
    (Z.eqb_spec (y mod 400) 0); simpl; Z.div_mod_to_equations; lia.
Qed.

Lemma days_before_year_mono (a b : Z) :
  a <= b -> Date.days_before_year a + 365 * (b - a) <= Date.days_before_year b.
Proof.
  unfold Date.days_before_year. intros H. Z.div_mod_to_equations. lia.
Qed.

Lemma month_cases (m : Z) :
  1 <= m <= 12 ->
  m = 1 \/ m = 2 \/ m = 3 \/ m = 4 \/ m = 5 \/ m = 6 \/ m = 7 \/ m = 8
  \/ m = 9 \/ m = 10 \/ m = 11 \/ m = 12.
Proof. lia. Qed.

(** A day of the year is between 1 and the length of the year. *)
Lemma day_of_year_bounds (y m d : Z) :
  1 <= m <= 12 -> 1 <= d <= days_in_month y m ->
  1 <= Date.days_before_month y m + d
  <= 365 + (if Date.is_leap y then 1 else 0).
Proof.
  intros Hm%month_cases. unfold days_in_month, Date.days_before_month.
  destruct (Date.is_leap y);
    repeat (destruct Hm as [->|Hm]); try subst m; simpl; lia.
Qed.

(** The months of a year follow one another. *)
Lemma month_before (y m1 m2 d : Z) :
  1 <= m1 <= 12 -> 1 <= m2 <= 12 -> m1 < m2 ->
  d <= days_in_month y m1 ->
  Date.days_before_month y m1 + d <= Date.days_before_month y m2.
Proof.
  intros H1%month_cases H2%month_cases.
  unfold days_in_month, Date.days_before_month.
  destruct (Date.is_leap y);
    repeat (destruct H1 as [->|H1]); try subst m1;
    repeat (destruct H2 as [->|H2]); try subst m2; simpl; lia.
Qed.

(** The order of dates is the order of their day numbers. *)
Lemma toordinal_lt (a b : Date.t) :
  valid_date a -> valid_date b ->
  date_ltb a b = true -> Date.toordinal a < Date.toordinal b.
Proof.
  intros [Hma Hda] [Hmb Hdb]. unfold date_ltb, Date.toordinal.
  rewrite !orb_true_iff, !andb_true_iff, !orb_true_iff, !andb_true_iff,
    !Z.ltb_lt, !Z.eqb_eq.
  pose proof (day_of_year_bounds _ _ _ Hma Hda) as Ha.
  pose proof (day_of_year_bounds _ _ _ Hmb Hdb) as Hb.
  intros [Hy|[Hy [Hm|[Hm Hd]]]].
  - pose proof (leap_year_length (Date.year a)).
    pose proof (days_before_year_mono (Date.year a + 1) (Date.year b)).
    lia.
  - rewrite Hy in *.
    pose proof (month_before (Date.year b) _ _ (Date.day a) Hma Hmb Hm).
    lia.
  - rewrite Hy, Hm. lia.
Qed.

Lemma toordinal_le (a b : Date.t) :
  valid_date a -> valid_date b ->
  date_leb a b = true <-> Date.toordinal a <= Date.toordinal b.
Proof.
  intros Ha Hb. unfold date_leb. rewrite negb_true_iff. split.
  - intros Hnlt.
    destruct (date_ltb a b) eqn:Hlt;
      [apply toordinal_lt in Hlt; [lia|done..]|].
    assert (a = b) as ->; [|lia].
    revert Hnlt Hlt. unfold date_ltb. destruct a as [ya ma da], b as [yb mb db].
    simpl. rewrite !orb_false_iff, !andb_false_iff, !orb_false_iff,
      !andb_false_iff, !Z.ltb_ge, !Z.eqb_neq.
    intros H1 H2. f_equal; lia.
  - intros Hle. destruct (date_ltb b a) eqn:Hlt; [|done].
    apply toordinal_lt in Hlt; [lia|done..].
Qed.

(** X29.  For calendar dates, the warranty properties agree: the asset is
    under warranty exactly while the day count to warranty_end_date is not
    negative, [warranty_days_remaining] is that day count while the asset is
    under warranty and 0 afterwards; and maintenance is due exactly from
    next_maintenance_date on. *)
Theorem warranty_days_consistent (today : Date.t) (self : AssetDates) :
  valid_date today ->
  (forall d, warranty_end_date self = Some d -> valid_date d) ->
  (forall d, next_maintenance_date self = Some d -> valid_date d) ->
  (forall d, warranty_end_date self = Some d ->
     (is_under_warranty today self = true <-> 0 <= Date.days_between d today)
     /\ warranty_days_remaining today self
        = Some (if is_under_warranty today self
                then Date.days_between d today else 0))
  /\ (forall d, next_maintenance_date self = Some d ->
        (is_maintenance_due today self = true
         <-> 0 <= Date.days_between today d)).
Proof.
  intros Htoday Hwar Hnext. split.
  - intros d Hd. specialize (Hwar d Hd).
    unfold is_under_warranty, warranty_days_remaining. rewrite Hd.
    pose proof (toordinal_le today d Htoday Hwar) as Hle.
    unfold Date.days_between. split; [rewrite Hle; lia|].
    f_equal. destruct (date_leb today d).
    + assert (Date.toordinal today <= Date.toordinal d) by by apply Hle.
      lia.
    + assert (~ Date.toordinal today <= Date.toordinal d)
        by (intros H; by apply Hle in H).
      lia.
  - intros d Hd. specialize (Hnext d Hd).
    unfold is_maintenance_due. rewrite Hd.
    rewrite (toordinal_le d today Hnext Htoday).
    unfold Date.days_between. lia.
Qed.

End upkeep.

(** ** Instances: workflows and approvals *)
Section workflow_instances.
Import Approvals Spec Selection Workflows Examples WorkflowExamples.

Lemma create_approval_workflow_choice_witness :
  exists w,
    chosen "PR" (Some (Decimal.mk 1250000 (-2))) db_two_workflows w
    /\ workflow approval_created = Some (Core.id w).
Proof.
  apply (create_approval_workflow_choice 1000 "ap-1" "PR" "pr-1"
           (Some "PR-2025-0001") (Some "u-carol")
           (Some (Decimal.mk 1250000 (-2))) None db_two_workflows
           approval_created
           (snd (create_approval 1000 "ap-1" "PR" "pr-1"
                   (Some "PR-2025-0001") (Some "u-carol")
                   (Some (Decimal.mk 1250000 (-2))) None db_two_workflows))).
  vm_compute. reflexivity.
Defined.

Lemma create_approval_initial_state_witness :
  create_approval 1000 "ap-1" "PR" "pr-1" (Some "PR-2025-0001")
    (Some "u-carol") (Some (Decimal.mk 1250000 (-2))) None db_empty
  = (Ok approval_created,
     with_approvals (<["ap-1" := approval_created]> ∅) db_empty)
  /\ status approval_created = "IN_PROGRESS"
  /\ current_step_sequence approval_created = Some 1
  /\ smallest 1 (live_sequences wf1 db_empty).
Proof.
  assert (create_approval 1000 "ap-1" "PR" "pr-1" (Some "PR-2025-0001")
            (Some "u-carol") (Some (Decimal.mk 1250000 (-2))) None db_empty
          = (Ok approval_created,
             with_approvals (<["ap-1" := approval_created]> ∅) db_empty))
    as Hrun by (vm_compute; reflexivity).
  split; [exact Hrun|].
  destruct (create_approval_initial_state _ _ _ _ _ _ _ _ _ _ _ Hrun)
    as (w & Hw & _ & _ & _ & _ & _ & _ & _ & _ & _ & _ & Hstate).
  injection Hw as <-.
  change (live_sequences wf1 db_empty) with [2; 1] in Hstate.
  destruct Hstate as (Hst & s & Hs & Hsmall).
  injection Hs as <-. done.
Defined.

Lemma create_approval_zero_sequence_witness :
  smallest 0 (live_sequences wf1 db_zero_step)
  /\ status approval_at_0 = "IN_PROGRESS"
  /\ approve_step 2000 "h-1" approval_at_0 "u-alice" None None
       (db_with approval_at_0)
     = (Raise (ValidationError "No current step to approve"),
        db_with approval_at_0).
Proof.
  assert (smallest 0 (live_sequences wf1 db_zero_step)) as H0.
  { split; [by left|]. intros t Ht.
    apply list_elem_of_singleton in Ht. by subst t. }
  split; [exact H0|].
  destruct (create_approval_zero_sequence 1000 "ap-1" "PR" "pr-1"
              (Some "PR-2025-0001") (Some "u-carol")
              (Some (Decimal.mk 1250000 (-2))) None db_zero_step
              approval_at_0
              (with_approvals (<["ap-1" := approval_at_0]> ∅) db_zero_step)
              wf1) as (Hst & _ & Hstuck);
    [vm_compute; reflexivity|reflexivity|exact H0|].
  split; [exact Hst|].
  exact (proj1 (Hstuck 2000 "h-1" "u-alice" None None (db_with approval_at_0))).
Defined.

Lemma approve_step_progress_witness :
  exists complete approval' db',
    approve_step 2000 "h-1" approval_at_1 "u-alice" None None
                 (db_with approval_at_1)
    = (Ok (complete, approval'), db')
    /\ complete = false
    /\ current_step_sequence approval' = Some 2.
Proof.
  destruct (approve_step_progress 2000 "h-1" approval_at_1 "u-alice" None None
              step1 wf1 1 (db_with approval_at_1))
    as (complete & approval' & db' & Hrun & _ & Hiff & _ & Hmove);
    [reflexivity|reflexivity|apply not_elem_of_nil|reflexivity|reflexivity|].
  exists complete, approval', db'. split; [exact Hrun|].
  assert (complete = false) as Hc.
  { destruct complete; [|done]. exfalso.
    assert (2 <= 1); [|lia]. apply (proj1 Hiff eq_refl).
    change (live_sequences wf1 (db_with approval_at_1)) with [2; 1].
    by left. }
  split; [exact Hc|].
  destruct (Hmove Hc) as (_ & _ & s & Hs & Hlt & Hin & Hmin).
  rewrite Hs. f_equal.
  change (live_sequences wf1 (db_with approval_at_1)) with [2; 1] in *.
  assert (s <= 2) by (apply Hmin; [by left|lia]).
  apply elem_of_cons in Hin as [->|Hin]; [done|].
  apply list_elem_of_singleton in Hin. lia.
Defined.

Lemma next_step_timeout_counts_from_request_witness :
  approve_step 2000 "h-1" approval_at_1 "u-alice" None None
               (db_timed approval_at_1)
  = (Ok (false, approval_moved),
     snd (approve_step 2000 "h-1" approval_at_1 "u-alice" None None
                       (db_timed approval_at_1)))
  /\ requested_at approval_moved = 0
  /\ check_timeout a_day_later approval_moved
       (snd (approve_step 2000 "h-1" approval_at_1 "u-alice" None None
                          (db_timed approval_at_1)))
     = Ok true.
Proof.
  assert (approve_step 2000 "h-1" approval_at_1 "u-alice" None None
                       (db_timed approval_at_1)
          = (Ok (false, approval_moved),
             snd (approve_step 2000 "h-1" approval_at_1 "u-alice" None None
                               (db_timed approval_at_1)))) as Hrun
    by (vm_compute; reflexivity).
  split; [exact Hrun|].
  destruct (next_step_timeout_counts_from_request 2000 "h-1" approval_at_1
              "u-alice" None None step1 approval_at_1
              (db_timed approval_at_1) approval_moved
              (snd (approve_step 2000 "h-1" approval_at_1 "u-alice" None None
                                 (db_timed approval_at_1)))
              step2_timed 24)
    as [Hreq Hcheck];
    [reflexivity|reflexivity|apply not_elem_of_nil|reflexivity|exact Hrun
    |reflexivity|reflexivity|lia|simpl; lia|unfold datetime_max; simpl; lia
    | |].
  { intros e He. by apply elem_of_nil in He. }
  split; [exact Hreq|]. rewrite Hcheck. reflexivity.
Defined.

Lemma approve_step_only_active_users_witness :
  exists x, x ∈ users (db_with approval_at_1)
            /\ user_id x = "u-alice" /\ user_is_active x = true.
Proof.
  apply (approve_step_only_active_users 2000 "h-1" approval_at_1 "u-alice"
           None None (db_with approval_at_1) (false, approval_moved)
           (snd (approve_step 2000 "h-1" approval_at_1 "u-alice" None None
                              (db_with approval_at_1)))).
  vm_compute. reflexivity.
Defined.

Lemma clean_then_save_keeps_one_default_witness :
  one_default_per_scope db_empty
  /\ ApprovalWorkflow_clean workflow_small db_empty = Ok tt
  /\ one_default_per_scope
       (snd (ApprovalWorkflow_save 3000 workflow_small db_empty)).
Proof.
  assert (one_default_per_scope db_empty) as Hinv.
  { intros w1 w2 H1 H2 _ _ _ _.
    apply list_elem_of_singleton in H1, H2. by subst. }
  split; [exact Hinv|]. split; [reflexivity|].
  apply clean_then_save_keeps_one_default; [exact Hinv|reflexivity].
Defined.

End workflow_instances.

(** ** Instances: the stock ledger *)
Section stock_instances.
Import Procurement Stock Ledger Examples.

Lemma get_current_stock_exact_witness :
  get_current_stock "item-1" (Some "loc-A") ledger = Decimal.mk 7500 (-3)
  /\ get_current_stock "item-1" (Some "loc-B") ledger = Decimal.mk 5000 (-3).
Proof.
  split.
  - rewrite (get_current_stock_exact "item-1" (Some "loc-A") ledger)
      by (vm_compute; reflexivity).
    vm_compute. reflexivity.
  - rewrite (get_current_stock_exact "item-1" (Some "loc-B") ledger)
      by (vm_compute; reflexivity).
    vm_compute. reflexivity.
Defined.

Lemma reversal_restores_stock_witness :
  get_current_stock "item-1" (Some "loc-A")
    (snd (reverse_movement 1000 "m-3" movement "u-bob" movements))
  = get_current_stock "item-1" (Some "loc-A") (delete "m-1" movements).
Proof.
  destruct (reverse_movement 1000 "m-3" movement "u-bob" movements)
    as [[[r m']|e] db'] eqn:Hrun; [|vm_compute in Hrun; discriminate Hrun].
  apply (reversal_restores_stock 1000 "m-3" movement "u-bob" movements
           r m' db' "item-1" "loc-A"); [reflexivity|exact Hrun|].
  intros [[_ H]|[H _]]; [discriminate H|].
  revert H. apply (bool_decide_eq_false_1 _). reflexivity.
Defined.

Lemma transfer_reversal_overshoots_witness :
  let db' := snd (reverse_movement 1000 "m-3" transfer "u-bob" ledger) in
  let net loc d := in_total "item-1" (Some loc) d
                   - out_total "item-1" (Some loc) d in
  net "loc-A" ledger = net "loc-A" (delete "m-2" ledger) - 5000
  /\ net "loc-B" ledger = net "loc-B" (delete "m-2" ledger) + 5000
  /\ net "loc-A" db' = net "loc-A" (delete "m-2" ledger) + 5000
  /\ net "loc-B" db' = net "loc-B" (delete "m-2" ledger) - 5000.
Proof.
  destruct (reverse_movement 1000 "m-3" transfer "u-bob" ledger)
    as [[[r m']|e] db'] eqn:Hrun; [|vm_compute in Hrun; discriminate Hrun].
  exact (transfer_reversal_overshoots 1000 "m-3" transfer "u-bob" ledger
           r m' db' "loc-A" "loc-B" eq_refl Hrun eq_refl eq_refl eq_refl
           ltac:(discriminate)).
Defined.

Lemma get_current_stock_without_location_witness :
  get_current_stock "item-1" (Some "loc-A") movements = Decimal.mk 12500 (-3)
  /\ get_current_stock "item-1" None movements = Decimal.zero.
Proof.
  split; [vm_compute; reflexivity|].
  apply get_current_stock_without_location.
  change (counted "item-1" movements) with [movement].
  intros m Hm. apply list_elem_of_singleton in Hm. subst m.
  split; [discriminate|].
  intros H. exfalso. revert H. apply (bool_decide_eq_false_1 _). reflexivity.
Defined.

End stock_instances.

(** ** Instances: the location hierarchy *)
Section location_instances.
Import Locations Hierarchy.

Lemma site_chain : ancestors site rm05 [f2; b1; wh1].
Proof.
  split; [|reflexivity].
  repeat (econstructor; [reflexivity|reflexivity|]). constructor.
Qed.

Lemma site_distinct : NoDup (map Core.id [rm05; f2; b1; wh1]).
Proof. apply (bool_decide_unpack _). reflexivity. Qed.

Lemma calculate_depth_acyclic_witness : _calculate_depth rm05 site = Ok 3.
Proof.
  exact (calculate_depth_acyclic rm05 site [f2; b1; wh1] site_chain
           site_distinct).
Defined.

Lemma clean_rejects_cycles_witness :
  exists msg, clean wh1_moved site = Raise (ValidationError msg).
Proof.
  apply (clean_rejects_cycles wh1_moved site [f2; b1] wh1);
    [|reflexivity|simpl; lia].
  repeat (econstructor; [reflexivity|reflexivity|]). constructor.
Defined.

Lemma clean_depth_limit_witness :
  clean rm05 site
  = Ok (set_path (Some "WH1/B1/F2/RM05") (set_depth_level 3 rm05)).
Proof.
  destruct (proj1 (clean_depth_limit rm05 site [f2; b1; wh1] site_chain
                     site_distinct)) as (p & Hp & Hclean);
    [simpl; lia|].
  injection Hp as <-. exact Hclean.
Defined.

Lemma generate_path_joined_witness :
  _generate_path rm05 site = Ok "WH1/B1/F2/RM05".
Proof.
  exact (generate_path_joined rm05 site [f2; b1; wh1] site_chain eq_refl).
Defined.

Lemma get_full_hierarchy_chain_witness :
  get_full_hierarchy 3 rm05 site = Some (Ok [wh1; b1; f2; rm05]).
Proof.
  apply (get_full_hierarchy_chain rm05 site [f2; b1; wh1] 3 site_chain).
  simpl. lia.
Defined.

Lemma get_full_hierarchy_cycle_witness :
  get_full_hierarchy 1000 loop_a looped = None.
Proof.
  apply (get_full_hierarchy_cycle loop_a looped [] [loop_a] loop_b).
  - econstructor; [reflexivity|reflexivity|constructor].
  - repeat (econstructor; [reflexivity|reflexivity|]). constructor.
Defined.

End location_instances.

(** ** Instances: the other receivers *)
Section receiver_instances.
Import Approvals Receivers Signals Examples.

Lemma signals_keep_one_approval_per_entity_witness :
  (length (approvals_for "GRN" "grn-1" db_all_workflows) <= 1)%nat
  /\ (length (approvals_for "GRN" "grn-1"
                (run_signals
                   [(10%Z, "ap-1", SavedGRN (grn1 "SUBMITTED"));
                    (20%Z, "ap-2", SavedPR (purchase_request "SUBMITTED"));
                    (30%Z, "ap-3", SavedGRN (grn1 "SUBMITTED"));
                    (40%Z, "ap-4", SavedAdjustment (adjustment1 "SUBMITTED"));
                    (50%Z, "ap-5", SavedGRN (grn1 "ACCEPTED"))]
                   db_all_workflows)) <= 1)%nat.
Proof.
  assert (length (approvals_for "GRN" "grn-1" db_all_workflows) <= 1)%nat
    as H0 by (vm_compute; lia).
  split; [exact H0|].
  exact (signals_keep_one_approval_per_entity _ "GRN" "grn-1"
           db_all_workflows H0).
Defined.

Lemma validate_asset_assignment_consistent_witness :
  validate_asset_assignment (<["u-bob" := Some "dept-it"]> ∅)
    (mkAssignment (Some "u-bob") None "IN_STOCK")
  = Ok (mkAssignment (Some "u-bob") (Some "dept-it") "ASSIGNED")
  /\ status_consistent (mkAssignment (Some "u-bob") (Some "dept-it") "ASSIGNED").
Proof.
  split; [reflexivity|].
  apply (validate_asset_assignment_consistent
           (<["u-bob" := Some "dept-it"]> ∅)
           (mkAssignment (Some "u-bob") None "IN_STOCK")).
  reflexivity.
Defined.

End receiver_instances.

(** ** Instances: the depreciation schedule *)
Section schedule_instances.
Import Assets Calendar Schedule Plan.

(** The schedule of the laptop: twelve rows of 100.00. *)
Lemma laptop_schedule :
  exists rows,
    generate_depreciation_schedule 13 draw laptop None None []
    = Some (Returns tt, rows)
    /\ length rows = 12%nat
    /\ map depreciation_amount rows = replicate 12 (Decimal.mk 10000 (-2))
    /\ map closing_book_value rows
       = map (fun k => Decimal.mk k (-2))
             [110000; 100000; 90000; 80000; 70000; 60000; 50000; 40000;
              30000; 20000; 10000; 0].
Proof. eexists. vm_compute. repeat split; reflexivity. Qed.

Lemma schedule_returns_witness :
  exists out,
    forall fuel : nat,
      (13 <= fuel)%nat ->
      generate_depreciation_schedule fuel draw laptop None None [] = Some out.
Proof.
  apply (schedule_returns draw laptop None None []).
  split; [|split]; intros x Hx; [|discriminate Hx..].
  injection Hx as <-. unfold valid_month. simpl. lia.
Defined.


Lemma schedule_idempotent_witness :
  exists rows,
    generate_depreciation_schedule 13 draw laptop None None []
    = Some (Returns tt, rows)
    /\ generate_depreciation_schedule 13 draw_again laptop None None rows
       = Some (Returns tt, rows).
Proof.
  destruct laptop_schedule as (rows & Hrun & _).
  exists rows. split; [exact Hrun|].
  exact (schedule_idempotent 13 draw draw_again laptop None None [] rows Hrun).
Defined.

End schedule_instances.

(** ** Instances: runs of approvals *)
Section run_instances.
Import Approvals Spec Runs Admin Examples.

Lemma live_sequences_db_with (a : Approval) :
  live_sequences wf1 (db_with a) = [2; 1].
Proof. reflexivity. Qed.

Lemma approve_each_completes_witness :
  exists final db',
    approve_each [(2000, "h-1", "u-alice"); (3000, "h-2", "u-bob")]
                 approval_at_1 (db_with approval_at_1)
    = (Ok ([false; true], final), db')
    /\ status final = "APPROVED"
    /\ completed_at final = Some 3000
    /\ length (history db') = 2%nat.
Proof.
  destruct (approve_each_completes [2]
              [(2000, "h-1", "u-alice"); (3000, "h-2", "u-bob")]
              approval_at_1 wf1 1 (db_with approval_at_1))
    as (final & db' & Hrun & Hstat & Hdone & _ & Hlen & _).
  - reflexivity.
  - reflexivity.
  - split; [repeat constructor|].
    intros t. rewrite live_sequences_db_with, list_elem_of_singleton,
      !elem_of_cons, elem_of_nil. lia.
  - constructor; [by split; [|exists step1]|].
    constructor; [by split; [|exists step2]|]. constructor.
  - apply (bool_decide_unpack _). reflexivity.
  - intros a _. apply not_elem_of_nil.
  - exists final, db'. by repeat split.
Defined.


Lemma rejected_approval_can_be_approved_witness :
  exists rejected db1 approved db2,
    reject 2000 "h-1" approval_at_2 "u-carol" (Some "Too expensive")
           (db_with approval_at_2)
    = (Ok rejected, db1)
    /\ status rejected = "REJECTED"
    /\ approve_step 3000 "h-2" rejected "u-bob" None None db1
       = (Ok (true, approved), db2)
    /\ status approved = "APPROVED".
Proof.
  destruct (rejected_approval_can_be_approved 2000 3000 "h-1" "h-2"
              approval_at_2 "u-carol" "u-bob" (Some "Too expensive") step2
              wf1 2 (db_with approval_at_2))
    as (rejected & db1 & approved & db2 & Hrej & Hst & Happ & Hap & _).
  - reflexivity.
  - reflexivity.
  - reflexivity.
  - intros t. rewrite live_sequences_db_with, !elem_of_cons, elem_of_nil. lia.
  - reflexivity.
  - apply not_elem_of_nil.
  - apply not_elem_of_nil.
  - discriminate.
  - by exists rejected, db1, approved, db2.
Defined.

End run_instances.

(** ** Instances: warranty dates *)
Section upkeep_instances.
Import Calendar Upkeep.

Lemma warranty_days_consistent_witness :
  is_under_warranty (Date.mk 2026 1 31) warranted = true
  /\ warranty_days_remaining (Date.mk 2026 1 31) warranted = Some 28
  /\ warranty_days_remaining (Date.mk 2026 3 1) warranted = Some 0
  /\ is_maintenance_due (Date.mk 2026 1 31) warranted = true.
Proof.
  assert (forall d, valid_date d ->
            (forall e, warranty_end_date warranted = Some e -> valid_date e)
            /\ (forall e, next_maintenance_date warranted = Some e ->
                          valid_date e)) as Hvalid.
  { intros d _.
    split; intros e [= <-]; vm_compute; intuition discriminate. }
  assert (valid_date (Date.mk 2026 1 31)) as H1
    by (vm_compute; intuition discriminate).
  assert (valid_date (Date.mk 2026 3 1)) as H2
    by (vm_compute; intuition discriminate).
  destruct (warranty_days_consistent (Date.mk 2026 1 31) warranted H1
              (proj1 (Hvalid _ H1)) (proj2 (Hvalid _ H1))) as [Hw1 Hm1].
  destruct (warranty_days_consistent (Date.mk 2026 3 1) warranted H2
              (proj1 (Hvalid _ H2)) (proj2 (Hvalid _ H2))) as [Hw2 _].
  destruct (Hw1 _ eq_refl) as [Hu1 Hr1].
  destruct (Hw2 _ eq_refl) as [_ Hr2].
  split; [reflexivity|]. split; [exact Hr1|]. split; [exact Hr2|].
  apply (Hm1 _ eq_refl). vm_compute. discriminate.
Defined.

End upkeep_instances.
